(** * PanelRespuestasWhats: the client-side core of the admin panel

    A shallow embedding of the state store (StateManager, and Reentrant
    for subscribers that call the store while they are notified), the
    backend client's mappers (ApiService), the push-channel client
    (SocketService), the view-renderer routines the properties below are
    about (UIManager) and the controller's loading and message handling
    (WhatsAppAdminApp), followed by the properties.

    Conventions of the embedding.
    - JavaScript strings are [string]s, one code unit per character, so
      the code units are those below 256. [toLowerCase] stays within them;
      [toUpperCase] does not (the capital of y-diaeresis is U+0178), so its
      result is a sequence of code units as numbers.
    - Numbers that the code uses as integers (message ids, wire type codes,
      unread counters, pixel offsets) are [Z].
    - A property that may be [undefined] or [null] is an [option], which
      holds the two as one value; where the code prints such a value the
      text is not produced. A call that may throw returns a [Result].
    - Effects are explicit: the store carries its subscribers, the trace of
      subscriber invocations and the lines written with [console.error];
      the blob registry behind [URL.createObjectURL] is a list of blobs.
    - [console.log] output is not modelled. *)

From Stdlib Require Import List String Ascii ZArith Lia ZifyNat Bool Arith
  PeanoNat.
From Stdlib Require Import Sorted Permutation.
From Stdlib Require Import DecimalString DecimalNat.
Import ListNotations.

Local Open Scope string_scope.
Local Open Scope list_scope.

(* ===================================================================== *)
(** ** Results of calls that may throw *)
(* ===================================================================== *)

Inductive Result (A : Type) : Type :=
| Ok (a : A)
| Throw (error : string).

Arguments Ok {A} a.
Arguments Throw {A} error.

(* ===================================================================== *)
(** ** The platform: String.prototype, Array.prototype, atob *)
(* ===================================================================== *)

Module JS.

Definition code (c : ascii) : nat := nat_of_ascii c.

Definition in_range (lo hi : nat) (c : ascii) : bool :=
  (lo <=? code c)%nat && (code c <=? hi)%nat.

Definition is_upper (c : ascii) : bool := in_range 65 90 c.
Definition is_lower (c : ascii) : bool := in_range 97 122 c.
Definition is_digit (c : ascii) : bool := in_range 48 57 c.

(** The case mappings of [String.prototype] are the default ones of
    Unicode. Below 256 the code units with a lower case are A-Z, A-grave
    to O-diaeresis (192-214) and O-stroke to Thorn (216-222), whose small
    letter is 32 above; the multiplication sign (215) has none. *)
Definition lower_char (c : ascii) : ascii :=
  if in_range 65 90 c || in_range 192 214 c || in_range 216 222 c
  then ascii_of_nat (code c + 32) else c.

(** [s.toLowerCase()] *)
Fixpoint toLowerCase (s : string) : string :=
  match s with
  | EmptyString => EmptyString
  | String c r => String (lower_char c) (toLowerCase r)
  end.

(** ASCII lower case: A-Z alone. *)
Fixpoint ascii_lowercase (s : string) : string :=
  match s with
  | EmptyString => EmptyString
  | String c r =>
      String (if is_upper c then ascii_of_nat (code c + 32) else c)
             (ascii_lowercase r)
  end.

Fixpoint all_chars (p : ascii -> bool) (s : string) : bool :=
  match s with
  | EmptyString => true
  | String c r => p c && all_chars p r
  end.

(** The [type] of [new Blob(parts, { type })]: the type given in ASCII
    lower case, or the empty string when it holds a character outside
    U+0020 to U+007E. *)
Definition blob_type_of (type : string) : string :=
  if all_chars (in_range 32 126) type then ascii_lowercase type
  else EmptyString.

(** A string as the sequence of its code units. *)
Definition units (s : string) : list N :=
  map N_of_ascii (list_ascii_of_string s).

(** The upper case of a code unit below 256: the capital is 32 below for
    a-z, a-grave to o-diaeresis (224-246) and o-stroke to thorn (248-254);
    sharp s (223) gives "SS", the micro sign (181) gives the Greek capital
    mu (U+039C) and y-diaeresis (255) gives U+0178; the division sign
    (247) and every other code unit is kept. *)
Definition upper_units (c : ascii) : list N :=
  if in_range 97 122 c || in_range 224 246 c || in_range 248 254 c
  then [N.of_nat (code c - 32)]
  else if (code c =? 223)%nat then [83; 83]%N
  else if (code c =? 181)%nat then [924]%N
  else if (code c =? 255)%nat then [376]%N
  else [N.of_nat (code c)].

(** [s.toUpperCase()] *)
Fixpoint toUpperCase (s : string) : list N :=
  match s with
  | EmptyString => []
  | String c r => upper_units c ++ toUpperCase r
  end.

(** [s.startsWith(p)] *)
Fixpoint startsWith (s p : string) : bool :=
  match p, s with
  | EmptyString, _ => true
  | String _ _, EmptyString => false
  | String a p', String b s' => Ascii.eqb a b && startsWith s' p'
  end.

(** [s.includes(q)] *)
Fixpoint includes (s q : string) : bool :=
  startsWith s q ||
  match s with
  | EmptyString => false
  | String _ r => includes r q
  end.

(** White space as [String.prototype.trim] sees it, within one-byte code
    units: TAB, LF, VT, FF, CR, SPACE and NBSP. *)
Definition is_space (c : ascii) : bool :=
  match code c with
  | 9 | 10 | 11 | 12 | 13 | 32 | 160 => true
  | _ => false
  end.

Fixpoint trimStart (s : string) : string :=
  match s with
  | EmptyString => EmptyString
  | String c r => if is_space c then trimStart r else s
  end.

(** Drops the trailing white space: a character is kept when it is not
    white space or when something is kept after it. *)
Fixpoint trimEnd (s : string) : string :=
  match s with
  | EmptyString => EmptyString
  | String c r =>
      match trimEnd r with
      | EmptyString => if is_space c then EmptyString else String c EmptyString
      | r' => String c r'
      end
  end.

(** [s.trim()] *)
Definition trim (s : string) : string := trimEnd (trimStart s).

(** [s.split(sep)] for a one-character separator: the pieces between the
    separators, empty pieces included; the empty string gives one empty
    piece. *)
Fixpoint split (sep : ascii) (s : string) : list string :=
  match s with
  | EmptyString => [EmptyString]
  | String c r =>
      if Ascii.eqb c sep then EmptyString :: split sep r
      else match split sep r with
           | [] => [String c EmptyString]
           | t :: ts => String c t :: ts
           end
  end.

(** [s[0]]: [undefined] on the empty string. *)
Definition char0 (s : string) : option ascii :=
  match s with
  | EmptyString => None
  | String c _ => Some c
  end.

(** [xs.join('')] on an array of characters and [undefined]s: [undefined]
    joins as the empty string. *)
Fixpoint join_chars (xs : list (option ascii)) : string :=
  match xs with
  | [] => EmptyString
  | Some c :: r => String c (join_chars r)
  | None :: r => join_chars r
  end.

(** [s.substring(0, n)] and [s.slice(0, n)] for [n >= 0]. *)
Fixpoint take (n : nat) (s : string) : string :=
  match n, s with
  | O, _ => EmptyString
  | _, EmptyString => EmptyString
  | S n', String c r => String c (take n' r)
  end.

(** [xs.findIndex(p)]: the code tests the result with [index > -1]; the
    [-1] of JavaScript is [None] here. *)
Fixpoint findIndex {A : Type} (p : A -> bool) (xs : list A) : option nat :=
  match xs with
  | [] => None
  | x :: r => if p x then Some O else option_map S (findIndex p r)
  end.

(** [xs[i] = v] for an index inside the array. *)
Fixpoint set_index {A : Type} (i : nat) (v : A) (xs : list A) : list A :=
  match xs, i with
  | [], _ => []
  | _ :: r, O => v :: r
  | x :: r, S i' => x :: set_index i' v r
  end.

(** *** atob: the forgiving-base64 decoder of the HTML standard *)

Definition is_b64_char (c : ascii) : bool :=
  is_upper c || is_lower c || is_digit c
  || Ascii.eqb c "+"%char || Ascii.eqb c "/"%char.

(** The value of a character of the alphabet. *)
Definition sextet (c : ascii) : N :=
  if is_upper c then N.of_nat (code c - 65)
  else if is_lower c then N.of_nat (code c - 97 + 26)
  else if is_digit c then N.of_nat (code c - 48 + 52)
  else if Ascii.eqb c "+"%char then 62%N
  else 63%N.

(** ASCII white space as the decoder strips it: TAB, LF, FF, CR, SPACE. *)
Definition is_ascii_whitespace (c : ascii) : bool :=
  match code c with
  | 9 | 10 | 12 | 13 | 32 => true
  | _ => false
  end.

Definition byte_of (n : N) : ascii := ascii_of_N (N.modulo n 256).

(** Groups of four sextets give three bytes; a rest of three gives two
    bytes and a rest of two gives one (the surplus bits are dropped). *)
Fixpoint decode_sextets (xs : list N) : list ascii :=
  match xs with
  | a :: b :: c :: d :: r =>
      byte_of (a * 4 + b / 16)
      :: byte_of ((b mod 16) * 16 + c / 4)
      :: byte_of ((c mod 4) * 64 + d)
      :: decode_sextets r
  | [a; b; c] =>
      [byte_of (a * 4 + b / 16); byte_of ((b mod 16) * 16 + c / 4)]
  | [a; b] => [byte_of (a * 4 + b / 16)]
  | _ => []
  end.

Definition eq_sign : ascii := "="%char.

(** Removes one or two trailing [=]. *)
Definition strip_padding (data : list ascii) : list ascii :=
  match rev data with
  | p :: q :: r =>
      if Ascii.eqb p eq_sign then
        if Ascii.eqb q eq_sign then rev r else rev (q :: r)
      else data
  | [p] => if Ascii.eqb p eq_sign then [] else data
  | [] => data
  end.

(** [atob(s)]: [None] stands for the InvalidCharacterError it throws. The
    result is a binary string, one character per decoded byte. *)
Definition atob (s : string) : option string :=
  let data := filter (fun c => negb (is_ascii_whitespace c))
                     (list_ascii_of_string s) in
  let data := if (List.length data mod 4 =? 0)%nat then strip_padding data
              else data in
  if (List.length data mod 4 =? 1)%nat then None
  else if forallb is_b64_char data
       then Some (string_of_list_ascii (decode_sextets (map sextet data)))
       else None.

End JS.

(* ===================================================================== *)
(** ** Configuration (config.js) *)
(* ===================================================================== *)

Module CONFIG.

Record MessageType := {
  mt_from : string;
  mt_label : string;
  mt_color : string
}.

(** [CONFIG.MESSAGE_TYPES], an object keyed by the wire type codes. *)
Definition MESSAGE_TYPES : list (Z * MessageType) :=
  [ (1%Z, {| mt_from := "bot";   mt_label := "🤖 Bot";    mt_color := "out" |});
    (2%Z, {| mt_from := "them";  mt_label := "👤 Client"; mt_color := "in" |});
    (3%Z, {| mt_from := "bot";   mt_label := "🤖 AI";     mt_color := "out" |});
    (4%Z, {| mt_from := "admin"; mt_label := "👨‍💼 Admin";  mt_color := "out" |}) ].

(** [MESSAGE_TYPES[code]]: [None] is the [undefined] of a missing key. *)
Fixpoint lookup_type (table : list (Z * MessageType)) (code : Z)
  : option MessageType :=
  match table with
  | [] => None
  | (k, v) :: r => if Z.eqb k code then Some v else lookup_type r code
  end.

Definition DEFAULT_TAGS : list string := ["lead"; "fx"].

Definition TOAST_DURATION : Z := 1600.
Definition CONNECTION_RETRY_DELAY : Z := 5000.

Definition API_BASE : string :=
  "https://broadcast-system-d7ca773e62c8.herokuapp.com".

Definition SEND_INTERVENTION : string := "/m/send/to/single/number".

End CONFIG.

(* ===================================================================== *)
(** ** Data model *)
(* ===================================================================== *)

(** A value the code only tests for truthiness (the [interview] field of a
    conversation record). *)
Inductive JSValue :=
| Undefined
| Null
| JBool (b : bool)
| JNumber (z : Z)
| JString (s : string)
| JObject.

Definition truthy (v : JSValue) : bool :=
  match v with
  | Undefined | Null => false
  | JBool b => b
  | JNumber z => negb (Z.eqb z 0)
  | JString s => negb (String.eqb s "")
  | JObject => true
  end.

Module Message.

(** The [audioUrl] property: not set on a message that took the text
    path, [null] when the conversion failed, a blob URL otherwise. The URL
    is the index of the blob in the registry. *)
Inductive AudioUrl :=
| NotSet
| NoUrl
| BlobUrl (url : nat).

Record t := mk {
  id : Z;
  from : string;
  type : Z;
  label : string;
  color : string;
  text : option string;
  timestamp : Z;
  isAudio : bool;
  audioData : option string;
  audioUrl : AudioUrl
}.

End Message.

Module Conversation.

(** A conversation record as the mappers build it: the ten keys are all
    present; [name], [initials] and [number] may hold [undefined]. The
    initials are the result of [toUpperCase]: code units as numbers. *)
Record t := mk {
  id : string;
  name : option string;
  initials : option (list N);
  number : option string;
  src : string;
  tags : list string;
  unread : Z;
  needsAttention : bool;
  interview : JSValue;
  messages : list Message.t
}.

Definition with_messages (c : t) (ms : list Message.t) : t :=
  {| id := id c; name := name c; initials := initials c;
     number := number c; src := src c; tags := tags c; unread := unread c;
     needsAttention := needsAttention c; interview := interview c;
     messages := ms |}.

(** [{ ...old, ...payload }] for two conversation records: every key of
    the payload is an own property, so each one overrides. *)
Definition spread (old payload : t) : t :=
  {| id := id payload; name := name payload; initials := initials payload;
     number := number payload; src := src payload; tags := tags payload;
     unread := unread payload; needsAttention := needsAttention payload;
     interview := interview payload; messages := messages payload |}.

End Conversation.

(* ===================================================================== *)
(** ** The state store (class StateManager) *)
(* ===================================================================== *)

Module StateManager.

Record State := mkState {
  conversations : list Conversation.t;
  activeConversationId : option string;
  isManualMode : bool;
  isLoading : bool;
  searchQuery : string;
  selectedFilter : string
}.

(** The argument of [setState]: an object holding some of the six keys. *)
Record Updates := mkUpdates {
  u_conversations : option (list Conversation.t);
  u_activeConversationId : option (option string);
  u_isManualMode : option bool;
  u_isLoading : option bool;
  u_searchQuery : option string;
  u_selectedFilter : option string
}.

Definition no_updates : Updates :=
  mkUpdates None None None None None None.

Definition override {A : Type} (old : A) (new : option A) : A :=
  match new with
  | Some v => v
  | None => old
  end.

(** [{ ...state, ...updates }] *)
Definition merge (s : State) (u : Updates) : State :=
  {| conversations := override (conversations s) (u_conversations u);
     activeConversationId :=
       override (activeConversationId s) (u_activeConversationId u);
     isManualMode := override (isManualMode s) (u_isManualMode u);
     isLoading := override (isLoading s) (u_isLoading u);
     searchQuery := override (searchQuery s) (u_searchQuery u);
     selectedFilter := override (selectedFilter s) (u_selectedFilter u) |}.

(** What a subscriber does with the snapshot it is handed: it returns or
    it throws. A subscriber is a function object; [cb_id] is its identity,
    which is what [indexOf] compares. The subscribers of this store are
    observers: they do not call the store while they are notified. The
    store whose subscribers do is [Reentrant] below, which walks the live
    array; on observers the two agree. *)
Inductive Outcome :=
| Returns
| Throws (error : string).

Record Callback := mkCallback {
  cb_id : nat;
  cb_body : State -> Outcome
}.

(** The store, with what the outside observes of it: which subscriber was
    called with which snapshot, in order, and the [console.error] lines. *)
Record t := mk {
  state : State;
  subscribers : list Callback;
  invocations : list (nat * State);
  console_error : list string
}.

Definition initial_state : State :=
  {| conversations := [];
     activeConversationId := None;
     isManualMode := false;
     isLoading := false;
     searchQuery := "";
     selectedFilter := "all" |}.

(** [constructor()] *)
Definition create : t :=
  {| state := initial_state; subscribers := [];
     invocations := []; console_error := [] |}.

Definition with_state (st : t) (s : State) : t :=
  {| state := s; subscribers := subscribers st;
     invocations := invocations st; console_error := console_error st |}.

Definition with_subscribers (st : t) (subs : list Callback) : t :=
  {| state := state st; subscribers := subs;
     invocations := invocations st; console_error := console_error st |}.

(** [subscribe(callback)]: [this.subscribers.push(callback)]. *)
Definition subscribe (cb : Callback) (st : t) : t :=
  with_subscribers st (subscribers st ++ [cb]).

Fixpoint remove_at {A : Type} (i : nat) (xs : list A) : list A :=
  match xs, i with
  | [], _ => []
  | _ :: r, O => r
  | x :: r, S i' => x :: remove_at i' r
  end.

(** The function [subscribe] returns: [indexOf] then [splice(index, 1)]. *)
Definition unsubscribe (cb : Callback) (st : t) : t :=
  match JS.findIndex (fun c => Nat.eqb (cb_id c) (cb_id cb)) (subscribers st) with
  | Some index => with_subscribers st (remove_at index (subscribers st))
  | None => st
  end.

(** One turn of the loop of [notify]:
    [try { callback(this.state) } catch (error) { console.error(...) }]. *)
Definition invoke (st : t) (cb : Callback) : t :=
  {| state := state st;
     subscribers := subscribers st;
     invocations := invocations st ++ [(cb_id cb, state st)];
     console_error :=
       match cb_body cb (state st) with
       | Returns => console_error st
       | Throws error =>
           console_error st
           ++ [String.append "Error in state subscriber: " error]
       end |}.

(** [notify()]: [this.subscribers.forEach(...)]. *)
Definition notify (st : t) : t :=
  fold_left invoke (subscribers st) st.

(** [setState(updates)] *)
Definition setState (updates : Updates) (st : t) : t :=
  notify (with_state st (merge (state st) updates)).

(** [getState()]: a copy of the state object. *)
Definition getState (st : t) : State := state st.

(** [setConversations(conversations)] *)
Definition setConversations (cs : list Conversation.t) (st : t) : t :=
  setState (mkUpdates (Some cs) None None None None None) st.

(** [updateConversation(conversation)] *)
Definition updateConversation (conversation : Conversation.t) (st : t) : t :=
  let conversations := conversations (state st) in
  let same_id c :=
    String.eqb (Conversation.id c) (Conversation.id conversation) in
  let conversations :=
    match JS.findIndex same_id conversations with
    | Some index =>
        match nth_error conversations index with
        | Some old =>
            JS.set_index index (Conversation.spread old conversation)
                         conversations
        | None => conversations
        end
    | None => conversations ++ [conversation]
    end in
  setState (mkUpdates (Some conversations) None None None None None) st.

(** [addMessage(conversationId, message)]. The conversation found is the
    object the state holds, and the code assigns to its [messages]
    property: the new array has the changed record at the same index. *)
Definition addMessage (conversationId : string) (message : Message.t)
  (st : t) : t :=
  let conversations := conversations (state st) in
  let has_id c := String.eqb (Conversation.id c) conversationId in
  match JS.findIndex has_id conversations with
  | Some index =>
      match nth_error conversations index with
      | Some conversation =>
          let conversation :=
            Conversation.with_messages conversation
              (Conversation.messages conversation ++ [message]) in
          setState
            (mkUpdates (Some (JS.set_index index conversation conversations))
                       None None None None None) st
      | None => st
      end
  | None => st
  end.

(** [setActiveConversation(conversationId)] *)
Definition setActiveConversation (conversationId : string) (st : t) : t :=
  setState (mkUpdates None (Some (Some conversationId)) None None None None) st.

(** [getActiveConversation()] *)
Definition getActiveConversation (st : t) : option Conversation.t :=
  match activeConversationId (state st) with
  | Some active =>
      find (fun c => String.eqb (Conversation.id c) active)
           (conversations (state st))
  | None => None
  end.

(** [setManualMode(isManual)] *)
Definition setManualMode (isManual : bool) (st : t) : t :=
  setState (mkUpdates None None (Some isManual) None None None) st.

(** [setLoading(isLoading)] *)
Definition setLoading (loading : bool) (st : t) : t :=
  setState (mkUpdates None None None (Some loading) None None) st.

(** [setSearchQuery(query)] *)
Definition setSearchQuery (query : string) (st : t) : t :=
  setState (mkUpdates None None None None (Some query) None) st.

(** [setFilter(filter)] *)
Definition setFilter (filter : string) (st : t) : t :=
  setState (mkUpdates None None None None None (Some filter)) st.

(** The callback of the search filter. [conversation.name.toLowerCase()]
    throws a TypeError on a conversation without a name. *)
Definition matches_search (query : string) (conversation : Conversation.t)
  : Result bool :=
  match Conversation.name conversation with
  | None => Throw "TypeError"
  | Some name =>
      let matchesName := JS.includes (JS.toLowerCase name) query in
      let matchesTags :=
        existsb (fun tag => JS.includes (JS.toLowerCase tag) query)
                (Conversation.tags conversation) in
      let matchesNumber :=
        match Conversation.number conversation with
        | Some number => negb (String.eqb number "") && JS.includes number query
        | None => false
        end in
      Ok (matchesName || matchesTags || matchesNumber)
  end.

(** [xs.filter(p)] for a callback that may throw: the first exception
    leaves the loop. *)
Fixpoint filter_throwing {A : Type} (p : A -> Result bool) (xs : list A)
  : Result (list A) :=
  match xs with
  | [] => Ok []
  | x :: r =>
      match p x with
      | Throw e => Throw e
      | Ok b =>
          match filter_throwing p r with
          | Throw e => Throw e
          | Ok r' => Ok (if b then x :: r' else r')
          end
      end
  end.

(** [getFilteredConversations()] *)
Definition getFilteredConversations (st : t) : Result (list Conversation.t) :=
  let s := state st in
  let searched :=
    if negb (String.eqb (searchQuery s) "") then
      let query := JS.toLowerCase (searchQuery s) in
      filter_throwing (matches_search query) (conversations s)
    else Ok (conversations s) in
  match searched with
  | Throw e => Throw e
  | Ok filtered =>
      if String.eqb (selectedFilter s) "unread" then
        Ok (filter (fun c => (0 <? Conversation.unread c)%Z) filtered)
      else if String.eqb (selectedFilter s) "attention" then
        Ok (filter Conversation.needsAttention filtered)
      else Ok filtered
  end.

(** [findConversationByNumber(phoneNumber)] *)
Definition findConversationByNumber (phoneNumber : string) (st : t)
  : option Conversation.t :=
  find (fun c => match Conversation.number c with
                 | Some n => String.eqb n phoneNumber
                 | None => false
                 end)
       (conversations (state st)).

(** [reset()] *)
Definition reset (st : t) : t := notify (with_state st initial_state).

End StateManager.

(* ===================================================================== *)
(** ** The store with subscribers that call back into it *)
(* ===================================================================== *)

(** [notify] runs [this.subscribers.forEach(...)] on the array the
    subscribers can change while it runs: the length is read once, an
    index is visited if the array still has it when its turn comes, and
    each callback is handed [this.state] as it is at that moment. *)
Module Reentrant.

(** What a subscriber does while it is notified: calls on the store, in
    order, after which it returns or throws. [Unsubscribe id] is a call of
    the function [subscribe] returned for the callback [id]. *)
Inductive Call :=
| Unsubscribe (id : nat)
| Subscribe (callback : Callback)
| SetState (updates : StateManager.Updates)
with Callback :=
| mkCallback (id : nat)
             (body : StateManager.State -> list Call * StateManager.Outcome).

Definition cb_id (cb : Callback) : nat :=
  match cb with
  | mkCallback id _ => id
  end.

Definition cb_body (cb : Callback)
  : StateManager.State -> list Call * StateManager.Outcome :=
  match cb with
  | mkCallback _ body => body
  end.

Record t := mk {
  state : StateManager.State;
  subscribers : list Callback;
  invocations : list (nat * StateManager.State);
  console_error : list string
}.

Definition with_state (st : t) (s : StateManager.State) : t :=
  {| state := s; subscribers := subscribers st;
     invocations := invocations st; console_error := console_error st |}.

Definition with_subscribers (st : t) (subs : list Callback) : t :=
  {| state := state st; subscribers := subs;
     invocations := invocations st; console_error := console_error st |}.

(** [subscribe(callback)] *)
Definition subscribe (cb : Callback) (st : t) : t :=
  with_subscribers st (subscribers st ++ [cb]).

(** The function [subscribe] returns: [indexOf] then [splice(index, 1)]. *)
Definition unsubscribe (id : nat) (st : t) : t :=
  match JS.findIndex (fun c => Nat.eqb (cb_id c) id) (subscribers st) with
  | Some index =>
      with_subscribers st (StateManager.remove_at index (subscribers st))
  | None => st
  end.

Section Round.

(** [setState] as the subscribers of this round can call it. *)
Variable setState : StateManager.Updates -> t -> option t.

(** The calls of a subscriber, in order. *)
Fixpoint perform (calls : list Call) (st : t) : option t :=
  match calls with
  | [] => Some st
  | Unsubscribe id :: r => perform r (unsubscribe id st)
  | Subscribe cb :: r => perform r (subscribe cb st)
  | SetState updates :: r =>
      match setState updates st with
      | Some st => perform r st
      | None => None
      end
  end.

(** [try { callback(this.state) } catch (error) { console.error(...) }] *)
Definition invoke (cb : Callback) (st : t) : option t :=
  let snapshot := state st in
  let (calls, outcome) := cb_body cb snapshot in
  let called :=
    {| state := state st; subscribers := subscribers st;
       invocations := invocations st ++ [(cb_id cb, snapshot)];
       console_error := console_error st |} in
  match perform calls called with
  | Some st =>
      Some match outcome with
           | StateManager.Returns => st
           | StateManager.Throws error =>
               {| state := state st; subscribers := subscribers st;
                  invocations := invocations st;
                  console_error :=
                    console_error st
                    ++ [String.append "Error in state subscriber: " error] |}
           end
  | None => None
  end.

(** [forEach]: the indices from [index] on, [count] of them. *)
Fixpoint forEach (index count : nat) (st : t) : option t :=
  match count with
  | O => Some st
  | S count' =>
      match nth_error (subscribers st) index with
      | Some cb =>
          match invoke cb st with
          | Some st => forEach (S index) count' st
          | None => None
          end
      | None => forEach (S index) count' st
      end
  end.

End Round.

(** [setState(updates)]; [fuel] bounds how deep notifications nest (a
    subscriber calling [setState] starts a notification inside the one
    that called it), and [None] is a run that needs more. *)
Fixpoint setState (fuel : nat) (updates : StateManager.Updates) (st : t)
  : option t :=
  match fuel with
  | O => None
  | S fuel' =>
      let st := with_state st (StateManager.merge (state st) updates) in
      forEach (setState fuel') 0 (List.length (subscribers st)) st
  end.

(** A subscriber that makes no call on the store when it is handed
    [snapshot]. *)
Definition passive (snapshot : StateManager.State) (cb : Callback) : Prop :=
  fst (cb_body cb snapshot) = [].

(** An observer as a subscriber of this store, and the store of
    observers as a store of this kind. *)
Definition observer (cb : StateManager.Callback) : Callback :=
  mkCallback (StateManager.cb_id cb)
             (fun snapshot => ([], StateManager.cb_body cb snapshot)).

Definition observed (st : StateManager.t) : t :=
  {| state := StateManager.state st;
     subscribers := map observer (StateManager.subscribers st);
     invocations := StateManager.invocations st;
     console_error := StateManager.console_error st |}.

(** The [console.error] lines of a round over [subs] with [snapshot]. *)
Definition errors (snapshot : StateManager.State) (subs : list Callback)
  : list string :=
  flat_map (fun cb => match snd (cb_body cb snapshot) with
                      | StateManager.Returns => []
                      | StateManager.Throws error =>
                          [String.append "Error in state subscriber: " error]
                      end) subs.

End Reentrant.

(* ===================================================================== *)
(** ** The backend client's mappers (class ApiService) *)
(* ===================================================================== *)

Module RawMessage.

(** An entry of [history]: [{id, typo, message, isaudio}]. *)
Record t := mk {
  id : Z;
  typo : Z;
  message : option string;
  isaudio : option bool
}.

End RawMessage.

Module RawConversation.

(** An entry of [numbers]: [{name, number, interview, history}]. *)
Record t := mk {
  name : option string;
  number : option string;
  interview : JSValue;
  history : option (list RawMessage.t)
}.

End RawConversation.

Module ApiService.

(** A blob: its bytes and its [type]. *)
Record Blob := mkBlob {
  blob_bytes : string;
  blob_type : string
}.

(** [new Blob([bytes], { type })] *)
Definition new_Blob (bytes type : string) : Blob :=
  mkBlob bytes (JS.blob_type_of type).

(** The blobs that have a URL. [URL.createObjectURL] registers the blob
    and returns its URL, here its index. *)
Definition BlobStore := list Blob.

Definition createObjectURL (store : BlobStore) (blob : Blob)
  : nat * BlobStore :=
  (List.length store, store ++ [blob]).

(** What [fetch] resolves a blob URL to. *)
Definition resolve (store : BlobStore) (url : nat) : option Blob :=
  nth_error store url.

Definition fallback_type : CONFIG.MessageType :=
  {| CONFIG.mt_from := "unknown";
     CONFIG.mt_label := "Unknown";
     CONFIG.mt_color := "in" |}.

Fixpoint drop (n : nat) (s : string) : string :=
  match n, s with
  | O, _ => s
  | _, EmptyString => EmptyString
  | S n', String _ r => drop n' r
  end.

(** The longest run of characters other than [;] and what follows it:
    the [[^;]+] of the data-URL pattern can match nothing else, as the
    pattern goes on with [;]. *)
Fixpoint span_mime (s : string) : string * string :=
  match s with
  | EmptyString => (EmptyString, EmptyString)
  | String c r =>
      if Ascii.eqb c ";"%char then (EmptyString, s)
      else let (m, rest) := span_mime r in (String c m, rest)
  end.

(** [base64Data.match(/^data:([^;]+);base64,/)]: the MIME type captured
    and the text after the match. *)
Definition match_data_url (base64Data : string) : option (string * string) :=
  if JS.startsWith base64Data "data:" then
    let (mime, rest) := span_mime (drop 5 base64Data) in
    if String.eqb mime "" then None
    else if JS.startsWith rest ";base64," then Some (mime, drop 8 rest)
    else None
  else None.

(** [base64Data.replace(/^data:[^;]+;base64,/, '')] *)
Definition strip_data_url (base64Data : string) : string :=
  match match_data_url base64Data with
  | Some (_, rest) => rest
  | None => base64Data
  end.

(** The characters after the longest prefix within the base64 alphabet. *)
Fixpoint after_b64_chars (s : string) : string :=
  match s with
  | EmptyString => EmptyString
  | String c r => if JS.is_b64_char c then after_b64_chars r else s
  end.

(** [/^[A-Za-z0-9+/]*={0,2}$/.test(s)]: [=] is outside the class, so the
    class consumes the whole prefix and at most two [=] may follow. *)
Definition base64_pattern (s : string) : bool :=
  let rest := after_b64_chars s in
  String.eqb rest "" || String.eqb rest "=" || String.eqb rest "==".

Definition xFF_xFB : string :=
  String (ascii_of_nat 255) (String (ascii_of_nat 251) EmptyString).

(** The magic-byte checks on the decoded start of the data. *)
Definition sniff (mimeType binaryStart : string) : string :=
  if JS.includes binaryStart "ftyp" then "audio/mp4"
  else if JS.includes binaryStart "ID3" || JS.startsWith binaryStart xFF_xFB
       then "audio/mpeg"
  else if JS.includes binaryStart "OggS" then "audio/ogg"
  else if JS.includes binaryStart "RIFF" && JS.includes binaryStart "WAVE"
       then "audio/wav"
  else mimeType.

(** [convertBase64ToAudioUrl(base64Data)]. [None] as argument is a value
    that is not a string; [None] as result is [null]. Every exception of
    the body is caught by the function itself. *)
Definition convertBase64ToAudioUrl (store : BlobStore)
  (base64Data : option string) : option nat * BlobStore :=
  match base64Data with
  | None => (None, store)
  | Some base64Data =>
      if String.eqb base64Data "" then (None, store)
      else
        let mimeType := "audio/mp4" in
        let mimeType :=
          if JS.startsWith base64Data "data:" then
            match match_data_url base64Data with
            | Some (mime, _) => mime
            | None => mimeType
            end
          else mimeType in
        let base64Audio := strip_data_url base64Data in
        if negb (base64_pattern base64Audio) then (None, store)
        else
          let mimeType :=
            match JS.atob (JS.take 20 base64Audio) with
            | Some binaryStart => sniff mimeType binaryStart
            | None => mimeType
            end in
          match JS.atob base64Audio with
          | None => (None, store)
          | Some binaryString =>
              let blob := new_Blob binaryString mimeType in
              let (blobUrl, store) := createObjectURL store blob in
              (Some blobUrl, store)
          end
  end.

Definition audio_placeholder : string := "ðŸŽµ Audio Message".

(** [mapMessageData(msg)]; [now] is the value of [new Date()]. *)
Definition mapMessageData (now : Z) (store : BlobStore) (msg : RawMessage.t)
  : Message.t * BlobStore :=
  let messageType :=
    match CONFIG.lookup_type CONFIG.MESSAGE_TYPES (RawMessage.typo msg) with
    | Some messageType => messageType
    | None => fallback_type
    end in
  let isAudio :=
    match RawMessage.isaudio msg with
    | Some b => b
    | None => false
    end in
  let has_payload :=
    match RawMessage.message msg with
    | Some m => negb (String.eqb m "")
    | None => false
    end in
  if isAudio && has_payload then
    let (url, store) :=
      convertBase64ToAudioUrl store (RawMessage.message msg) in
    ({| Message.id := RawMessage.id msg;
        Message.from := CONFIG.mt_from messageType;
        Message.type := RawMessage.typo msg;
        Message.label := CONFIG.mt_label messageType;
        Message.color := CONFIG.mt_color messageType;
        Message.text := Some audio_placeholder;
        Message.timestamp := now;
        Message.isAudio := isAudio;
        Message.audioData := RawMessage.message msg;
        Message.audioUrl :=
          match url with
          | Some u => Message.BlobUrl u
          | None => Message.NoUrl
          end |}, store)
  else
    ({| Message.id := RawMessage.id msg;
        Message.from := CONFIG.mt_from messageType;
        Message.type := RawMessage.typo msg;
        Message.label := CONFIG.mt_label messageType;
        Message.color := CONFIG.mt_color messageType;
        Message.text := RawMessage.message msg;
        Message.timestamp := now;
        Message.isAudio := isAudio;
        Message.audioData := None;
        Message.audioUrl := Message.NotSet |}, store).

(** [history.map(msg => this.mapMessageData(msg))], the registry threaded
    through the calls. *)
Fixpoint map_messages (now : Z) (store : BlobStore)
  (history : list RawMessage.t) : list Message.t * BlobStore :=
  match history with
  | [] => ([], store)
  | msg :: r =>
      let (m, store) := mapMessageData now store msg in
      let (ms, store) := map_messages now store r in
      (m :: ms, store)
  end.

(** [getInitials(name)]:
    [name?.split(' ').map(n => n[0]).join('').toUpperCase().slice(0, 2)];
    the optional chain gives [undefined] for an absent name. (The older
    copy of the class has [name.split] and throws there.) *)
Definition getInitials (name : option string) : option (list N) :=
  match name with
  | None => None
  | Some name =>
      Some (firstn 2
              (JS.toUpperCase
                 (JS.join_chars (map JS.char0 (JS.split " "%char name)))))
  end.

(** The decimal digits of a template literal's number. *)
Definition decimal (n : nat) : string :=
  NilEmpty.string_of_uint (Nat.to_uint n).

(** [mapConversationData(number, index)] *)
Definition mapConversationData (now : Z) (store : BlobStore)
  (number : RawConversation.t) (index : nat) : Conversation.t * BlobStore :=
  let history :=
    match RawConversation.history number with
    | Some h => h
    | None => []
    end in
  let (messages, store) := map_messages now store history in
  ({| Conversation.id := String.append "c" (decimal (index + 1));
      Conversation.name := RawConversation.name number;
      Conversation.initials := getInitials (RawConversation.name number);
      Conversation.number := RawConversation.number number;
      Conversation.src := "Whats";
      Conversation.tags := CONFIG.DEFAULT_TAGS;
      Conversation.unread := 0%Z;
      Conversation.needsAttention :=
        negb (truthy (RawConversation.interview number));
      Conversation.interview := RawConversation.interview number;
      Conversation.messages := messages |}, store).

(** [numbers.map((number, index) => this.mapConversationData(number, index))] *)
Fixpoint map_conversations (now : Z) (store : BlobStore)
  (numbers : list RawConversation.t) (index : nat)
  : list Conversation.t * BlobStore :=
  match numbers with
  | [] => ([], store)
  | number :: r =>
      let (c, store) := mapConversationData now store number index in
      let (cs, store) := map_conversations now store r (S index) in
      (c :: cs, store)
  end.

(** What [fetch] and [response.json()] gave: a rejection, or the parsed
    envelope [{status, numbers, message}]. *)
Inductive Response :=
| Rejected (message : string)
| Envelope (status : Z) (numbers : option (list RawConversation.t))
           (message : option string).

(** The [{success, data}] and [{success, error}] results. *)
Inductive ApiResult (A : Type) :=
| Success (data : A)
| Failure (error : string).

Arguments Success {A} data.
Arguments Failure {A} error.

(** [fetchConversations()], from the response on. *)
Definition fetchConversations (now : Z) (store : BlobStore)
  (response : Response) : ApiResult (list Conversation.t) * BlobStore :=
  match response with
  | Rejected message => (Failure message, store)
  | Envelope status numbers message =>
      if Z.eqb status 200 then
        match numbers with
        | Some numbers =>
            let (data, store) := map_conversations now store numbers 0 in
            (Success data, store)
        | None =>
            (Failure "Cannot read properties of undefined (reading 'map')",
             store)
        end
      else
        (Failure
           match message with
           | Some m => if String.eqb m "" then "Error loading conversations"
                       else m
           | None => "Error loading conversations"
           end, store)
  end.

End ApiService.

(* ===================================================================== *)
(** ** The push-channel client (class SocketService) *)
(* ===================================================================== *)

Module SocketService.

(** What reaches the client: the events of the sockets it has opened, and
    the reconnection timer firing, which runs [init()]; [io_error] is the
    message of the error [io(...)] threw, if it threw. *)
Inductive Event :=
| Connect
| Disconnect
| NewMessage
| AIMessage
| MessageSent
| ConversationUpdated
| UserTyping
| TimerFires (io_error : option string).

(** What the client does to the outside: the callbacks it calls and the
    timeouts it sets ([setTimeout(() => this.init(), delay)]). *)
Inductive Effect :=
| CallOnConnect
| CallOnDisconnect
| CallOnNewMessage
| CallOnAIMessage
| CallOnMessageSent
| CallOnConversationUpdated
| CallOnUserTyping
| CallOnError (message : string)
| SetTimeout (delay : Z).

Record t := mk {
  retryCount : nat;
  maxRetries : nat;
  sockets_opened : nat;
  pending_timers : nat
}.

(** [constructor(config, callbacks)] followed by the first [init()]. *)
Definition create : t :=
  {| retryCount := 0; maxRetries := 5;
     sockets_opened := 1; pending_timers := 0 |}.

(** [init()] *)
Definition init (io_error : option string) (s : t) : t * list Effect :=
  match io_error with
  | None =>
      ({| retryCount := retryCount s; maxRetries := maxRetries s;
          sockets_opened := S (sockets_opened s);
          pending_timers := pending_timers s |}, [])
  | Some error => (s, [CallOnError error])
  end.

(** [handleReconnection()] *)
Definition handleReconnection (s : t) : t * list Effect :=
  if (retryCount s <? maxRetries s)%nat then
    ({| retryCount := S (retryCount s); maxRetries := maxRetries s;
        sockets_opened := sockets_opened s;
        pending_timers := S (pending_timers s) |},
     [SetTimeout CONFIG.CONNECTION_RETRY_DELAY])
  else (s, [CallOnError "Max reconnection attempts reached"]).

(** The listeners [setupEventListeners()] registers, and the timer. *)
Definition step (s : t) (e : Event) : t * list Effect :=
  match e with
  | Connect =>
      ({| retryCount := 0; maxRetries := maxRetries s;
          sockets_opened := sockets_opened s;
          pending_timers := pending_timers s |}, [CallOnConnect])
  | Disconnect =>
      let (s', effects) := handleReconnection s in
      (s', CallOnDisconnect :: effects)
  | NewMessage => (s, [CallOnNewMessage])
  | AIMessage => (s, [CallOnAIMessage])
  | MessageSent => (s, [CallOnMessageSent])
  | ConversationUpdated => (s, [CallOnConversationUpdated])
  | UserTyping => (s, [CallOnUserTyping])
  | TimerFires io_error =>
      match pending_timers s with
      | O => (s, [])
      | S pending =>
          init io_error
            {| retryCount := retryCount s; maxRetries := maxRetries s;
               sockets_opened := sockets_opened s;
               pending_timers := pending |}
      end
  end.

(** A run: the events in order, the effects collected. *)
Fixpoint run (s : t) (events : list Event) : t * list Effect :=
  match events with
  | [] => (s, [])
  | e :: r =>
      let (s1, effects1) := step s e in
      let (s2, effects2) := run s1 r in
      (s2, effects1 ++ effects2)
  end.

Definition is_timeout (e : Effect) : bool :=
  match e with
  | SetTimeout _ => true
  | _ => false
  end.

Definition is_connect (e : Event) : bool :=
  match e with
  | Connect => true
  | _ => false
  end.

Definition is_disconnect (e : Event) : bool :=
  match e with
  | Disconnect => true
  | _ => false
  end.

(** The number of reconnection attempts a list of effects schedules. *)
Definition scheduled (effects : list Effect) : nat :=
  List.length (filter is_timeout effects).

(** A stretch of failed reconnections: [n] disconnects and no connect. *)
Definition failed_reconnects (n : nat) (events : list Event) : Prop :=
  existsb is_connect events = false /\
  List.length (filter is_disconnect events) = n.

End SocketService.

(* ===================================================================== *)
(** ** The view renderer (class UIManager) and the controller's listener *)
(* ===================================================================== *)

Module UIManager.

(** The toast element: [textContent], [style.display], [style.animation]. *)
Record Toast := mkToast {
  toast_text : string;
  toast_display : string;
  toast_animation : string
}.

(** A message element as [createMessageElement] builds it. [el_top] is
    the absolute position windowed rendering gives it, [el_delay] the
    delay of its entrance animation. *)
Record MessageElement := mkElement {
  el_message_id : Z;
  el_class : string;
  el_type : Z;
  el_audio_player : bool;
  el_text : string;
  el_label : string;
  el_top : option Z;
  el_delay : option Z
}.

(** The content of the thread area. *)
Inductive Content :=
| Blank
| EmptyConversation (conversation : Conversation.t)
| Thread (container_height : option Z) (elements : list MessageElement).

Record ThreadArea := mkArea {
  content : Content;
  scrollTop : Z;
  clientHeight : Z
}.

(** A [fetch] call: the URL, and the [number] and [message] of the body. *)
Record Request := mkRequest {
  req_url : string;
  req_number : option string;
  req_message : string
}.

(** What a pending [setTimeout] will do. *)
Inductive Timeout :=
| ToastSlideOut (delay : Z).

(** The page: the store, the elements the two routines touch, the pending
    timeouts, the custom events dispatched on the document and the
    requests issued. *)
Record t := mk {
  store : StateManager.t;
  messageInput : string;
  toast : option Toast;
  threadArea : option ThreadArea;
  typingIndicator : bool;
  timeouts : list Timeout;
  dispatched : list (string * string);
  requests : list Request
}.

Definition quote : string := String (ascii_of_nat 34) EmptyString.

(** ['Activate "Take control" to intervene.'] *)
Definition activate_control : string :=
  String.append "Activate "
    (String.append quote
       (String.append "Take control"
          (String.append quote " to intervene."))).

(** [showToast(message)] *)
Definition showToast (message : string) (ui : t) : t :=
  match toast ui with
  | None => ui
  | Some _ =>
      {| store := store ui;
         messageInput := messageInput ui;
         toast := Some (mkToast message "block" "slideInRight 0.3s ease");
         threadArea := threadArea ui;
         typingIndicator := typingIndicator ui;
         timeouts := timeouts ui ++ [ToastSlideOut CONFIG.TOAST_DURATION];
         dispatched := dispatched ui;
         requests := requests ui |}
  end.

(** The controller's listener for the [sendMessage] event, up to its
    first [await]: [sendMessage(message)] looks up the active conversation
    and calls [apiService.sendIntervention], which issues the POST. *)
Definition app_sendMessage (message : string) (ui : t) : t :=
  match StateManager.getActiveConversation (store ui) with
  | None => ui
  | Some conversation =>
      {| store := store ui;
         messageInput := messageInput ui;
         toast := toast ui;
         threadArea := threadArea ui;
         typingIndicator := typingIndicator ui;
         timeouts := timeouts ui;
         dispatched := dispatched ui;
         requests :=
           requests ui
           ++ [mkRequest
                 (String.append CONFIG.API_BASE CONFIG.SEND_INTERVENTION)
                 (Conversation.number conversation) message] |}
  end.

(** [emit(eventName, data)]: [document.dispatchEvent], which runs the
    listeners before it returns. *)
Definition emit (eventName data : string) (ui : t) : t :=
  let ui :=
    {| store := store ui;
       messageInput := messageInput ui;
       toast := toast ui;
       threadArea := threadArea ui;
       typingIndicator := typingIndicator ui;
       timeouts := timeouts ui;
       dispatched := dispatched ui ++ [(eventName, data)];
       requests := requests ui |} in
  if String.eqb eventName "sendMessage" then app_sendMessage data ui
  else ui.

Definition set_messageInput (value : string) (ui : t) : t :=
  {| store := store ui;
     messageInput := value;
     toast := toast ui;
     threadArea := threadArea ui;
     typingIndicator := typingIndicator ui;
     timeouts := timeouts ui;
     dispatched := dispatched ui;
     requests := requests ui |}.

(** [hideTypingIndicator()] *)
Definition hideTypingIndicator (ui : t) : t :=
  {| store := store ui;
     messageInput := messageInput ui;
     toast := toast ui;
     threadArea := threadArea ui;
     typingIndicator := false;
     timeouts := timeouts ui;
     dispatched := dispatched ui;
     requests := requests ui |}.

(** [handleSendMessage()] *)
Definition handleSendMessage (ui : t) : t :=
  let message := JS.trim (messageInput ui) in
  if String.eqb message "" then ui
  else if negb (StateManager.isManualMode
                  (StateManager.getState (store ui))) then
    showToast activate_control ui
  else
    let ui := emit "sendMessage" message ui in
    let ui := set_messageInput "" ui in
    hideTypingIndicator ui.

(** [text.replace(/</g, '&lt;').replace(/\n/g, '<br>')] *)
Fixpoint escape (s : string) : string :=
  match s with
  | EmptyString => EmptyString
  | String c r =>
      if Ascii.eqb c "<"%char then String.append "&lt;" (escape r)
      else if Ascii.eqb c (ascii_of_nat 10) then String.append "<br>" (escape r)
      else String c (escape r)
  end.

(** [createMessageElement(message)] *)
Definition createMessageElement (message : Message.t) : MessageElement :=
  let has_url :=
    match Message.audioUrl message with
    | Message.BlobUrl _ => true
    | _ => false
    end in
  {| el_message_id := Message.id message;
     el_class := String.append "msg " (Message.color message);
     el_type := Message.type message;
     el_audio_player := Message.isAudio message && has_url;
     el_text :=
       match Message.text message with
       | Some text => escape text
       | None => ""
       end;
     el_label := Message.label message;
     el_top := None;
     el_delay := None |}.

(** Insertion of a message before the first one whose id is not smaller:
    the comparator is [(a, b) => a.id - b.id]. *)
Fixpoint insert_by_id (m : Message.t) (sorted : list Message.t)
  : list Message.t :=
  match sorted with
  | [] => [m]
  | x :: r =>
      if (Message.id m <=? Message.id x)%Z then m :: x :: r
      else x :: insert_by_id m r
  end.

(** [[...messages].sort((a, b) => a.id - b.id)]. The sort of the language
    is stable, so its result is the one of a stable insertion sort. *)
Fixpoint sort_by_id (messages : list Message.t) : list Message.t :=
  match messages with
  | [] => []
  | m :: r => insert_by_id m (sort_by_id r)
  end.

Definition set_content (area : ThreadArea) (c : Content) : ThreadArea :=
  {| content := c; scrollTop := scrollTop area;
     clientHeight := clientHeight area |}.

Definition set_threadArea (ui : t) (area : ThreadArea) : t :=
  {| store := store ui;
     messageInput := messageInput ui;
     toast := toast ui;
     threadArea := Some area;
     typingIndicator := typingIndicator ui;
     timeouts := timeouts ui;
     dispatched := dispatched ui;
     requests := requests ui |}.

(** [renderConversationThread()], the earlier variant: every message, in
    the order of the sort. The scroll position the code sets afterwards
    ([scrollTop = scrollHeight]) depends on the layout and is left out. *)
Definition renderConversationThread_v1 (ui : t) : t :=
  match threadArea ui with
  | None => ui
  | Some area =>
      match StateManager.getActiveConversation (store ui) with
      | None => ui
      | Some conversation =>
          match Conversation.messages conversation with
          | [] => set_threadArea ui
                    (set_content area (EmptyConversation conversation))
          | _ =>
              let sortedMessages :=
                sort_by_id (Conversation.messages conversation) in
              set_threadArea ui
                (set_content area
                   (Thread None (map createMessageElement sortedMessages)))
          end
      end
  end.

Definition itemHeight : Z := 60.

(** [Math.ceil(a / b)] for a positive [b]. *)
Definition ceil_div (a b : Z) : Z := (- ((- a) / b))%Z.

(** The loop of [updateVirtualScrollView]: the messages at the indices
    [max(0, startIndex - 5) .. endIndex - 1], each placed at
    [index * itemHeight]. *)
Fixpoint window_elements (index : nat) (count : nat)
  (messages : list Message.t) : list MessageElement :=
  match count, messages with
  | O, _ => []
  | _, [] => []
  | S count', m :: r =>
      let el := createMessageElement m in
      {| el_message_id := el_message_id el; el_class := el_class el;
         el_type := el_type el; el_audio_player := el_audio_player el;
         el_text := el_text el; el_label := el_label el;
         el_top := Some (Z.of_nat index * itemHeight)%Z;
         el_delay := None |}
      :: window_elements (S index) count' r
  end.

(** [updateVirtualScrollView(viewport, messages)] *)
Definition updateVirtualScrollView (area : ThreadArea)
  (messages : list Message.t) : list MessageElement :=
  let startIndex := (scrollTop area / itemHeight)%Z in
  let endIndex :=
    Z.min (startIndex + ceil_div (clientHeight area) itemHeight + 5)
          (Z.of_nat (List.length messages)) in
  let first := Z.max 0 (startIndex - 5) in
  window_elements (Z.to_nat first) (Z.to_nat (endIndex - first))
                  (skipn (Z.to_nat first) messages).

(** The entrance animation of a thread of moderate size:
    [Math.min(index * 30, 300)]. *)
Fixpoint staggered (animate : bool) (index : nat)
  (messages : list Message.t) : list MessageElement :=
  match messages with
  | [] => []
  | m :: r =>
      let el := createMessageElement m in
      {| el_message_id := el_message_id el; el_class := el_class el;
         el_type := el_type el; el_audio_player := el_audio_player el;
         el_text := el_text el; el_label := el_label el;
         el_top := None;
         el_delay :=
           if animate then Some (Z.min (Z.of_nat index * 30) 300) else None |}
      :: staggered animate (S index) r
  end.

(** [renderConversationThread()]: windowed above 100 messages. The
    scrolling to the bottom that the code requests for the next animation
    frame, and the scroll listener of the windowed thread, which runs
    [updateVirtualScrollView] again, are left out. *)
Definition renderConversationThread (ui : t) : t :=
  match threadArea ui with
  | None => ui
  | Some area =>
      match StateManager.getActiveConversation (store ui) with
      | None => ui
      | Some conversation =>
          let messages := Conversation.messages conversation in
          match messages with
          | [] => set_threadArea ui
                    (set_content area (EmptyConversation conversation))
          | _ =>
              let sortedMessages := sort_by_id messages in
              let count := List.length sortedMessages in
              if (100 <? count)%nat then
                set_threadArea ui
                  (set_content area
                     (Thread (Some (Z.of_nat count * itemHeight)%Z)
                        (updateVirtualScrollView area sortedMessages)))
              else
                let animate :=
                  (10 <? List.length messages)%nat
                  && (List.length messages <? 50)%nat in
                set_threadArea ui
                  (set_content area
                     (Thread None (staggered animate 0 sortedMessages)))
          end
      end
  end.

(** The message ids the thread area shows, in document order. *)
Definition displayed_ids (ui : t) : list Z :=
  match threadArea ui with
  | Some area =>
      match content area with
      | Thread _ elements => map el_message_id elements
      | _ => []
      end
  | None => []
  end.

End UIManager.

(* ===================================================================== *)
(** ** The notions of the specification *)
(* ===================================================================== *)

(** These definitions follow the words of the specification, not the
    code; the properties below compare the code with them. *)
Module Spec.

(** "Every subscriber is invoked exactly once, in subscription order,
    with the snapshot": what one round of notification adds to the trace. *)
Definition round (snapshot : StateManager.State)
  (subs : list StateManager.Callback) : list (nat * StateManager.State) :=
  map (fun cb => (StateManager.cb_id cb, snapshot)) subs.

(** "For any sequence of [setState] calls ... once per call": the rounds
    of a sequence of calls, each with the state merged so far. *)
Fixpoint rounds (s : StateManager.State) (calls : list StateManager.Updates)
  (subs : list StateManager.Callback) : list (nat * StateManager.State) :=
  match calls with
  | [] => []
  | updates :: r =>
      round (StateManager.merge s updates) subs
      ++ rounds (StateManager.merge s updates) r subs
  end.

(** "Errors are caught and logged per-subscriber": the [console.error]
    lines of a round, one for each subscriber that throws, in order. *)
Definition round_errors (snapshot : StateManager.State)
  (subs : list StateManager.Callback) : list string :=
  flat_map (fun cb => match StateManager.cb_body cb snapshot with
                      | StateManager.Returns => []
                      | StateManager.Throws error =>
                          [String.append "Error in state subscriber: " error]
                      end) subs.

(** "Case-insensitively": two characters are the same letter when they
    are equal or one is the capital of the other. Of the code units below
    256 the capitals are A-Z, 192-214 and 216-222, and the small letter of
    a capital is 32 above it. *)
Definition capital (c : ascii) : bool :=
  JS.in_range 65 90 c || JS.in_range 192 214 c || JS.in_range 216 222 c.

Definition same_letter (a b : ascii) : bool :=
  Ascii.eqb a b
  || (capital a && (JS.code b =? JS.code a + 32)%nat)
  || (capital b && (JS.code a =? JS.code b + 32)%nat).

(** [query] stands at the beginning of [field], letter for letter. *)
Fixpoint starts_ci (field query : string) : bool :=
  match query, field with
  | EmptyString, _ => true
  | String _ _, EmptyString => false
  | String q query', String f field' =>
      same_letter f q && starts_ci field' query'
  end.

(** "[field] case-insensitively contains [query]": [query] stands
    somewhere in [field], letter for letter. *)
Fixpoint contains_ci (field query : string) : bool :=
  starts_ci field query ||
  match field with
  | EmptyString => false
  | String _ r => contains_ci r query
  end.

Definition opt_contains_ci (field : option string) (query : string) : bool :=
  match field with
  | Some f => contains_ci f query
  | None => false
  end.

(** "name, any tag, or phone number case-insensitively contains the
    search query". *)
Definition search_hit (query : string) (c : Conversation.t) : bool :=
  opt_contains_ci (Conversation.name c) query
  || existsb (fun tag => contains_ci tag query) (Conversation.tags c)
  || opt_contains_ci (Conversation.number c) query.

(** The same with the phone number compared as it is stored: it has to
    contain the lower-cased query. *)
Definition search_hit_number_verbatim (query : string) (c : Conversation.t)
  : bool :=
  opt_contains_ci (Conversation.name c) query
  || existsb (fun tag => contains_ci tag query) (Conversation.tags c)
  || match Conversation.number c with
     | Some n => JS.includes n (JS.toLowerCase query)
     | None => false
     end.

(** The number of entries of a conversation list with a given id. *)
Definition entries_with_id (id : string) (cs : list Conversation.t) : nat :=
  List.length (filter (fun c => String.eqb (Conversation.id c) id) cs).

(** "The first character of each token": a character starts a token when
    it is not a separator and stands at the beginning or after a
    separator. *)
Fixpoint token_starts (separator : ascii -> bool) (at_start : bool)
  (s : string) : string :=
  match s with
  | EmptyString => EmptyString
  | String c r =>
      if separator c then token_starts separator true r
      else if at_start then String c (token_starts separator false r)
      else token_starts separator false r
  end.

(** "The first character of each whitespace-separated token of the name,
    uppercased and truncated to 2 characters". *)
Definition initials (name : string) : list N :=
  firstn 2 (JS.toUpperCase (token_starts JS.is_space true name)).

(** The same with tokens separated by the space character alone. *)
Definition initials_of_space_separated (name : string) : list N :=
  firstn 2
    (JS.toUpperCase (token_starts (Ascii.eqb " "%char) true name)).

(** A lower-case letter among the code units: a-z, the micro sign, sharp
    s, and 224-255 without the division sign. *)
Definition small_letter (u : N) : bool :=
  ((97 <=? u) && (u <=? 122) || (u =? 181) || (u =? 223)
   || (224 <=? u) && (u <=? 255) && negb (u =? 247))%N.

(** The only white space of [s] is the space character. *)
Fixpoint only_spaces (s : string) : bool :=
  match s with
  | EmptyString => true
  | String c r =>
      (negb (JS.is_space c) || Ascii.eqb c " "%char) && only_spaces r
  end.

Fixpoint all_b64 (s : string) : bool :=
  match s with
  | EmptyString => true
  | String c r => JS.is_b64_char c && all_b64 r
  end.

(** "Well-formed base64": characters of the alphabet, then the padding
    their number calls for, which may be left out. A single character
    beyond whole groups of four encodes nothing. *)
Definition well_formed_base64 (s : string) : Prop :=
  exists body pad : string,
    s = String.append body pad /\
    all_b64 body = true /\
    ((pad = "" /\ (String.length body mod 4 <> 1)%nat) \/
     (pad = "=" /\ (String.length body mod 4 = 3)%nat) \/
     (pad = "==" /\ (String.length body mod 4 = 2)%nat)).

Definition no_semicolon (type : string) : bool :=
  JS.all_chars (fun c => negb (Ascii.eqb c ";"%char)) type.

(** A data URL of the plain form: [data:], a type that is not empty and
    holds no [;], then [;base64,] and the data. *)
Definition plain_data_url (payload type data : string) : Prop :=
  type <> "" /\ no_semicolon type = true /\
  payload
  = String.append "data:"
      (String.append type (String.append ";base64," data)).




(** "Ascending order of the message ids". *)
Definition ascending (ids : list Z) : Prop := Sorted Z.le ids.

End Spec.

(* ===================================================================== *)
(** ** Concrete stores, records and pages used by the examples *)
(* ===================================================================== *)

Module Examples.

Definition conv (id : string) (name : option string)
  (number : option string) (unread : Z) (attention : bool)
  (messages : list Message.t) : Conversation.t :=
  {| Conversation.id := id; Conversation.name := name;
     Conversation.initials := ApiService.getInitials name;
     Conversation.number := number; Conversation.src := "Whats";
     Conversation.tags := CONFIG.DEFAULT_TAGS; Conversation.unread := unread;
     Conversation.needsAttention := attention;
     Conversation.interview := Null;
     Conversation.messages := messages |}.

Definition msg (id : Z) (text : string) : Message.t :=
  {| Message.id := id; Message.from := "them"; Message.type := 2%Z;
     Message.label := "Client"; Message.color := "in";
     Message.text := Some text; Message.timestamp := 0%Z;
     Message.isAudio := false; Message.audioData := None;
     Message.audioUrl := Message.NotSet |}.

Definition quiet : StateManager.Callback :=
  StateManager.mkCallback 1 (fun _ => StateManager.Returns).

Definition faulty : StateManager.Callback :=
  StateManager.mkCallback 2 (fun _ => StateManager.Throws "boom").

Definition late : StateManager.Callback :=
  StateManager.mkCallback 3 (fun _ => StateManager.Returns).

(** Subscribers that call the store while they are notified: [once]
    unsubscribes itself, [relay] sets the loading flag when it sees manual
    mode without it; [onlooker] is an observer, and so is [thrower], which
    throws. *)
Definition once : Reentrant.Callback :=
  Reentrant.mkCallback 1
    (fun _ => ([Reentrant.Unsubscribe 1], StateManager.Returns)).






Definition store_of (cs : list Conversation.t) (active : option string)
  (query filter : string) : StateManager.t :=
  {| StateManager.state :=
       {| StateManager.conversations := cs;
          StateManager.activeConversationId := active;
          StateManager.isManualMode := false;
          StateManager.isLoading := false;
          StateManager.searchQuery := query;
          StateManager.selectedFilter := filter |};
     StateManager.subscribers := [quiet; faulty; late];
     StateManager.invocations := [];
     StateManager.console_error := [] |}.

Definition ana : Conversation.t :=
  conv "c1" (Some "Ana Ruiz") (Some "+5215550001") 0 true [].

Definition bob : Conversation.t :=
  conv "c2" (Some "Bob") (Some "+5215550002") 2 false
       [msg 5 "five"; msg 1 "one"; msg 3 "three"].

(** A store with two conversations, and one that holds the same entry
    twice. *)
Definition two_conversations : StateManager.t :=
  store_of [ana; bob] None "" "all".

Definition duplicated : StateManager.t :=
  store_of [ana; ana] None "" "all".

(** A conversation whose number holds capital letters, one without a
    name, and stores that search for them. *)
Definition group : Conversation.t :=
  conv "c3" (Some "Ana Ruiz") (Some "5215550003@G.US") 0 false [].

Definition nameless : Conversation.t :=
  conv "c4" None (Some "+5215550004") 0 true [].

Definition searching_number : StateManager.t :=
  store_of [group] None "G.US" "all".

Definition searching_nameless : StateManager.t :=
  store_of [nameless] None "lead" "all".

Definition searching_unread : StateManager.t :=
  store_of [ana; bob] None "5215550" "unread".

Definition page_of (st : StateManager.t) (input : string) : UIManager.t :=
  {| UIManager.store := st;
     UIManager.messageInput := input;
     UIManager.toast := Some (UIManager.mkToast "" "none" "");
     UIManager.threadArea := Some (UIManager.mkArea UIManager.Blank 0 600);
     UIManager.typingIndicator := false;
     UIManager.timeouts := [];
     UIManager.dispatched := [];
     UIManager.requests := [] |}.

(** The page with the second conversation active, and a page showing a
    thread of 150 messages stored from the highest id down, scrolled to
    the top of an area 600 pixels high. *)
Definition viewing_bob : UIManager.t :=
  page_of (store_of [ana; bob] (Some "c2") "" "all") "".

Fixpoint countdown (n : nat) : list Message.t :=
  match n with
  | O => []
  | S n' => msg (Z.of_nat n) "text" :: countdown n'
  end.

Definition viewing_long_thread : UIManager.t :=
  page_of (store_of [conv "c5" (Some "Eva") None 0 false (countdown 150)]
                    (Some "c5") "" "all") "".

(** The envelope of the scenario, and entries with a TAB in the name and
    with the interview field [false]. *)
Definition ana_raw : RawConversation.t :=
  RawConversation.mk (Some "Ana Ruiz") (Some "+521...") Null (Some []).

Definition scenario : ApiService.Response :=
  ApiService.Envelope 200 (Some [ana_raw]) None.

Definition tabbed_name : string :=
  String.append "Ana" (String (ascii_of_nat 9) "Ruiz").

Definition tabbed_raw : RawConversation.t :=
  RawConversation.mk (Some tabbed_name) (Some "+521...") Null (Some []).

Definition not_interviewed_raw : RawConversation.t :=
  RawConversation.mk (Some "Ana Ruiz") (Some "+521...") (JBool false)
                     (Some []).

(** Raw records: a text message with an undefined wire code, and audio
    messages with a payload that decodes ("OggS") and one that does not. *)
Definition raw_unknown : RawMessage.t :=
  RawMessage.mk 41 9 (Some "hola") None.

Definition raw_audio : RawMessage.t :=
  RawMessage.mk 42 2 (Some "data:audio/ogg;base64,T2dnUw==") (Some true).



End Examples.

(* ===================================================================== *)
(** ** More of the code *)
(* ===================================================================== *)

(** What can be said of a blob registry and the messages that refer to
    it. *)
Module Registry.

(** The handle of the message, if it has one, resolves in the registry. *)
Definition handle_resolves (store : ApiService.BlobStore) (m : Message.t)
  : Prop :=
  match Message.audioUrl m with
  | Message.BlobUrl url =>
      exists blob, ApiService.resolve store url = Some blob
  | _ => True
  end.

(** [number.history || []] *)
Definition history_of (number : RawConversation.t) : list RawMessage.t :=
  match RawConversation.history number with
  | Some h => h
  | None => []
  end.

(** The records of a history that carry audio: flagged, with a payload. *)
Definition audio_records (history : list RawMessage.t) : nat :=
  List.length
    (filter (fun msg =>
               match RawMessage.isaudio msg, RawMessage.message msg with
               | Some true, Some payload => negb (String.eqb payload "")
               | _, _ => false
               end) history).

End Registry.

(** Counts over the events and effects of a run of the push-channel
    client. *)
Module Reconnection.

Definition disconnects (events : list SocketService.Event) : nat :=
  List.length (filter SocketService.is_disconnect events).

Definition connects (events : list SocketService.Event) : nat :=
  List.length (filter SocketService.is_connect events).

Definition is_terminal_error (e : SocketService.Effect) : bool :=
  match e with
  | SocketService.CallOnError message =>
      String.eqb message "Max reconnection attempts reached"
  | _ => false
  end.

(** The calls of the error callback with the terminal error. *)
Definition terminal_errors (effects : list SocketService.Effect) : nat :=
  List.length (filter is_terminal_error effects).

End Reconnection.

(** Counting characters in a text. *)
Module Text.

Fixpoint count (c : ascii) (s : string) : nat :=
  match s with
  | EmptyString => 0
  | String d r => (if Ascii.eqb d c then 1 else 0) + count c r
  end.

Definition line_feed : ascii := ascii_of_nat 10.

End Text.


(** The conversation-info endpoint and its mapper (part_001, 45-71 and
    174-190). *)
Module ConversationInfo.

(** What [fetch] and [response.json()] gave: a rejection, or the parsed
    body [{status, number, message}]. *)
Inductive Response :=
| Rejected (message : string)
| Body (status : Z) (number : option RawConversation.t)
       (message : option string).

(** [fetchConversationInfo(phoneNumber)], from the response on. The data
    of a success is the whole body; its [number] property is the only one
    read afterwards. *)
Definition fetchConversationInfo (response : Response)
  : ApiService.ApiResult (option RawConversation.t) :=
  match response with
  | Rejected message => ApiService.Failure message
  | Body status number message =>
      if Z.eqb status 200 then ApiService.Success number
      else
        ApiService.Failure
          match message with
          | Some m => if String.eqb m "" then "Error loading conversation info"
                      else m
          | None => "Error loading conversation info"
          end
  end.

(** [mapConversationData2(number, index)]: the record is read through
    [number.number], and the id is [c<index>], not [c<index + 1>]. A body
    without [number] makes [number.number.name] throw. *)
Definition mapConversationData2 (now : Z) (store : ApiService.BlobStore)
  (number : option RawConversation.t) (index : nat)
  : Result (Conversation.t * ApiService.BlobStore) :=
  match number with
  | None => Throw "Cannot read properties of undefined (reading 'name')"
  | Some number =>
      let history :=
        match RawConversation.history number with
        | Some h => h
        | None => []
        end in
      let (messages, store) := ApiService.map_messages now store history in
      Ok ({| Conversation.id := String.append "c" (ApiService.decimal index);
             Conversation.name := RawConversation.name number;
             Conversation.initials :=
               ApiService.getInitials (RawConversation.name number);
             Conversation.number := RawConversation.number number;
             Conversation.src := "Whats";
             Conversation.tags := CONFIG.DEFAULT_TAGS;
             Conversation.unread := 0%Z;
             Conversation.needsAttention :=
               negb (truthy (RawConversation.interview number));
             Conversation.interview := RawConversation.interview number;
             Conversation.messages := messages |}, store)
  end.

End ConversationInfo.

(** The controller (ui.js, 1829-2110): the store, the blob registry of
    its API service, and the calls it makes on the view, in order. *)
Module WhatsAppAdminApp.

(** [ShowToastNewMessage name] is the call
    [showToast(`New message from ${conversation.name}`)]: for a name that
    is a string the text ends with it; a name that is [undefined] or
    [null] prints as that word, and since the records hold the two as one
    value, the call is kept with the value of the name, not with a
    text. *)
Inductive ViewCall :=
| ShowToast (message : string)
| ShowToastNewMessage (name : option string)
| AddMessageWithAnimation (message : Message.t).

Record t := mk {
  stateManager : StateManager.t;
  blobs : ApiService.BlobStore;
  calls : list ViewCall
}.

(** The payload of a [new_message] or [ai_message] event:
    [{number, message, typo}], with a numeric [typo]. *)
Record MessageEvent := mkEvent {
  ev_number : option string;
  ev_message : option string;
  ev_typo : Z
}.

(** [!activeConversationId] *)
Definition nothing_selected (active : option string) : bool :=
  match active with
  | Some id => String.eqb id ""
  | None => true
  end.

(** [conversation.id === activeConversationId] *)
Definition is_active (id : string) (active : option string) : bool :=
  match active with
  | Some a => String.eqb id a
  | None => false
  end.

(** [loadConversations()] up to its [await]. *)
Definition loadConversations_start (app : t) : t :=
  {| stateManager := StateManager.setLoading true (stateManager app);
     blobs := blobs app;
     calls := calls app |}.

(** [loadConversations()] from the response on. No call of the [try]
    block throws ([fetchConversations] catches its own errors and
    [notify] those of the subscribers), so the [catch] block is not
    reached. *)
Definition loadConversations_resume (now : Z)
  (response : ApiService.Response) (app : t) : t :=
  let (result, store) :=
    ApiService.fetchConversations now (blobs app) response in
  let app :=
    match result with
    | ApiService.Success data =>
        let sm := StateManager.setConversations data (stateManager app) in
        let sm :=
          match data with
          | first :: _ =>
              if nothing_selected
                   (StateManager.activeConversationId
                      (StateManager.getState sm))
              then StateManager.setActiveConversation
                     (Conversation.id first) sm
              else sm
          | [] => sm
          end in
        {| stateManager := sm; blobs := store; calls := calls app |}
    | ApiService.Failure error =>
        {| stateManager := stateManager app; blobs := store;
           calls := calls app ++ [ShowToast error] |}
    end in
  {| stateManager := StateManager.setLoading false (stateManager app);
     blobs := blobs app;
     calls := calls app |}.

(** [loadConversations()] when nothing else runs while it waits. *)
Definition loadConversations (now : Z) (response : ApiService.Response)
  (app : t) : t :=
  loadConversations_resume now response (loadConversations_start app).

(** [handleNewMessage(data)] from the response of
    [fetchConversationInfo] on; nothing of it runs before. [stamp] is
    what [Date.now()] gives for the id of the message, [now] the time of
    the mappers. A throw of [mapConversationData2] rejects the promise
    before the store is touched. *)
Definition handleNewMessage (stamp now : Z) (data : MessageEvent)
  (response : ConversationInfo.Response) (app : t) : Result t :=
  match ConversationInfo.fetchConversationInfo response with
  | ApiService.Failure _ =>
      Ok {| stateManager := stateManager app;
            blobs := blobs app;
            calls := calls app ++ [ShowToast "Failed to load conversation info"]
         |}
  | ApiService.Success info =>
      match ConversationInfo.mapConversationData2 now (blobs app) info
              (List.length
                 (StateManager.conversations
                    (StateManager.getState (stateManager app)))) with
      | Throw e => Throw e
      | Ok (conversation, store) =>
          let sm :=
            StateManager.updateConversation conversation (stateManager app) in
          let (messageData, store) :=
            ApiService.mapMessageData now store
              (RawMessage.mk stamp (ev_typo data) (ev_message data) None) in
          let sm :=
            StateManager.addMessage (Conversation.id conversation)
                                    messageData sm in
          let toast :=
            ShowToastNewMessage (Conversation.name conversation) in
          Ok {| stateManager := sm;
                blobs := store;
                calls :=
                  if is_active (Conversation.id conversation)
                       (StateManager.activeConversationId
                          (StateManager.getState sm))
                  then calls app ++ [toast; AddMessageWithAnimation messageData]
                  else calls app ++ [toast] |}
      end
  end.

(** A sequence of message events, each handled from its response on, in
    the order the responses arrive. *)
Fixpoint handle_all
  (arrivals : list (Z * MessageEvent * ConversationInfo.Response))
  (now : Z) (app : t) : Result t :=
  match arrivals with
  | [] => Ok app
  | (stamp, data, response) :: r =>
      match handleNewMessage stamp now data response app with
      | Ok app => handle_all r now app
      | Throw e => Throw e
      end
  end.

(** The ids [c<first>], [c<first + 1>], ... of [count] conversations. *)
Definition numbered (first count : nat) : list string :=
  map (fun i => String.append "c" (ApiService.decimal i)) (seq first count).

(** The [number] of the body of a response, if it is a success. *)
Definition sender (response : ConversationInfo.Response) : option string :=
  match response with
  | ConversationInfo.Body _ (Some number) _ => RawConversation.number number
  | _ => None
  end.

Definition is_success (response : ConversationInfo.Response) : bool :=
  match response with
  | ConversationInfo.Body status (Some _) _ => Z.eqb status 200
  | _ => false
  end.

End WhatsAppAdminApp.


(** A message of a contact the list does not have. *)
Module Arrival.

Definition carla : RawConversation.t :=
  RawConversation.mk (Some "Carla Diaz") (Some "+5215550009") Null None.

Definition hola : WhatsAppAdminApp.MessageEvent :=
  WhatsAppAdminApp.mkEvent (Some "+5215550009") (Some "hola") 2.

Definition info : ConversationInfo.Response :=
  ConversationInfo.Body 200 (Some carla) None.

Definition loaded : WhatsAppAdminApp.t :=
  WhatsAppAdminApp.mk Examples.two_conversations [] [].

Definition fresh : WhatsAppAdminApp.t :=
  WhatsAppAdminApp.mk StateManager.create [] [].

End Arrival.


(** Appending to the thread that is shown (ui.js, 1003-1032). *)
Module Animation.

(** [addMessageWithAnimation(message)]. The thread area holds a
    [.message-container] exactly when it shows a thread; the new element
    goes to the end of that container, after whatever it holds. The
    element is made transparent and brought in at the next animation
    frame; that, and the scrolling to the bottom requested for later, are
    left out. *)
Definition addMessageWithAnimation (message : Message.t)
  (ui : UIManager.t) : UIManager.t :=
  match UIManager.threadArea ui with
  | None => ui
  | Some area =>
      match UIManager.content area with
      | UIManager.Thread height elements =>
          UIManager.set_threadArea ui
            (UIManager.set_content area
               (UIManager.Thread height
                  (elements ++ [UIManager.createMessageElement message])))
      | UIManager.Blank | UIManager.EmptyConversation _ =>
          UIManager.renderConversationThread ui
      end
  end.

End Animation.

(* ===================================================================== *)
(** * Properties *)
(* ===================================================================== *)

(** ** The state store *)

Section StoreFacts.

Import StateManager.
Import Spec.

Lemma invoke_keeps (st : t) (cb : Callback) :
  state (invoke st cb) = state st /\
  subscribers (invoke st cb) = subscribers st.
Proof. split; reflexivity. Qed.

Lemma forEach_invoke (subs : list Callback) :
  forall st : t,
    let st' := fold_left invoke subs st in
    state st' = state st /\
    subscribers st' = subscribers st /\
    invocations st' = invocations st ++ round (state st) subs /\
    console_error st' = console_error st ++ round_errors (state st) subs.
Proof.
  induction subs as [|cb subs IH]; intros st; cbn [fold_left].
  - cbn. now rewrite !app_nil_r.
  - destruct (IH (invoke st cb)) as (Hs & Hsub & Hinv & Herr).
    cbn zeta. rewrite Hs, Hsub, Hinv, Herr. cbn [invoke state subscribers
      invocations console_error round round_errors map flat_map].
    repeat split.
    + now rewrite <- app_assoc.
    + destruct (cb_body cb (state st)); cbn; rewrite <- ?app_assoc; reflexivity.
Qed.

Lemma notify_spec (st : t) :
  state (notify st) = state st /\
  subscribers (notify st) = subscribers st /\
  invocations (notify st) = invocations st ++ round (state st) (subscribers st) /\
  console_error (notify st)
  = console_error st ++ round_errors (state st) (subscribers st).
Proof. unfold notify. apply forEach_invoke. Qed.

Lemma setState_spec (updates : Updates) (st : t) :
  state (setState updates st) = merge (state st) updates /\
  subscribers (setState updates st) = subscribers st /\
  invocations (setState updates st)
  = invocations st ++ round (merge (state st) updates) (subscribers st) /\
  console_error (setState updates st)
  = console_error st ++ round_errors (merge (state st) updates) (subscribers st).
Proof.
  unfold setState.
  destruct (notify_spec (with_state st (merge (state st) updates)))
    as (H1 & H2 & H3 & H4).
  cbn [with_state state subscribers invocations console_error] in *.
  auto.
Qed.

(** A sequence of calls gives one round per call. *)
Lemma setState_sequence (calls : list Updates) :
  forall st : t,
    let st' := fold_left (fun acc updates => setState updates acc) calls st in
    subscribers st' = subscribers st /\
    invocations st'
    = invocations st ++ rounds (state st) calls (subscribers st).
Proof.
  induction calls as [|updates r IH]; intros st; cbn [fold_left rounds].
  - cbn. now rewrite app_nil_r.
  - destruct (setState_spec updates st) as (Hs & Hsub & Hinv & _).
    destruct (IH (setState updates st)) as [IHsub IHinv].
    cbn zeta. rewrite IHsub, IHinv, Hs, Hsub, Hinv.
    now rewrite <- app_assoc.
Qed.

End StoreFacts.

Section ListFacts.

Context {A : Type} (p : A -> bool).

Lemma findIndex_None (xs : list A) :
  JS.findIndex p xs = None <-> (forall x, In x xs -> p x = false).
Proof.
  induction xs as [|x xs IH]; cbn.
  - split; [intros _ x [] | reflexivity].
  - destruct (p x) eqn:Hx.
    + split; [discriminate|]. intros H. specialize (H x (or_introl eq_refl)).
      congruence.
    + destruct (JS.findIndex p xs) eqn:Hf; cbn.
      * split; [discriminate|]. intros H.
        assert (Hn : Some n = None); [|discriminate].
        apply (proj2 IH). intros y Hy. apply H. now right.
      * split; [|reflexivity]. intros _ y [<-|Hy]; [assumption|].
        now apply (proj1 IH).
Qed.

(** The index found is the one of the first element that passes the test. *)
Lemma findIndex_first (pre post : list A) (x : A) :
  (forall y, In y pre -> p y = false) -> p x = true ->
  JS.findIndex p (pre ++ x :: post) = Some (List.length pre).
Proof.
  intros Hpre Hx. induction pre as [|y pre IH]; cbn.
  - now rewrite Hx.
  - rewrite (Hpre y (or_introl eq_refl)). rewrite IH; [reflexivity|].
    intros z Hz. apply Hpre. now right.
Qed.

Lemma findIndex_Some (xs : list A) (i : nat) :
  JS.findIndex p xs = Some i ->
  exists pre x post,
    xs = pre ++ x :: post /\ List.length pre = i /\ p x = true /\
    (forall y, In y pre -> p y = false).
Proof.
  revert i. induction xs as [|x xs IH]; cbn; intros i H; [discriminate|].
  destruct (p x) eqn:Hx.
  - injection H as <-. exists [], x, xs. repeat split; auto. intros y [].
  - destruct (JS.findIndex p xs) as [j|] eqn:Hf; cbn in H; [|discriminate].
    injection H as <-. destruct (IH j eq_refl) as (pre & y & post & -> & <- & Hy & Hpre).
    exists (x :: pre), y, post. repeat split; auto.
    intros z [<-|Hz]; auto.
Qed.

Lemma nth_error_middle (pre post : list A) (x : A) :
  nth_error (pre ++ x :: post) (List.length pre) = Some x.
Proof. induction pre; cbn; auto. Qed.

Lemma set_index_middle (pre post : list A) (x v : A) :
  JS.set_index (List.length pre) v (pre ++ x :: post) = pre ++ v :: post.
Proof. induction pre; cbn; [reflexivity|]. now f_equal. Qed.

End ListFacts.

Section ReentrantFacts.

Import Reentrant.

(** A round over subscribers that make no call: each is called once, in
    order, with the state of the store, which stays as it is. *)
Lemma forEach_passive
  (nested : StateManager.Updates -> t -> option t) (todo : list Callback) :
  forall (done : list Callback) (st : t),
    subscribers st = done ++ todo ->
    Forall (passive (state st)) todo ->
    forEach nested (List.length done) (List.length todo) st
    = Some {| state := state st;
              subscribers := subscribers st;
              invocations :=
                invocations st
                ++ map (fun cb => (cb_id cb, state st)) todo;
              console_error := console_error st ++ errors (state st) todo |}.
Proof.
  induction todo as [|cb todo IH]; intros done st Hsubs Hpassive.
  - cbn. rewrite !app_nil_r. now destruct st.
  - cbn [List.length forEach]. rewrite Hsubs, nth_error_middle.
    inversion Hpassive as [|? ? Hcb Htodo]; subst.
    unfold invoke. unfold passive in Hcb.
    destruct (cb_body cb (state st)) as [calls outcome] eqn:Hbody.
    cbn [fst] in Hcb. subst calls. cbn [perform].
    replace (S (List.length done)) with (List.length (done ++ [cb]))
      by (rewrite length_app; cbn; lia).
    destruct outcome as [|error].
    + rewrite IH.
      * cbn [state subscribers invocations console_error map].
        unfold errors. cbn [flat_map]. rewrite Hbody. cbn [snd app].
        now rewrite Hsubs, <- !app_assoc.
      * cbn [subscribers]. now rewrite Hsubs, <- app_assoc.
      * exact Htodo.
    + rewrite IH.
      * cbn [state subscribers invocations console_error map].
        unfold errors. cbn [flat_map]. rewrite Hbody. cbn [snd].
        now rewrite Hsubs, <- !app_assoc.
      * cbn [subscribers]. now rewrite Hsubs, <- app_assoc.
      * exact Htodo.
Qed.

Lemma setState_passive (fuel : nat) (updates : StateManager.Updates)
  (st : t) :
  Forall (passive (StateManager.merge (state st) updates)) (subscribers st) ->
  setState (S fuel) updates st
  = Some {| state := StateManager.merge (state st) updates;
            subscribers := subscribers st;
            invocations :=
              invocations st
              ++ map (fun cb =>
                        (cb_id cb, StateManager.merge (state st) updates))
                     (subscribers st);
            console_error :=
              console_error st
              ++ errors (StateManager.merge (state st) updates)
                        (subscribers st) |}.
Proof.
  intros Hpassive. cbn [setState].
  apply (forEach_passive (setState fuel) (subscribers st) []
           (with_state st (StateManager.merge (state st) updates)));
    [reflexivity|exact Hpassive].
Qed.

Lemma errors_observed (snapshot : StateManager.State)
  (subs : list StateManager.Callback) :
  errors snapshot (map observer subs) = Spec.round_errors snapshot subs.
Proof.
  unfold errors, Spec.round_errors.
  induction subs as [|cb subs IH]; [reflexivity|].
  cbn [map flat_map]. rewrite IH. reflexivity.
Qed.

(** On observers the live walk is the store of [StateManager]. *)
Lemma setState_observed (fuel : nat) (updates : StateManager.Updates)
  (st : StateManager.t) :
  setState (S fuel) updates (observed st)
  = Some (observed (StateManager.setState updates st)).
Proof.
  rewrite setState_passive.
  - destruct (setState_spec updates st) as (Hs & Hsub & Hinv & Herr).
    unfold observed. rewrite Hs, Hsub, Hinv, Herr.
    cbn [state subscribers invocations console_error].
    f_equal. f_equal.
    + f_equal. unfold Spec.round. rewrite map_map. reflexivity.
    + f_equal. apply errors_observed.
  - cbn [observed subscribers]. apply Forall_forall. intros cb Hcb.
    apply in_map_iff in Hcb. destruct Hcb as (o & <- & _). reflexivity.
Qed.

End ReentrantFacts.




(** A subscriber that has unsubscribed is not called any more; the
    others keep their order. *)
Example setState_after_unsubscribe :
  map fst
    (StateManager.invocations
       (StateManager.setLoading true
          (StateManager.unsubscribe Examples.quiet
             Examples.two_conversations)))
  = [2; 3]%nat.
Proof. reflexivity. Qed.

(** Three subscribers, the second of which throws: all three are called,
    in order, with the merged snapshot. *)
Example setState_with_a_throwing_subscriber :
  let st := Examples.store_of [Examples.ana] None "" "all" in
  let st' := StateManager.setManualMode true st in
  map fst (StateManager.invocations st') = [1; 2; 3]%nat /\
  Forall (fun call => StateManager.isManualMode (snd call) = true)
         (StateManager.invocations st') /\
  StateManager.console_error st' = ["Error in state subscriber: boom"].
Proof.
  cbn. repeat split. repeat constructor.
Qed.

Section UpsertFacts.

Import StateManager.

Lemma spread_payload (old payload : Conversation.t) :
  Conversation.spread old payload = payload.
Proof. destruct payload; reflexivity. Qed.

Lemma entries_app (id : string) (xs ys : list Conversation.t) :
  Spec.entries_with_id id (xs ++ ys)
  = (Spec.entries_with_id id xs + Spec.entries_with_id id ys)%nat.
Proof. unfold Spec.entries_with_id. now rewrite filter_app, length_app. Qed.

Lemma entries_cons (id : string) (x : Conversation.t)
  (xs : list Conversation.t) :
  Spec.entries_with_id id (x :: xs)
  = ((if String.eqb (Conversation.id x) id then 1 else 0)
     + Spec.entries_with_id id xs)%nat.
Proof.
  unfold Spec.entries_with_id. cbn [filter].
  now destruct (String.eqb (Conversation.id x) id).
Qed.

Lemma entries_none (id : string) (xs : list Conversation.t) :
  (forall x, In x xs -> String.eqb (Conversation.id x) id = false) ->
  Spec.entries_with_id id xs = 0%nat.
Proof.
  unfold Spec.entries_with_id. induction xs as [|x xs IH]; cbn; intros H.
  - reflexivity.
  - rewrite (H x (or_introl eq_refl)). apply IH. intros y Hy. apply H. now right.
Qed.

(** The list [updateConversation] hands to [setState]. *)
Lemma updateConversation_list (c : Conversation.t) (st : t) :
  let cs := conversations (state st) in
  let same_id x := String.eqb (Conversation.id x) (Conversation.id c) in
  conversations (state (updateConversation c st))
  = match JS.findIndex same_id cs with
    | Some index => JS.set_index index c cs
    | None => cs ++ [c]
    end.
Proof.
  cbn zeta. unfold updateConversation.
  destruct (setState_spec
              (mkUpdates
                 (Some match JS.findIndex
                               (fun x => String.eqb (Conversation.id x)
                                                    (Conversation.id c))
                               (conversations (state st)) with
                       | Some index =>
                           match nth_error (conversations (state st)) index with
                           | Some old =>
                               JS.set_index index (Conversation.spread old c)
                                            (conversations (state st))
                           | None => conversations (state st)
                           end
                       | None => conversations (state st) ++ [c]
                       end) None None None None None) st) as (H & _).
  rewrite H. cbn [merge conversations override u_conversations].
  destruct (JS.findIndex _ _) as [i|] eqn:Hf; [|reflexivity].
  apply findIndex_Some in Hf. destruct Hf as (pre & x & post & Hcs & <- & _ & _).
  rewrite Hcs, nth_error_middle, spread_payload. reflexivity.
Qed.

(** [updateConversation] touches the conversations and nothing else of
    the state. *)
Lemma updateConversation_state (c : Conversation.t) (st : t) :
  state (updateConversation c st)
  = {| conversations := conversations (state (updateConversation c st));
       activeConversationId := activeConversationId (state st);
       isManualMode := isManualMode (state st);
       isLoading := isLoading (state st);
       searchQuery := searchQuery (state st);
       selectedFilter := selectedFilter (state st) |}.
Proof.
  unfold updateConversation.
  match goal with
  | |- context [setState ?u st] =>
      destruct (setState_spec u st) as (H & _); rewrite H
  end.
  reflexivity.
Qed.

Lemma upsert_shape (c : Conversation.t) (cs : list Conversation.t) :
  let same_id x := String.eqb (Conversation.id x) (Conversation.id c) in
  let cs' := match JS.findIndex same_id cs with
             | Some index => JS.set_index index c cs
             | None => cs ++ [c]
             end in
  exists pre post,
    cs' = pre ++ c :: post /\
    (forall y, In y pre -> same_id y = false) /\
    Spec.entries_with_id (Conversation.id c) cs'
    = Nat.max 1 (Spec.entries_with_id (Conversation.id c) cs).
Proof.
  cbn zeta. destruct (JS.findIndex _ cs) as [i|] eqn:Hf.
  - apply findIndex_Some in Hf.
    destruct Hf as (pre & x & post & -> & <- & Hx & Hpre).
    exists pre, post. rewrite set_index_middle. repeat split; auto.
    rewrite !entries_app, !entries_cons, Hx, String.eqb_refl. lia.
  - exists cs, []. pose proof (proj1 (findIndex_None _ cs) Hf) as Hnone.
    repeat split; auto.
    rewrite entries_app, (entries_none _ cs Hnone).
    unfold Spec.entries_with_id. cbn. now rewrite String.eqb_refl.
Qed.

End UpsertFacts.

(** C7, as amended. [updateConversation] called twice with the same
    payload leaves the state as one call leaves it: the second call finds
    the entry of the first and merges into it, it never appends. The
    entries with the payload's id are then as many as the state held
    before, and one if it held none: exactly one whenever the state held
    at most one entry with that id. *)
Theorem updateConversation_twice_is_once :
  forall (conversation : Conversation.t) (st : StateManager.t),
    let id := Conversation.id conversation in
    let before := StateManager.conversations (StateManager.state st) in
    let once := StateManager.updateConversation conversation st in
    let twice := StateManager.updateConversation conversation once in
    StateManager.state twice = StateManager.state once /\
    Spec.entries_with_id id
      (StateManager.conversations (StateManager.state twice))
    = Nat.max 1 (Spec.entries_with_id id before) /\
    ((Spec.entries_with_id id before <= 1)%nat ->
     Spec.entries_with_id id
       (StateManager.conversations (StateManager.state twice)) = 1%nat).
Proof.
  intros c st id before once twice.
  assert (Hsame : StateManager.conversations (StateManager.state twice)
                  = StateManager.conversations (StateManager.state once)).
  { subst twice once. rewrite updateConversation_list.
    rewrite (updateConversation_list c st).
    destruct (upsert_shape c (StateManager.conversations (StateManager.state st)))
      as (pre & post & Hshape & Hpre & _).
    cbn zeta in Hshape. rewrite Hshape.
    rewrite (findIndex_first _ pre post c Hpre (String.eqb_refl _)).
    now rewrite set_index_middle. }
  assert (Hcount : Spec.entries_with_id id
                     (StateManager.conversations (StateManager.state twice))
                   = Nat.max 1 (Spec.entries_with_id id before)).
  { rewrite Hsame. subst once. rewrite updateConversation_list.
    destruct (upsert_shape c (StateManager.conversations (StateManager.state st)))
      as (pre & post & _ & _ & Hn).
    exact Hn. }
  split; [|split].
  - unfold twice in *. rewrite (updateConversation_state c once), Hsame.
    now destruct (StateManager.state once).
  - exact Hcount.
  - intros Hle. rewrite Hcount. lia.
Qed.

(** The theorem at a store that holds the conversation already. *)
Lemma updateConversation_twice_is_once_witness :
  (Spec.entries_with_id "c2"
     (StateManager.conversations
        (StateManager.state Examples.two_conversations)) <= 1)%nat /\
  Spec.entries_with_id "c2"
    (StateManager.conversations
       (StateManager.state
          (StateManager.updateConversation Examples.bob
             (StateManager.updateConversation Examples.bob
                Examples.two_conversations)))) = 1%nat.
Proof.
  assert (H : (Spec.entries_with_id "c2"
                 (StateManager.conversations
                    (StateManager.state Examples.two_conversations)) <= 1)%nat)
    by (vm_compute; lia).
  split; [exact H|].
  exact (proj2 (proj2 (updateConversation_twice_is_once Examples.bob
                         Examples.two_conversations)) H).
Defined.

(** C7, as stated, fails on a state that holds two entries with the id:
    the calls merge into the first and leave both. *)
Lemma updateConversation_leaves_earlier_duplicates :
  Spec.entries_with_id "c1"
    (StateManager.conversations
       (StateManager.state
          (StateManager.updateConversation Examples.ana
             (StateManager.updateConversation Examples.ana
                Examples.duplicated)))) <> 1%nat.
Proof. vm_compute. discriminate. Qed.

Section AddMessageFacts.

Import StateManager.

Lemma addMessage_unknown (conversationId : string) (message : Message.t)
  (st : t) :
  (forall c, In c (conversations (state st)) ->
             Conversation.id c <> conversationId) ->
  addMessage conversationId message st = st.
Proof.
  intros Hnone. unfold addMessage.
  assert (Hf : JS.findIndex
                 (fun c => String.eqb (Conversation.id c) conversationId)
                 (conversations (state st)) = None).
  { apply findIndex_None. intros c Hc. apply String.eqb_neq. now apply Hnone. }
  now rewrite Hf.
Qed.

(** The record [addMessage] puts in the place of the conversation: the
    messages are the new ones, every other key is kept. *)
Lemma with_messages_fields (c : Conversation.t) (ms : list Message.t) :
  let c' := Conversation.with_messages c ms in
  Conversation.messages c' = ms /\
  Conversation.id c' = Conversation.id c /\
  Conversation.name c' = Conversation.name c /\
  Conversation.initials c' = Conversation.initials c /\
  Conversation.number c' = Conversation.number c /\
  Conversation.src c' = Conversation.src c /\
  Conversation.tags c' = Conversation.tags c /\
  Conversation.unread c' = Conversation.unread c /\
  Conversation.needsAttention c' = Conversation.needsAttention c /\
  Conversation.interview c' = Conversation.interview c.
Proof. cbn. repeat split. Qed.

Lemma addMessage_known (conversationId : string) (message : Message.t)
  (st : t) (pre post : list Conversation.t) (c : Conversation.t) :
  conversations (state st) = pre ++ c :: post ->
  (forall x, In x pre -> Conversation.id x <> conversationId) ->
  Conversation.id c = conversationId ->
  addMessage conversationId message st
  = setState
      (mkUpdates
         (Some (pre ++ Conversation.with_messages c
                         (Conversation.messages c ++ [message]) :: post))
         None None None None None) st.
Proof.
  intros Hcs Hpre Hc. unfold addMessage. rewrite Hcs.
  rewrite (findIndex_first _ pre post c).
  - now rewrite nth_error_middle, set_index_middle.
  - intros x Hx. apply String.eqb_neq. now apply Hpre.
  - now apply String.eqb_eq.
Qed.

End AddMessageFacts.



Section FilterFacts.

Import StateManager.

Lemma toLowerCase_empty (s : string) :
  JS.toLowerCase s = "" -> s = "".
Proof. destruct s; cbn; [reflexivity|discriminate]. Qed.

Lemma includes_empty_string (q : string) :
  q <> "" -> JS.includes "" q = false.
Proof. destruct q; cbn; [congruence|reflexivity]. Qed.

(** Every character is one of the 256 code units. *)
Lemma ascii_in_range (c : ascii) :
  In c (map ascii_of_nat (seq 0 256)).
Proof.
  apply in_map_iff. exists (nat_of_ascii c). split.
  - apply ascii_nat_embedding.
  - apply in_seq. pose proof (nat_ascii_bounded c). lia.
Qed.

(** Two characters have the same lower case exactly when they are the
    same letter: checked on every pair of code units. *)
Lemma lower_char_same_letter (a b : ascii) :
  Ascii.eqb (JS.lower_char a) (JS.lower_char b) = Spec.same_letter a b.
Proof.
  assert (Hall :
            forallb
              (fun x =>
                 forallb
                   (fun y =>
                      Bool.eqb
                        (Ascii.eqb (JS.lower_char x) (JS.lower_char y))
                        (Spec.same_letter x y))
                   (map ascii_of_nat (seq 0 256)))
              (map ascii_of_nat (seq 0 256)) = true)
    by (vm_compute; reflexivity).
  pose proof (proj1 (forallb_forall _ _) Hall a (ascii_in_range a)) as Ha.
  pose proof (proj1 (forallb_forall _ _) Ha b (ascii_in_range b)) as Hab.
  now apply Bool.eqb_prop in Hab.
Qed.

Lemma startsWith_lower (field query : string) :
  JS.startsWith (JS.toLowerCase field) (JS.toLowerCase query)
  = Spec.starts_ci field query.
Proof.
  revert field. induction query as [|q query IH]; intros field;
    [now destruct field|].
  destruct field as [|f field]; [reflexivity|].
  cbn [JS.toLowerCase JS.startsWith Spec.starts_ci].
  rewrite IH, lower_char_same_letter.
  f_equal. unfold Spec.same_letter.
  rewrite (Ascii.eqb_sym q f).
  destruct (Ascii.eqb f q); [reflexivity|]. cbn [orb]. apply orb_comm.
Qed.

(** The search of the code, lower case against lower case, is the
    case-insensitive containment. *)
Lemma includes_lower (field query : string) :
  JS.includes (JS.toLowerCase field) (JS.toLowerCase query)
  = Spec.contains_ci field query.
Proof.
  induction field as [|f field IH].
  - pose proof (startsWith_lower "" query) as H.
    cbn [JS.toLowerCase] in H |- *. cbn [JS.includes Spec.contains_ci].
    now rewrite H.
  - change (JS.toLowerCase (String f field))
      with (String (JS.lower_char f) (JS.toLowerCase field)) at 1.
    cbn [JS.includes Spec.contains_ci].
    change (String (JS.lower_char f) (JS.toLowerCase field))
      with (JS.toLowerCase (String f field)).
    now rewrite startsWith_lower, IH.
Qed.

(** On a conversation with a name the callback of the search does not
    throw, and it answers as the search with the number taken verbatim. *)
Lemma matches_search_named (query : string) (c : Conversation.t) :
  query <> "" -> Conversation.name c <> None ->
  matches_search (JS.toLowerCase query) c
  = Ok (Spec.search_hit_number_verbatim query c).
Proof.
  intros Hq Hname. unfold matches_search, Spec.search_hit_number_verbatim.
  destruct (Conversation.name c) as [n|]; [|congruence].
  cbn [Spec.opt_contains_ci]. rewrite includes_lower.
  assert (Htags :
            existsb (fun tag => JS.includes (JS.toLowerCase tag)
                                            (JS.toLowerCase query))
                    (Conversation.tags c)
            = existsb (fun tag => Spec.contains_ci tag query)
                      (Conversation.tags c)).
  { induction (Conversation.tags c) as [|tag tags IH]; [reflexivity|].
    cbn [existsb]. now rewrite includes_lower, IH. }
  rewrite Htags. do 2 f_equal.
  destruct (Conversation.number c) as [num|]; [|reflexivity].
  destruct (String.eqb_spec num "") as [->|Hnum]; cbn [negb andb].
  - symmetry. apply includes_empty_string.
    intros H. apply toLowerCase_empty in H. contradiction.
  - reflexivity.
Qed.

Lemma filter_throwing_total {A : Type} (p : A -> Result bool) (q : A -> bool)
  (xs : list A) :
  (forall x, In x xs -> p x = Ok (q x)) ->
  filter_throwing p xs = Ok (filter q xs).
Proof.
  induction xs as [|x xs IH]; cbn; intros H; [reflexivity|].
  rewrite (H x (or_introl eq_refl)), IH; [reflexivity|].
  intros y Hy. apply H. now right.
Qed.

Lemma filter_unread_nonzero (cs : list Conversation.t) :
  Forall (fun c => Conversation.unread c <> 0%Z)
         (filter (fun c => (0 <? Conversation.unread c)%Z) cs).
Proof.
  apply Forall_forall. intros c Hc. apply filter_In in Hc.
  destruct Hc as [_ Hc]. apply Z.ltb_lt in Hc. lia.
Qed.

End FilterFacts.

(** What [getFilteredConversations] does on a state in which every
    conversation has a name. It reads the state and nothing else: stores
    with the same state give the same result. With
    an empty query every conversation passes the search. With a non-empty
    query, on a state in which every conversation has a name, the search
    keeps exactly the conversations whose name or one of whose tags
    contains the query case-insensitively, or whose phone number, as
    stored, contains the lower-cased query. Of the conversations that
    pass the search, "unread" keeps those with a positive unread counter
    (none with [unread = 0] is returned), "attention" keeps exactly those
    with the needs-attention flag set, and any other filter, "all" among
    them, keeps them all. *)
Theorem getFilteredConversations_search_then_filter :
  forall st : StateManager.t,
    let s := StateManager.state st in
    (StateManager.searchQuery s <> "" ->
     Forall (fun c => Conversation.name c <> None)
            (StateManager.conversations s)) ->
    exists searched result : list Conversation.t,
      StateManager.getFilteredConversations st = Ok result /\
      (StateManager.searchQuery s = "" ->
       searched = StateManager.conversations s) /\
      (StateManager.searchQuery s <> "" ->
       searched
       = filter (Spec.search_hit_number_verbatim (StateManager.searchQuery s))
                (StateManager.conversations s)) /\
      (StateManager.selectedFilter s = "unread" ->
       result = filter (fun c => (0 <? Conversation.unread c)%Z) searched /\
       Forall (fun c => Conversation.unread c <> 0%Z) result) /\
      (StateManager.selectedFilter s = "attention" ->
       result = filter Conversation.needsAttention searched) /\
      (StateManager.selectedFilter s <> "unread" ->
       StateManager.selectedFilter s <> "attention" ->
       result = searched) /\
      (forall st2 : StateManager.t,
          StateManager.state st2 = s ->
          StateManager.getFilteredConversations st2 = Ok result).
Proof.
  intros st s Hnames.
  set (searched :=
         if String.eqb (StateManager.searchQuery s) ""
         then StateManager.conversations s
         else filter (Spec.search_hit_number_verbatim
                        (StateManager.searchQuery s))
                     (StateManager.conversations s)).
  set (result :=
         if String.eqb (StateManager.selectedFilter s) "unread"
         then filter (fun c => (0 <? Conversation.unread c)%Z) searched
         else if String.eqb (StateManager.selectedFilter s) "attention"
              then filter Conversation.needsAttention searched
              else searched).
  assert (Hrun : forall st2 : StateManager.t,
             StateManager.state st2 = s ->
             StateManager.getFilteredConversations st2 = Ok result).
  { intros st2 Hst2. unfold StateManager.getFilteredConversations.
    rewrite Hst2. subst result searched.
    destruct (String.eqb_spec (StateManager.searchQuery s) "") as [Hq|Hq];
      cbn [negb].
    - destruct (String.eqb (StateManager.selectedFilter s) "unread");
        [reflexivity|].
      destruct (String.eqb (StateManager.selectedFilter s) "attention");
        reflexivity.
    - rewrite (filter_throwing_total _
                 (Spec.search_hit_number_verbatim (StateManager.searchQuery s))).
      + destruct (String.eqb (StateManager.selectedFilter s) "unread");
          [reflexivity|].
        destruct (String.eqb (StateManager.selectedFilter s) "attention");
          reflexivity.
      + intros c Hc. apply matches_search_named; [assumption|].
        exact (proj1 (Forall_forall _ _) (Hnames Hq) c Hc). }
  exists searched, result. split; [now apply Hrun|].
  subst result searched. split; [|split; [|split; [|split; [|split]]]].
  - intros ->. reflexivity.
  - intros Hq. apply String.eqb_neq in Hq. now rewrite Hq.
  - intros Hu. rewrite Hu. cbn [String.eqb Ascii.eqb Bool.eqb].
    split; [reflexivity|apply filter_unread_nonzero].
  - intros ->. reflexivity.
  - intros Hu Ha. apply String.eqb_neq in Hu, Ha. now rewrite Hu, Ha.
  - assumption.
Qed.

(** The theorem at a store that searches two named conversations for
    their common number prefix and filters the unread ones. *)
Lemma getFilteredConversations_search_then_filter_witness :
  Forall (fun c => Conversation.name c <> None)
         (StateManager.conversations
            (StateManager.state Examples.searching_unread)) /\
  StateManager.getFilteredConversations Examples.searching_unread
  = Ok [Examples.bob].
Proof.
  assert (H : Forall (fun c => Conversation.name c <> None)
                     (StateManager.conversations
                        (StateManager.state Examples.searching_unread))).
  { repeat constructor; discriminate. }
  split; [exact H|].
  destruct (getFilteredConversations_search_then_filter
              Examples.searching_unread (fun _ => H))
    as (searched & result & Hrun & _ & Hsearch & Hunread & _).
  rewrite Hrun. f_equal.
  destruct (Hunread eq_refl) as [-> _].
  rewrite Hsearch; [reflexivity|discriminate].
Defined.

(** C2. The code at two inputs on which it does not do what the claim
    says. The query is lower-cased, and so are the name and the tags it is
    looked for in, but not the phone number: a conversation whose number
    holds the query in capital letters, "G.US" in "5215550003@G.US", is
    dropped by the search for "G.US". And the name is read without the
    guard the number has: on a conversation without a name the search
    throws, also when one of its tags contains the query. *)
Lemma getFilteredConversations_number_is_case_sensitive :
  (Spec.search_hit "G.US" Examples.group = true /\
   StateManager.getFilteredConversations Examples.searching_number = Ok []) /\
  (Spec.search_hit "lead" Examples.nameless = true /\
   StateManager.getFilteredConversations Examples.searching_nameless
   = Throw "TypeError").
Proof. repeat split. Qed.

(** ** The push-channel client *)

Section SocketFacts.

Import SocketService.

Lemma step_maxRetries (s : t) (e : Event) :
  maxRetries (fst (step s e)) = maxRetries s.
Proof.
  destruct e; cbn; try reflexivity.
  - unfold handleReconnection.
    destruct (retryCount s <? maxRetries s)%nat; reflexivity.
  - destruct (pending_timers s); [reflexivity|].
    destruct io_error; reflexivity.
Qed.

Lemma run_cons (s : t) (e : Event) (r : list Event) :
  run s (e :: r)
  = (fst (run (fst (step s e)) r),
     snd (step s e) ++ snd (run (fst (step s e)) r)).
Proof.
  cbn [run]. destruct (step s e) as [s1 eff1]. cbn [fst snd].
  destruct (run s1 r); reflexivity.
Qed.

Lemma run_maxRetries (events : list Event) :
  forall s : t, maxRetries (fst (run s events)) = maxRetries s.
Proof.
  induction events as [|e r IH]; intros s; [reflexivity|].
  rewrite run_cons. cbn [fst]. now rewrite IH, step_maxRetries.
Qed.

(** Without a connect in between, the counter is the number of
    disconnects seen, capped at the ceiling. *)
Lemma step_retryCount (s : t) (e : Event) :
  is_connect e = false ->
  (retryCount s <= maxRetries s)%nat ->
  retryCount (fst (step s e))
  = Nat.min (maxRetries s)
            (retryCount s + if is_disconnect e then 1 else 0).
Proof.
  intros He Hle. destruct e; cbn in *; try discriminate; try lia.
  - unfold handleReconnection.
    destruct (Nat.ltb_spec (retryCount s) (maxRetries s)); cbn; lia.
  - destruct (pending_timers s); cbn; [lia|].
    destruct io_error; cbn; lia.
Qed.

Lemma run_retryCount (events : list Event) :
  forall s : t,
    existsb is_connect events = false ->
    (retryCount s <= maxRetries s)%nat ->
    retryCount (fst (run s events))
    = Nat.min (maxRetries s)
              (retryCount s + List.length (filter is_disconnect events)).
Proof.
  induction events as [|e r IH]; intros s Hno Hle.
  - cbn. lia.
  - cbn [existsb] in Hno. apply orb_false_iff in Hno. destruct Hno as [He Hr].
    rewrite run_cons. cbn [fst].
    pose proof (step_retryCount s e He Hle) as Hstep.
    pose proof (step_maxRetries s e) as Hmax.
    rewrite IH; [|assumption|lia].
    rewrite Hmax, Hstep. cbn [filter].
    destruct (is_disconnect e); cbn [List.length]; lia.
Qed.

End SocketFacts.

(** C3. In every state [s] the client reaches from its creation: a
    disconnect while the retry counter is below the ceiling of 5 calls the
    disconnect callback, counts one retry and sets exactly one timeout,
    with the fixed delay, for the reconnection; a connect resets the
    counter to zero; and from a fresh connection (counter zero), after
    five disconnects with no connect in between, the sixth disconnect
    calls the error callback with the terminal error and sets no timeout,
    leaving the client as it was. *)
Theorem reconnection_gives_up_after_five :
  forall history : list SocketService.Event,
    let s := fst (SocketService.run SocketService.create history) in
    ((SocketService.retryCount s < 5)%nat ->
     snd (SocketService.step s SocketService.Disconnect)
     = [SocketService.CallOnDisconnect;
        SocketService.SetTimeout CONFIG.CONNECTION_RETRY_DELAY] /\
     SocketService.retryCount
       (fst (SocketService.step s SocketService.Disconnect))
     = S (SocketService.retryCount s)) /\
    SocketService.retryCount (fst (SocketService.step s SocketService.Connect))
    = 0%nat /\
    (forall failures : list SocketService.Event,
        SocketService.retryCount s = 0%nat ->
        SocketService.failed_reconnects 5 failures ->
        let s5 := fst (SocketService.run s failures) in
        SocketService.step s5 SocketService.Disconnect
        = (s5, [SocketService.CallOnDisconnect;
                SocketService.CallOnError
                  "Max reconnection attempts reached"]) /\
        SocketService.scheduled
          (snd (SocketService.step s5 SocketService.Disconnect)) = 0%nat).
Proof.
  intros history s.
  assert (Hmax : SocketService.maxRetries s = 5%nat).
  { subst s. now rewrite run_maxRetries. }
  split; [|split].
  - intros Hlt. cbn. unfold SocketService.handleReconnection.
    rewrite Hmax. destruct (Nat.ltb_spec (SocketService.retryCount s) 5);
      [|lia]. split; reflexivity.
  - reflexivity.
  - intros failures Hfresh [Hno Hfive] s5.
    assert (Hcount : SocketService.retryCount s5 = 5%nat).
    { subst s5. rewrite run_retryCount; [|assumption|lia].
      rewrite Hmax, Hfresh, Hfive. reflexivity. }
    assert (Hmax5 : SocketService.maxRetries s5 = 5%nat).
    { subst s5. now rewrite run_maxRetries. }
    assert (Hstep : SocketService.step s5 SocketService.Disconnect
                    = (s5, [SocketService.CallOnDisconnect;
                            SocketService.CallOnError
                              "Max reconnection attempts reached"])).
    { cbn. unfold SocketService.handleReconnection.
      rewrite Hcount, Hmax5. reflexivity. }
    split; [exact Hstep|]. rewrite Hstep. reflexivity.
Qed.

(** The theorem at a client that has reconnected once, then loses the
    connection six times, each reconnection attempt opening a socket that
    disconnects again. *)
Lemma reconnection_gives_up_after_five_witness :
  snd (SocketService.step SocketService.create SocketService.Disconnect)
  = [SocketService.CallOnDisconnect; SocketService.SetTimeout 5000] /\
  snd (SocketService.step
         (fst (SocketService.run SocketService.create
                 [SocketService.Disconnect; SocketService.TimerFires None;
                  SocketService.Connect;
                  SocketService.Disconnect; SocketService.TimerFires None;
                  SocketService.Disconnect; SocketService.TimerFires None;
                  SocketService.Disconnect; SocketService.TimerFires None;
                  SocketService.Disconnect; SocketService.TimerFires None;
                  SocketService.Disconnect; SocketService.TimerFires None]))
         SocketService.Disconnect)
  = [SocketService.CallOnDisconnect;
     SocketService.CallOnError "Max reconnection attempts reached"].
Proof.
  split.
  { destruct (reconnection_gives_up_after_five []) as (Hfirst & _ & _).
    destruct Hfirst as [Heffects _]; [cbn; lia|]. exact Heffects. }
  destruct (reconnection_gives_up_after_five
              [SocketService.Disconnect; SocketService.TimerFires None;
               SocketService.Connect]) as (_ & _ & Hsixth).
  destruct (Hsixth
              [SocketService.Disconnect; SocketService.TimerFires None;
               SocketService.Disconnect; SocketService.TimerFires None;
               SocketService.Disconnect; SocketService.TimerFires None;
               SocketService.Disconnect; SocketService.TimerFires None;
               SocketService.Disconnect; SocketService.TimerFires None])
    as [Hstep _].
  - reflexivity.
  - split; reflexivity.
  - change (snd (SocketService.step
                   (fst (SocketService.run
                           (fst (SocketService.run SocketService.create
                                   [SocketService.Disconnect;
                                    SocketService.TimerFires None;
                                    SocketService.Connect]))
                           [SocketService.Disconnect; SocketService.TimerFires None;
                            SocketService.Disconnect; SocketService.TimerFires None;
                            SocketService.Disconnect; SocketService.TimerFires None;
                            SocketService.Disconnect; SocketService.TimerFires None;
                            SocketService.Disconnect; SocketService.TimerFires None]))
                   SocketService.Disconnect)
            = [SocketService.CallOnDisconnect;
               SocketService.CallOnError "Max reconnection attempts reached"]).
    cbv zeta in Hstep. rewrite Hstep. reflexivity.
Defined.

(** ** The send action *)

(** C4, as amended. With a message text that is not empty once its
    white space is trimmed (the trimmed value of the input is [message] in
    the code) and the manual-mode flag of the store false,
    [handleSendMessage] does nothing but show the toast: no event
    is dispatched, no request is issued, the input keeps its value and the
    store is the same; the toast element, when the page has one, shows
    'Activate "Take control" to intervene.' and a timeout is set to slide
    it out. *)
Theorem handleSendMessage_needs_manual_mode :
  forall ui : UIManager.t,
    JS.trim (UIManager.messageInput ui) <> "" ->
    StateManager.isManualMode (StateManager.state (UIManager.store ui))
    = false ->
    let ui' := UIManager.handleSendMessage ui in
    ui' = UIManager.showToast UIManager.activate_control ui /\
    UIManager.dispatched ui' = UIManager.dispatched ui /\
    UIManager.requests ui' = UIManager.requests ui /\
    UIManager.messageInput ui' = UIManager.messageInput ui /\
    UIManager.store ui' = UIManager.store ui /\
    UIManager.threadArea ui' = UIManager.threadArea ui /\
    (UIManager.toast ui <> None ->
     UIManager.toast ui'
     = Some (UIManager.mkToast UIManager.activate_control "block"
                               "slideInRight 0.3s ease") /\
     UIManager.timeouts ui'
     = UIManager.timeouts ui
       ++ [UIManager.ToastSlideOut CONFIG.TOAST_DURATION]).
Proof.
  intros ui Hmessage Hmode ui'. subst ui'.
  unfold UIManager.handleSendMessage, StateManager.getState.
  apply String.eqb_neq in Hmessage. rewrite Hmessage, Hmode. cbn [negb].
  unfold UIManager.showToast.
  destruct (UIManager.toast ui) as [t|]; cbn;
    repeat split; try reflexivity; congruence.
Qed.

(** The theorem at a page whose store is not in manual mode and whose
    input holds a text. *)
Lemma handleSendMessage_needs_manual_mode_witness :
  UIManager.requests
    (UIManager.handleSendMessage
       (Examples.page_of Examples.two_conversations " hola "))
  = [] /\
  UIManager.dispatched
    (UIManager.handleSendMessage
       (Examples.page_of Examples.two_conversations " hola "))
  = [] /\
  UIManager.toast
    (UIManager.handleSendMessage
       (Examples.page_of Examples.two_conversations " hola "))
  = Some (UIManager.mkToast UIManager.activate_control "block"
                            "slideInRight 0.3s ease").
Proof.
  assert (Hmessage : JS.trim (UIManager.messageInput
                                (Examples.page_of Examples.two_conversations
                                                  " hola ")) <> "")
    by (vm_compute; discriminate).
  destruct (handleSendMessage_needs_manual_mode
              (Examples.page_of Examples.two_conversations " hola ")
              Hmessage eq_refl)
    as (_ & Hdispatched & Hrequests & _ & _ & _ & Htoast).
  split; [exact Hrequests|]. split; [exact Hdispatched|].
  destruct Htoast as [Hshown _]; [discriminate|]. exact Hshown.
Defined.

(** C4, as stated, fails for a text of white space alone. The input holds
    three spaces, a text that is not empty, and the manual-mode flag is
    false; the guard on the trimmed text returns first: the page is as it
    was, its toast element still hidden and no timeout set. *)
Lemma handleSendMessage_drops_blank_text :
  UIManager.messageInput (Examples.page_of Examples.two_conversations "   ")
  <> "" /\
  StateManager.isManualMode
    (StateManager.state
       (UIManager.store (Examples.page_of Examples.two_conversations "   ")))
  = false /\
  UIManager.handleSendMessage
    (Examples.page_of Examples.two_conversations "   ")
  = Examples.page_of Examples.two_conversations "   " /\
  UIManager.toast
    (UIManager.handleSendMessage
       (Examples.page_of Examples.two_conversations "   "))
  = Some (UIManager.mkToast "" "none" "") /\
  UIManager.timeouts
    (UIManager.handleSendMessage
       (Examples.page_of Examples.two_conversations "   "))
  = [].
Proof. split; [discriminate|]. repeat split. Qed.


(** ** The message mapper *)

Section MapperFacts.

Import ApiService.

(** The origin, label and colour of a mapped message are those of the
    entry looked up, whichever path the audio flag selects. *)
Lemma mapMessageData_type (now : Z) (store : BlobStore) (msg : RawMessage.t) :
  let m := fst (mapMessageData now store msg) in
  let messageType :=
    match CONFIG.lookup_type CONFIG.MESSAGE_TYPES (RawMessage.typo msg) with
    | Some messageType => messageType
    | None => fallback_type
    end in
  Message.from m = CONFIG.mt_from messageType /\
  Message.label m = CONFIG.mt_label messageType /\
  Message.color m = CONFIG.mt_color messageType /\
  Message.type m = RawMessage.typo msg /\
  Message.id m = RawMessage.id msg.
Proof.
  cbn zeta. unfold mapMessageData.
  destruct (_ && _).
  - destruct (convertBase64ToAudioUrl store (RawMessage.message msg)).
    cbn. repeat split.
  - cbn. repeat split.
Qed.

Lemma lookup_type_undefined (code : Z) :
  code <> 1%Z -> code <> 2%Z -> code <> 3%Z -> code <> 4%Z ->
  CONFIG.lookup_type CONFIG.MESSAGE_TYPES code = None.
Proof.
  intros H1 H2 H3 H4. unfold CONFIG.MESSAGE_TYPES. cbn [CONFIG.lookup_type].
  rewrite !(proj2 (Z.eqb_neq _ code)) by congruence. reflexivity.
Qed.

End MapperFacts.

(** C5. [mapMessageData] returns a message for every raw record (no
    exception leaves it), and the origin, label and colour of the message
    are those of the taxonomy for the wire codes 1, 2, 3 and 4, and the
    unknown, incoming fallback for every other code. *)
Theorem mapMessageData_follows_the_taxonomy :
  forall (now : Z) (store : ApiService.BlobStore) (msg : RawMessage.t),
    let m := fst (ApiService.mapMessageData now store msg) in
    let code := RawMessage.typo msg in
    let shown := (Message.from m, Message.label m, Message.color m) in
    (code = 1%Z -> shown = ("bot", "🤖 Bot", "out")) /\
    (code = 2%Z -> shown = ("them", "👤 Client", "in")) /\
    (code = 3%Z -> shown = ("bot", "🤖 AI", "out")) /\
    (code = 4%Z -> shown = ("admin", "👨‍💼 Admin", "out")) /\
    (code <> 1%Z -> code <> 2%Z -> code <> 3%Z -> code <> 4%Z ->
     shown = ("unknown", "Unknown", "in")).
Proof.
  intros now store msg m code shown.
  destruct (mapMessageData_type now store msg) as (Hfrom & Hlabel & Hcolor & _).
  subst shown m. rewrite Hfrom, Hlabel, Hcolor. fold code.
  repeat split.
  - intros ->. reflexivity.
  - intros ->. reflexivity.
  - intros ->. reflexivity.
  - intros ->. reflexivity.
  - intros H1 H2 H3 H4. now rewrite lookup_type_undefined.
Qed.

(** The theorem at a record with the wire code 9. *)
Lemma mapMessageData_follows_the_taxonomy_witness :
  (Message.from (fst (ApiService.mapMessageData 0 [] Examples.raw_unknown)),
   Message.label (fst (ApiService.mapMessageData 0 [] Examples.raw_unknown)),
   Message.color (fst (ApiService.mapMessageData 0 [] Examples.raw_unknown)))
  = ("unknown", "Unknown", "in").
Proof.
  destruct (mapMessageData_follows_the_taxonomy 0 [] Examples.raw_unknown)
    as (_ & _ & _ & _ & Hfallback).
  apply Hfallback; vm_compute; discriminate.
Defined.

(** ** The thread *)

Section ThreadFacts.

Import UIManager.

Lemma insert_by_id_ids_sorted (m : Message.t) (l : list Message.t) :
  Sorted Z.le (map Message.id l) ->
  Sorted Z.le (map Message.id (insert_by_id m l)).
Proof.
  induction l as [|x l IH]; cbn; intros Hs.
  - repeat constructor.
  - apply Sorted_inv in Hs. destruct Hs as [Hl Hx].
    destruct (Z.leb_spec (Message.id m) (Message.id x)) as [Hle|Hgt]; cbn.
    + constructor; [constructor; assumption|]. constructor. exact Hle.
    + constructor; [now apply IH|].
      destruct l as [|y l]; cbn.
      * constructor. lia.
      * destruct (Z.leb_spec (Message.id m) (Message.id y)); cbn;
          constructor; [lia|]. now apply HdRel_inv in Hx.
Qed.

Lemma sort_by_id_sorted (l : list Message.t) :
  Sorted Z.le (map Message.id (sort_by_id l)).
Proof.
  induction l as [|m l IH]; cbn; [constructor|].
  now apply insert_by_id_ids_sorted.
Qed.

Lemma insert_by_id_perm (m : Message.t) (l : list Message.t) :
  Permutation (m :: l) (insert_by_id m l).
Proof.
  induction l as [|x l IH]; cbn; [reflexivity|].
  destruct (Message.id m <=? Message.id x)%Z; [reflexivity|].
  rewrite perm_swap. now constructor.
Qed.

Lemma sort_by_id_perm (l : list Message.t) :
  Permutation l (sort_by_id l).
Proof.
  induction l as [|m l IH]; cbn; [constructor|].
  rewrite <- insert_by_id_perm. now constructor.
Qed.

Lemma sort_by_id_length (l : list Message.t) :
  List.length (sort_by_id l) = List.length l.
Proof. symmetry. apply Permutation_length, sort_by_id_perm. Qed.

Lemma sorted_skipn (k : nat) :
  forall l : list Z, Sorted Z.le l -> Sorted Z.le (skipn k l).
Proof.
  induction k as [|k IH]; intros l Hs; [exact Hs|].
  destruct l as [|x l]; [constructor|].
  cbn. apply IH. now apply Sorted_inv in Hs.
Qed.

Lemma sorted_firstn (n : nat) :
  forall l : list Z, Sorted Z.le l -> Sorted Z.le (firstn n l).
Proof.
  induction n as [|n IH]; intros l Hs; [constructor|].
  destruct l as [|x l]; [constructor|].
  cbn. apply Sorted_inv in Hs. destruct Hs as [Hl Hx].
  constructor; [now apply IH|].
  destruct l as [|y l]; [destruct n; constructor|].
  destruct n; cbn; constructor. now apply HdRel_inv in Hx.
Qed.

Lemma elements_ids (l : list Message.t) :
  map el_message_id (map createMessageElement l) = map Message.id l.
Proof. rewrite map_map. reflexivity. Qed.

Lemma staggered_ids (animate : bool) (l : list Message.t) :
  forall index : nat,
    map el_message_id (staggered animate index l) = map Message.id l.
Proof.
  induction l as [|m l IH]; intros index; cbn; [reflexivity|].
  now rewrite IH.
Qed.

Lemma window_ids (count : nat) :
  forall (index : nat) (l : list Message.t),
    map el_message_id (window_elements index count l)
    = map Message.id (firstn count l).
Proof.
  induction count as [|count IH]; intros index l; [reflexivity|].
  destruct l as [|m l]; cbn; [reflexivity|]. now rewrite IH.
Qed.

(** What the two variants show, for a page with a thread area and an
    active conversation that has messages. *)
Lemma rendered_ids (ui : t) (area : ThreadArea) (c : Conversation.t) :
  threadArea ui = Some area ->
  StateManager.getActiveConversation (store ui) = Some c ->
  Conversation.messages c <> [] ->
  let sorted := sort_by_id (Conversation.messages c) in
  displayed_ids (renderConversationThread_v1 ui) = map Message.id sorted /\
  ((List.length (Conversation.messages c) <= 100)%nat ->
   displayed_ids (renderConversationThread ui) = map Message.id sorted) /\
  ((100 < List.length (Conversation.messages c))%nat ->
   let first := Z.max 0 (scrollTop area / 60 - 5) in
   let last :=
     Z.min (scrollTop area / 60 + - (- clientHeight area / 60) + 5)
           (Z.of_nat (List.length (Conversation.messages c))) in
   displayed_ids (renderConversationThread ui)
   = firstn (Z.to_nat (last - first))
            (skipn (Z.to_nat first) (map Message.id sorted))) /\
  exists first count : nat,
    displayed_ids (renderConversationThread ui)
    = firstn count (skipn first (map Message.id sorted)).
Proof.
  intros Harea Hactive Hmessages sorted.
  unfold renderConversationThread_v1, renderConversationThread, displayed_ids.
  rewrite Harea, Hactive.
  destruct (Conversation.messages c) as [|m ms] eqn:Hms; [congruence|].
  subst sorted. rewrite (sort_by_id_length (m :: ms)).
  split; [|split; [|split]].
  - cbn. apply elements_ids.
  - intros Hle. destruct (Nat.ltb_spec 100 (List.length (m :: ms))); [lia|].
    cbn. apply staggered_ids.
  - intros Hlong.
    destruct (Nat.ltb_spec 100 (List.length (m :: ms))); [|lia].
    cbn [threadArea set_threadArea content set_content].
    unfold updateVirtualScrollView. rewrite window_ids.
    rewrite (sort_by_id_length (m :: ms)).
    rewrite <- firstn_map, <- skipn_map. reflexivity.
  - destruct (Nat.ltb_spec 100 (List.length (m :: ms))).
    + cbn [threadArea set_threadArea content set_content].
      unfold updateVirtualScrollView. rewrite window_ids.
      eexists _, _. rewrite <- firstn_map, <- skipn_map. reflexivity.
    + exists 0%nat, (List.length (sort_by_id (m :: ms))).
      cbn [threadArea set_threadArea content set_content skipn].
      rewrite staggered_ids,
        <- (length_map Message.id (sort_by_id (m :: ms))).
      now rewrite firstn_all.
Qed.

End ThreadFacts.

(** C6, as amended. For a page with a thread area and an active
    conversation that has messages, what [renderConversationThread] shows
    is in ascending order of the message ids, whatever the order of the
    stored array. The earlier variant shows every message; the later one
    shows every message of a thread of at most 100 and, above that, the
    window at the scroll position: of the thread sorted by id, the
    messages at the positions from [max(0, floor(scrollTop / 60) - 5)] up
    to, and without, [min(floor(scrollTop / 60) + ceil(clientHeight / 60)
    + 5, n)], where [n] is their number. Messages with the ids 5, 1, 3 are
    shown in the order 1, 3, 5. *)
Theorem thread_is_shown_in_ascending_id_order :
  forall (ui : UIManager.t) (area : UIManager.ThreadArea)
         (conversation : Conversation.t),
    UIManager.threadArea ui = Some area ->
    StateManager.getActiveConversation (UIManager.store ui)
    = Some conversation ->
    Conversation.messages conversation <> [] ->
    let ids := map Message.id (Conversation.messages conversation) in
    let shown := UIManager.displayed_ids (UIManager.renderConversationThread ui) in
    let shown_v1 :=
      UIManager.displayed_ids (UIManager.renderConversationThread_v1 ui) in
    Spec.ascending shown /\
    Spec.ascending shown_v1 /\
    Permutation ids shown_v1 /\
    ((List.length ids <= 100)%nat -> Permutation ids shown) /\
    ((100 < List.length ids)%nat ->
     exists sorted : list Z,
       Spec.ascending sorted /\ Permutation ids sorted /\
       shown
       = firstn
           (Z.to_nat
              (Z.min (UIManager.scrollTop area / 60
                      + - (- UIManager.clientHeight area / 60) + 5)
                     (Z.of_nat (List.length ids))
               - Z.max 0 (UIManager.scrollTop area / 60 - 5)))
           (skipn (Z.to_nat (Z.max 0 (UIManager.scrollTop area / 60 - 5)))
                  sorted)) /\
    (ids = [5; 1; 3]%Z -> shown = [1; 3; 5]%Z /\ shown_v1 = [1; 3; 5]%Z).
Proof.
  intros ui area c Harea Hactive Hmessages ids shown shown_v1.
  destruct (rendered_ids ui area c Harea Hactive Hmessages)
    as (Hv1 & Hsmall & Hlarge & first & count & Hwindow).
  fold shown in Hsmall, Hlarge, Hwindow. fold shown_v1 in Hv1.
  set (sorted := map Message.id
                     (UIManager.sort_by_id (Conversation.messages c))) in *.
  assert (Hsorted : Spec.ascending sorted) by apply sort_by_id_sorted.
  assert (Hperm : Permutation ids sorted).
  { apply Permutation_map, sort_by_id_perm. }
  split; [|split; [|split; [|split; [|split]]]].
  - rewrite Hwindow. apply sorted_firstn, sorted_skipn, Hsorted.
  - now rewrite Hv1.
  - now rewrite Hv1.
  - intros Hle. unfold ids in Hle. rewrite length_map in Hle.
    now rewrite (Hsmall Hle).
  - intros Hlong. unfold ids in Hlong |- *. rewrite length_map in Hlong |- *.
    exists sorted. split; [exact Hsorted|]. split; [exact Hperm|].
    exact (Hlarge Hlong).
  - intros Hids.
    assert (Hs : sorted = [1; 3; 5]%Z).
    { subst sorted ids.
      destruct (Conversation.messages c) as [|m1 [|m2 [|m3 [|m4 ms]]]];
        try discriminate.
      cbn in Hids. injection Hids as H1 H2 H3.
      cbn [UIManager.sort_by_id UIManager.insert_by_id].
      rewrite H2, H3. cbn [Z.leb Z.compare Pos.compare Pos.compare_cont].
      cbn [UIManager.insert_by_id]. rewrite H1, H2, H3.
      cbn [Z.leb Z.compare Pos.compare Pos.compare_cont].
      cbn [UIManager.insert_by_id map]. now rewrite H1, H2, H3. }
    split; [|now rewrite Hv1].
    rewrite Hsmall; [assumption|].
    apply (f_equal (@List.length Z)) in Hids. subst ids.
    rewrite length_map in Hids. rewrite Hids. cbn. lia.
Qed.

(** The theorem at the page that shows the conversation whose messages
    are stored with the ids 5, 1, 3. *)
Lemma thread_is_shown_in_ascending_id_order_witness :
  UIManager.displayed_ids
    (UIManager.renderConversationThread Examples.viewing_bob)
  = [1; 3; 5]%Z /\
  UIManager.displayed_ids
    (UIManager.renderConversationThread_v1 Examples.viewing_bob)
  = [1; 3; 5]%Z.
Proof.
  assert (Hmessages : Conversation.messages Examples.bob <> [])
    by discriminate.
  destruct (thread_is_shown_in_ascending_id_order
              Examples.viewing_bob
              (UIManager.mkArea UIManager.Blank 0 600)
              Examples.bob eq_refl eq_refl Hmessages)
    as (_ & _ & _ & _ & _ & Hexample).
  apply Hexample. reflexivity.
Defined.

(** C6, as stated, fails for a thread of more than 100 messages: the
    page shows the conversation with 150 messages, the message with the id
    150 among them; at the top of an area of 600 pixels the fifteen
    messages with the lowest ids are displayed, and the message 150 is
    not. *)
Lemma long_thread_shows_a_window_only :
  (exists conversation : Conversation.t,
      StateManager.getActiveConversation
        (UIManager.store Examples.viewing_long_thread)
      = Some conversation /\
      List.length (Conversation.messages conversation) = 150%nat /\
      In 150%Z (map Message.id (Conversation.messages conversation))) /\
  UIManager.displayed_ids
    (UIManager.renderConversationThread Examples.viewing_long_thread)
  = [1; 2; 3; 4; 5; 6; 7; 8; 9; 10; 11; 12; 13; 14; 15]%Z /\
  ~ In 150%Z
      (UIManager.displayed_ids
         (UIManager.renderConversationThread Examples.viewing_long_thread)).
Proof.
  split; [|split].
  - eexists. split; [reflexivity|]. split; [reflexivity|].
    vm_compute. now left.
  - vm_compute. reflexivity.
  - vm_compute. intros H. repeat (destruct H as [H|H]; [discriminate|]).
    exact H.
Qed.

(** ** The conversation mapper *)

Section InitialsFacts.

Import ApiService.

Lemma split_not_nil (sep : ascii) (s : string) : JS.split sep s <> [].
Proof.
  destruct s as [|c r]; cbn; [discriminate|].
  destruct (Ascii.eqb c sep); [discriminate|].
  destruct (JS.split sep r); discriminate.
Qed.

Lemma space_is_space : JS.is_space " "%char = true.
Proof. reflexivity. Qed.

(** The first characters of the pieces of [split(' ')], the first piece
    included or not, are the characters that start a space-separated
    token. *)
Lemma split_heads (s : string) :
  JS.join_chars (map JS.char0 (JS.split " "%char s))
  = Spec.token_starts (Ascii.eqb " "%char) true s /\
  JS.join_chars (map JS.char0 (tl (JS.split " "%char s)))
  = Spec.token_starts (Ascii.eqb " "%char) false s.
Proof.
  induction s as [|c r [IHt IHf]].
  - split; reflexivity.
  - cbn [JS.split Spec.token_starts]. rewrite (Ascii.eqb_sym " "%char c).
    destruct (Ascii.eqb c " "%char).
    + cbn [map tl JS.char0 JS.join_chars]. split; assumption.
    + destruct (JS.split " "%char r) as [|t ts] eqn:Hsplit.
      * now apply split_not_nil in Hsplit.
      * cbn [map tl JS.char0 JS.join_chars] in *.
        split; [now rewrite IHf|assumption].
Qed.

(** White-space-separated and space-separated tokens are the same in a
    name whose only white space is the space character. *)
Lemma token_starts_only_spaces (s : string) :
  Spec.only_spaces s = true ->
  forall at_start : bool,
    Spec.token_starts JS.is_space at_start s
    = Spec.token_starts (Ascii.eqb " "%char) at_start s.
Proof.
  induction s as [|c r IH]; cbn [Spec.only_spaces]; intros Hs at_start;
    [reflexivity|].
  apply andb_true_iff in Hs. destruct Hs as [Hc Hr].
  cbn [Spec.token_starts]. rewrite (Ascii.eqb_sym " "%char c).
  destruct (Ascii.eqb_spec c " "%char) as [->|Hneq].
  - rewrite space_is_space. now apply IH.
  - rewrite orb_false_r in Hc. apply negb_true_iff in Hc. rewrite Hc.
    now rewrite !(IH Hr).
Qed.

Lemma getInitials_spec (name : string) :
  getInitials (Some name) = Some (Spec.initials_of_space_separated name) /\
  (Spec.only_spaces name = true ->
   getInitials (Some name) = Some (Spec.initials name)).
Proof.
  unfold getInitials, Spec.initials, Spec.initials_of_space_separated.
  rewrite (proj1 (split_heads name)). split; [reflexivity|].
  intros Hname. now rewrite (token_starts_only_spaces name Hname).
Qed.

(** What [mapConversationData] makes of an entry. *)
Lemma mapConversationData_fields (now : Z) (store : BlobStore)
  (number : RawConversation.t) (index : nat) :
  let c := fst (mapConversationData now store number index) in
  Conversation.initials c = getInitials (RawConversation.name number) /\
  Conversation.needsAttention c
  = negb (truthy (RawConversation.interview number)) /\
  (RawConversation.history number = None \/
   RawConversation.history number = Some [] ->
   Conversation.messages c = []).
Proof.
  cbn zeta. unfold mapConversationData.
  destruct (map_messages now store _) as [messages store'] eqn:Hmap.
  cbn. repeat split.
  intros [H|H]; rewrite H in Hmap; cbn in Hmap; now inversion Hmap.
Qed.

Lemma map_conversations_fields (now : Z) (numbers : list RawConversation.t) :
  forall (store : BlobStore) (index : nat),
    Forall2 (fun number c =>
               Conversation.initials c
               = getInitials (RawConversation.name number) /\
               Conversation.needsAttention c
               = negb (truthy (RawConversation.interview number)) /\
               (RawConversation.history number = None \/
                RawConversation.history number = Some [] ->
                Conversation.messages c = []))
            numbers (fst (map_conversations now store numbers index)).
Proof.
  induction numbers as [|number r IH]; intros store index; cbn.
  - constructor.
  - pose proof (mapConversationData_fields now store number index) as Hc.
    destruct (mapConversationData now store number index) as [c store1].
    specialize (IH store1 (S index)).
    destruct (map_conversations now store1 r (S index)) as [cs store2].
    cbn in *. now constructor.
Qed.

Lemma Forall2_weaken {A B : Type} (P Q : A -> B -> Prop)
  (xs : list A) (ys : list B) :
  (forall x y, P x y -> Q x y) -> Forall2 P xs ys -> Forall2 Q xs ys.
Proof. intros H HP. induction HP; constructor; auto. Qed.

End InitialsFacts.

(** C9, as amended. On a success envelope (status 200 with its list of
    entries) [fetchConversations] succeeds with one conversation for each
    entry, in order, and for each of them: the initials are, for every
    name, the first characters of the tokens of the name that the space
    character separates, uppercased and cut to 2 characters (which are the
    whitespace-separated tokens when the name has no white space other
    than spaces); an absent name gives [undefined] initials, with no
    exception; [needsAttention] is true exactly when the interview field
    is falsy (absent, [null], [false], 0 or the empty string); and an
    absent or empty history gives an empty message sequence. *)
Theorem fetchConversations_maps_each_entry :
  forall (now : Z) (store : ApiService.BlobStore)
         (numbers : list RawConversation.t) (message : option string),
  exists (data : list Conversation.t) (store' : ApiService.BlobStore),
    ApiService.fetchConversations now store
      (ApiService.Envelope 200 (Some numbers) message)
    = (ApiService.Success data, store') /\
    Forall2
      (fun number c =>
         (forall name : string,
             RawConversation.name number = Some name ->
             Conversation.initials c
             = Some (Spec.initials_of_space_separated name)) /\
         (forall name : string,
             RawConversation.name number = Some name ->
             Spec.only_spaces name = true ->
             Conversation.initials c = Some (Spec.initials name)) /\
         (RawConversation.name number = None ->
          Conversation.initials c = None) /\
         Conversation.needsAttention c
         = negb (truthy (RawConversation.interview number)) /\
         (RawConversation.interview number = Undefined \/
          RawConversation.interview number = Null ->
          Conversation.needsAttention c = true) /\
         (RawConversation.history number = None \/
          RawConversation.history number = Some [] ->
          Conversation.messages c = []))
      numbers data.
Proof.
  intros now store numbers message.
  pose proof (map_conversations_fields now numbers store 0) as Hfields.
  cbn [ApiService.fetchConversations]. rewrite Z.eqb_refl.
  destruct (ApiService.map_conversations now store numbers 0)
    as [data store'].
  exists data, store'. split; [reflexivity|].
  cbn [fst] in Hfields. revert Hfields. apply Forall2_weaken.
  intros number c (Hinitials & Hattention & Hhistory).
  split; [|split; [|split; [|split; [|split]]]].
  - intros name Hname. rewrite Hinitials, Hname.
    apply getInitials_spec.
  - intros name Hname Hspaces. rewrite Hinitials, Hname.
    now apply getInitials_spec.
  - intros Hname. now rewrite Hinitials, Hname.
  - assumption.
  - intros [H|H]; now rewrite Hattention, H.
  - assumption.
Qed.

(** The theorem at the envelope of the scenario: one entry, named
    "Ana Ruiz", with a [null] interview and an empty history. *)
Lemma fetchConversations_maps_each_entry_witness :
  match fst (ApiService.fetchConversations 0 [] Examples.scenario) with
  | ApiService.Success [c] =>
      Conversation.initials c = Some (JS.units "AR") /\
      Conversation.needsAttention c = true /\
      Conversation.messages c = []
  | _ => False
  end.
Proof.
  destruct (fetchConversations_maps_each_entry 0 [] [Examples.ana_raw] None)
    as (data & store' & Hfetch & Hdata).
  inversion Hdata as [|number c numbers cs Hc Hcs]; subst.
  inversion Hcs; subst.
  destruct Hc as (Hinitials & _ & _ & _ & Hattention & Hhistory).
  unfold Examples.scenario. rewrite Hfetch. cbn [fst].
  split; [|split].
  - apply (Hinitials "Ana Ruiz"). reflexivity.
  - apply Hattention. now right.
  - apply Hhistory. now right.
Defined.

(** C9, as stated, fails in two ways. The name is split at spaces only: a
    name with a TAB between its two words has two whitespace-separated
    tokens, whose first characters are A and R, and gets the initial of
    the first alone. And [needsAttention] is the negation of the interview
    field, so it is true also for a field that is present and [false]. *)
Lemma mapConversationData_splits_at_spaces_only :
  (Spec.initials Examples.tabbed_name = JS.units "AR" /\
   Conversation.initials
     (fst (ApiService.mapConversationData 0 [] Examples.tabbed_raw 0))
   = Some (JS.units "A")) /\
  (RawConversation.interview Examples.not_interviewed_raw <> Undefined /\
   RawConversation.interview Examples.not_interviewed_raw <> Null /\
   Conversation.needsAttention
     (fst (ApiService.mapConversationData 0 []
             Examples.not_interviewed_raw 0))
   = true).
Proof. repeat split; discriminate. Qed.

(** ** Audio payloads *)

Section Base64Facts.

Import ApiService.

Lemma b64_char_plain (c : ascii) :
  JS.is_b64_char c = true ->
  JS.is_ascii_whitespace c = false /\ Ascii.eqb c JS.eq_sign = false.
Proof.
  destruct c as [[] [] [] [] [] [] [] []]; vm_compute; intros H;
    try discriminate H; split; reflexivity.
Qed.

Lemma list_of_append (a b : string) :
  list_ascii_of_string (String.append a b)
  = list_ascii_of_string a ++ list_ascii_of_string b.
Proof. induction a as [|c a IH]; cbn; [reflexivity|]. now rewrite IH. Qed.

Lemma list_of_length (a : string) :
  List.length (list_ascii_of_string a) = String.length a.
Proof. induction a as [|c a IH]; cbn; [reflexivity|]. now rewrite IH. Qed.

Lemma all_b64_list (a : string) :
  forallb JS.is_b64_char (list_ascii_of_string a) = Spec.all_b64 a.
Proof. induction a as [|c a IH]; cbn; [reflexivity|]. now rewrite IH. Qed.

(** The pattern splits a string into its longest prefix within the
    alphabet and the rest. *)
Lemma b64_prefix (s : string) :
  exists body : string,
    s = String.append body (after_b64_chars s) /\ Spec.all_b64 body = true.
Proof.
  induction s as [|c r (body & Hr & Hbody)]; cbn.
  - exists "". split; reflexivity.
  - destruct (JS.is_b64_char c) eqn:Hc.
    + exists (String c body). cbn. rewrite Hc, Hbody, <- Hr. split; reflexivity.
    + exists "". split; reflexivity.
Qed.

Lemma after_b64_append (body pad : string) :
  Spec.all_b64 body = true ->
  (pad = "" \/ pad = "=" \/ pad = "==") ->
  after_b64_chars (String.append body pad) = pad.
Proof.
  intros Hbody Hpad. induction body as [|c body IH]; cbn in *.
  - destruct Hpad as [->|[->| ->]]; reflexivity.
  - apply andb_true_iff in Hbody. destruct Hbody as [Hc Hbody].
    rewrite Hc. now apply IH.
Qed.

Lemma filter_plain (l : list ascii) (pad : list ascii) :
  forallb JS.is_b64_char l = true ->
  (pad = [] \/ pad = [JS.eq_sign] \/ pad = [JS.eq_sign; JS.eq_sign]) ->
  filter (fun c => negb (JS.is_ascii_whitespace c)) (l ++ pad) = l ++ pad.
Proof.
  intros Hl Hpad. induction l as [|c l IH]; cbn in *.
  - destruct Hpad as [->|[->| ->]]; reflexivity.
  - apply andb_true_iff in Hl. destruct Hl as [Hc Hl].
    destruct (b64_char_plain c Hc) as [Hws _]. rewrite Hws. cbn.
    now rewrite IH.
Qed.

Lemma last_is_plain (l : list ascii) (p : ascii) (r : list ascii) :
  forallb JS.is_b64_char l = true -> rev l = p :: r ->
  Ascii.eqb p JS.eq_sign = false.
Proof.
  intros Hl Hrev. apply b64_char_plain.
  apply (proj1 (forallb_forall _ _) Hl). apply in_rev. rewrite Hrev. now left.
Qed.

Lemma strip_padding_none (l : list ascii) :
  forallb JS.is_b64_char l = true -> JS.strip_padding l = l.
Proof.
  intros Hl. unfold JS.strip_padding.
  destruct (rev l) as [|p [|q r]] eqn:Hrev; [reflexivity| |];
    now rewrite (last_is_plain l p _ Hl Hrev).
Qed.

Lemma strip_padding_one (l : list ascii) :
  forallb JS.is_b64_char l = true ->
  JS.strip_padding (l ++ [JS.eq_sign]) = l.
Proof.
  intros Hl. unfold JS.strip_padding. rewrite rev_app_distr. cbn [rev app].
  destruct (rev l) as [|q r] eqn:Hrev.
  - cbn. apply (f_equal (@rev ascii)) in Hrev.
    rewrite rev_involutive in Hrev. now rewrite Hrev.
  - rewrite Ascii.eqb_refl, (last_is_plain l q r Hl Hrev).
    apply (f_equal (@rev ascii)) in Hrev.
    rewrite rev_involutive in Hrev. now rewrite Hrev.
Qed.

Lemma strip_padding_two (l : list ascii) :
  JS.strip_padding (l ++ [JS.eq_sign; JS.eq_sign]) = l.
Proof.
  unfold JS.strip_padding. rewrite rev_app_distr. cbn [rev app].
  rewrite !Ascii.eqb_refl. apply rev_involutive.
Qed.

Lemma forallb_padded (l pad : list ascii) :
  pad = [JS.eq_sign] \/ pad = [JS.eq_sign; JS.eq_sign] ->
  forallb JS.is_b64_char (l ++ pad) = false.
Proof.
  intros Hpad. rewrite forallb_app.
  destruct Hpad as [H|H]; subst pad; cbn; apply andb_false_r.
Qed.

End Base64Facts.

Section DecoderFacts.

Import ApiService.

Ltac padding_cases :=
  split;
  [ intros Hsome; try (exfalso; apply Hsome; reflexivity);
    first [ left; split; [reflexivity|lia]
          | right; left; split; [reflexivity|lia]
          | right; right; split; [reflexivity|lia] ]
  | intros [[Hp Hn]|[[Hp Hn]|[Hp Hn]]];
    try discriminate Hp; try (exfalso; lia); discriminate ].

(** [atob] accepts characters of the alphabet followed by padding exactly
    when the padding is the one their number calls for, or is left out. *)
Lemma atob_padded (body pad : string) :
  Spec.all_b64 body = true ->
  (pad = "" \/ pad = "=" \/ pad = "==") ->
  JS.atob (String.append body pad) <> None <->
  ((pad = "" /\ (String.length body mod 4 <> 1)%nat) \/
   (pad = "=" /\ (String.length body mod 4 = 3)%nat) \/
   (pad = "==" /\ (String.length body mod 4 = 2)%nat)).
Proof.
  intros Hbody Hpad. unfold JS.atob. rewrite list_of_append.
  rewrite <- all_b64_list in Hbody. rewrite <- (list_of_length body).
  set (lb := list_ascii_of_string body) in *.
  rewrite filter_plain;
    [|assumption|destruct Hpad as [->|[->| ->]]; cbn; auto].
  destruct Hpad as [->|[->| ->]]; cbn [list_ascii_of_string].
  - rewrite app_nil_r.
    destruct (Nat.eqb_spec (List.length lb mod 4) 0) as [H0|H0].
    + rewrite strip_padding_none by assumption.
      destruct (Nat.eqb_spec (List.length lb mod 4) 1) as [H1|H1]; [lia|].
      rewrite Hbody. padding_cases.
    + destruct (Nat.eqb_spec (List.length lb mod 4) 1) as [H1|H1].
      * padding_cases.
      * rewrite Hbody. padding_cases.
  - change [ "="%char ] with [JS.eq_sign].
    destruct (Nat.eqb_spec (List.length (lb ++ [JS.eq_sign]) mod 4) 0)
      as [H0|H0]; rewrite length_app in H0; cbn [List.length] in H0.
    + rewrite strip_padding_one by assumption.
      destruct (Nat.eqb_spec (List.length lb mod 4) 1) as [H1|H1]; [lia|].
      rewrite Hbody. padding_cases.
    + rewrite forallb_padded by auto.
      destruct (_ =? 1)%nat; padding_cases.
  - change [ "="%char; "="%char ] with [JS.eq_sign; JS.eq_sign].
    destruct (Nat.eqb_spec
                (List.length (lb ++ [JS.eq_sign; JS.eq_sign]) mod 4) 0)
      as [H0|H0]; rewrite length_app in H0; cbn [List.length] in H0.
    + rewrite strip_padding_two.
      destruct (Nat.eqb_spec (List.length lb mod 4) 1) as [H1|H1]; [lia|].
      rewrite Hbody. padding_cases.
    + rewrite forallb_padded by auto.
      destruct (_ =? 1)%nat; padding_cases.
Qed.

(** The two checks of the code together, the pattern and [atob], accept
    the well-formed base64 strings and no others. *)
Lemma accepted_iff_well_formed (s : string) :
  (base64_pattern s = true /\ JS.atob s <> None) <->
  Spec.well_formed_base64 s.
Proof.
  split.
  - intros [Hpattern Hatob].
    destruct (b64_prefix s) as (body & Hs & Hbody).
    unfold base64_pattern in Hpattern.
    assert (Hpad : after_b64_chars s = "" \/ after_b64_chars s = "="
                   \/ after_b64_chars s = "==").
    { apply orb_true_iff in Hpattern. destruct Hpattern as [Hp|Hp].
      - apply orb_true_iff in Hp. destruct Hp as [Hp|Hp];
          apply String.eqb_eq in Hp; auto.
      - apply String.eqb_eq in Hp. auto. }
    exists body, (after_b64_chars s). split; [exact Hs|]. split; [exact Hbody|].
    apply (atob_padded body _ Hbody Hpad). now rewrite <- Hs.
  - intros (body & pad & -> & Hbody & Hcases).
    assert (Hpad : pad = "" \/ pad = "=" \/ pad = "==").
    { destruct Hcases as [[H _]|[[H _]|[H _]]]; auto. }
    split.
    + unfold base64_pattern. rewrite (after_b64_append body pad Hbody Hpad).
      destruct Hpad as [->|[->| ->]]; reflexivity.
    + now apply atob_padded.
Qed.

End DecoderFacts.

Section AudioFacts.

Import ApiService.


Lemma resolve_new (store : BlobStore) (blob : Blob) :
  resolve (store ++ [blob]) (List.length store) = Some blob.
Proof. unfold resolve. apply nth_error_middle. Qed.

End AudioFacts.

Section DataUrlFacts.

Import ApiService.

Lemma startsWith_split (s p : string) :
  JS.startsWith s p = true -> exists r, s = String.append p r.
Proof.
  revert s. induction p as [|a p IH]; intros s H; cbn in *.
  - now exists s.
  - destruct s as [|b s]; [discriminate|].
    apply andb_true_iff in H. destruct H as [Hab Hs].
    apply Ascii.eqb_eq in Hab. subst b.
    destruct (IH s Hs) as [r ->]. now exists r.
Qed.

Lemma startsWith_nil (s : string) : JS.startsWith s "" = true.
Proof. now destruct s. Qed.

(** The type pattern stops at the first [;]. *)
Lemma span_mime_type (type rest : string) :
  Spec.no_semicolon type = true ->
  span_mime (String.append type (String ";"%char rest))
  = (type, String ";"%char rest).
Proof.
  induction type as [|c type IH]; cbn; intros H; [reflexivity|].
  apply andb_true_iff in H. destruct H as [Hc Htype].
  apply negb_true_iff in Hc. rewrite Hc, (IH Htype). reflexivity.
Qed.

Lemma span_mime_parts (s : string) :
  let (type, rest) := span_mime s in
  s = String.append type rest /\ Spec.no_semicolon type = true.
Proof.
  induction s as [|c r IH]; cbn; [split; reflexivity|].
  destruct (Ascii.eqb c ";"%char) eqn:Hc; [split; reflexivity|].
  destruct (span_mime r) as [type rest]. destruct IH as [-> Htype].
  split; [reflexivity|].
  unfold Spec.no_semicolon in *. cbn [JS.all_chars].
  now rewrite Hc, Htype.
Qed.

(** The pattern of the code matches the plain data URLs and no other
    payload, and captures their type. *)
Lemma match_data_url_plain (payload type data : string) :
  match_data_url payload = Some (type, data) <->
  Spec.plain_data_url payload type data.
Proof.
  unfold match_data_url, Spec.plain_data_url. split.
  - destruct (JS.startsWith payload "data:") eqn:Hdata; [|discriminate].
    destruct (startsWith_split payload "data:" Hdata) as [r ->].
    cbn [drop String.append].
    pose proof (span_mime_parts r) as Hparts.
    destruct (span_mime r) as [mime rest]. destruct Hparts as [-> Hmime].
    destruct (String.eqb_spec mime "") as [|Hnonempty]; [discriminate|].
    destruct (JS.startsWith rest ";base64,") eqn:Hrest; [|discriminate].
    destruct (startsWith_split rest ";base64," Hrest) as [d ->].
    cbn [drop String.append]. intros H. inversion H; subst type data.
    repeat split; assumption.
  - intros (Hnonempty & Htype & ->).
    cbn [JS.startsWith String.append Ascii.eqb Bool.eqb andb drop].
    rewrite (span_mime_type type _ Htype).
    apply String.eqb_neq in Hnonempty. rewrite Hnonempty.
    cbn [JS.startsWith Ascii.eqb Bool.eqb andb drop].
    now rewrite !startsWith_nil.
Qed.


End DataUrlFacts.




(** The blob of the first record of the witness: the four decoded bytes,
    typed by the sniffed container. *)
Example audio_blob_of_OggS :
  snd (ApiService.mapMessageData 0 [] Examples.raw_audio)
  = [ApiService.mkBlob "OggS" "audio/ogg"].
Proof. reflexivity. Qed.

(** ** The platform functions on small inputs *)

Example atob_decodes : JS.atob "T2dnUw==" = Some "OggS".
Proof. reflexivity. Qed.

Example atob_without_padding : JS.atob "QUI" = Some "AB".
Proof. reflexivity. Qed.

Example atob_rejects_one_left_over : JS.atob "QUJDR" = None.
Proof. reflexivity. Qed.

Example split_keeps_empty_pieces :
  JS.split " "%char " Ana  Ruiz" = [""; "Ana"; ""; "Ruiz"].
Proof. reflexivity. Qed.

Example getInitials_of_three_words :
  ApiService.getInitials (Some "ana maria ruiz") = Some (JS.units "AM").
Proof. reflexivity. Qed.

(** Letters beyond a-z: e-acute (233) gives E-acute (201), sharp s gives
    two code units, of which the cut keeps the initials' first two. *)
Example getInitials_beyond_ascii :
  ApiService.getInitials
    (Some (String.append (String (ascii_of_nat 233) "lan ") "vital"))
  = Some [201; 86]%N /\
  ApiService.getInitials (Some (String (ascii_of_nat 223) " x"))
  = Some [83; 83]%N /\
  ApiService.getInitials (Some (String (ascii_of_nat 255) "")) = Some [376]%N.
Proof. repeat split. Qed.

(** The search folds the case of every letter: a name with e-acute is
    found by the query with E-acute. *)
Example toLowerCase_beyond_ascii :
  JS.toLowerCase (String.append "JOS" (String (ascii_of_nat 201) ""))
  = String.append "jos" (String (ascii_of_nat 233) "").
Proof. reflexivity. Qed.

Example trim_both_ends : JS.trim "  hola  mundo " = "hola  mundo".
Proof. reflexivity. Qed.

(** In manual mode the text is sent: the event is dispatched, the request
    for the active conversation is issued and the input is cleared. *)
Example handleSendMessage_in_manual_mode :
  let ui :=
    UIManager.handleSendMessage
      (Examples.page_of
         (StateManager.setManualMode true
            (Examples.store_of [Examples.ana; Examples.bob] (Some "c2")
                               "" "all"))
         " hola ") in
  UIManager.dispatched ui = [("sendMessage", "hola")] /\
  UIManager.requests ui
  = [UIManager.mkRequest
       "https://broadcast-system-d7ca773e62c8.herokuapp.com/m/send/to/single/number"
       (Some "+5215550002") "hola"] /\
  UIManager.messageInput ui = "".
Proof. repeat split. Qed.


(** The ids [fetchConversations] gives: "c" and the position, from 1. *)
Example ids_of_two_entries :
  match fst (ApiService.fetchConversations 0 []
               (ApiService.Envelope 200
                  (Some [Examples.ana_raw; Examples.tabbed_raw]) None)) with
  | ApiService.Success data => map Conversation.id data = ["c1"; "c2"]
  | ApiService.Failure _ => False
  end.
Proof. reflexivity. Qed.

(** An envelope with another status is a failure with the message of the
    envelope, or the default one. *)
Example failure_envelope :
  fst (ApiService.fetchConversations 0 []
         (ApiService.Envelope 500 None None))
  = ApiService.Failure "Error loading conversations".
Proof. reflexivity. Qed.

(* ===================================================================== *)
(** * Further properties of the code *)
(* ===================================================================== *)

(** ** The store: subscriptions, upserts, lookups *)

Section SubscriptionFacts.

Import StateManager.

Lemma remove_at_middle {A : Type} (pre post : list A) (x : A) :
  remove_at (List.length pre) (pre ++ x :: post) = pre ++ post.
Proof. induction pre; cbn; [reflexivity|]. now f_equal. Qed.

Lemma round_ids (snapshot : State) (subs : list Callback) :
  map fst (Spec.round snapshot subs) = map cb_id subs.
Proof. unfold Spec.round. rewrite map_map. reflexivity. Qed.

End SubscriptionFacts.

(** X1. The function [subscribe] returns removes the first subscription
    of the callback and nothing else: the subscribers before and after it
    keep their order, the state and the trace are untouched. If the
    callback was subscribed once, a later [setState] does not call it, and
    calling the function again changes nothing. *)
Theorem unsubscribe_removes_first_subscription :
  forall (cb : StateManager.Callback) (st : StateManager.t)
         (pre post : list StateManager.Callback),
    StateManager.subscribers st = pre ++ cb :: post ->
    (forall c, In c pre -> StateManager.cb_id c <> StateManager.cb_id cb) ->
    let st' := StateManager.unsubscribe cb st in
    StateManager.subscribers st' = pre ++ post /\
    StateManager.state st' = StateManager.state st /\
    StateManager.invocations st' = StateManager.invocations st /\
    ((forall c, In c post ->
                StateManager.cb_id c <> StateManager.cb_id cb) ->
     StateManager.unsubscribe cb st' = st' /\
     forall updates : StateManager.Updates,
       ~ In (StateManager.cb_id cb)
            (map fst
               (skipn (List.length (StateManager.invocations st))
                      (StateManager.invocations
                         (StateManager.setState updates st'))))).
Proof.
  intros cb st pre post Hsubs Hpre st'.
  assert (Hfind : JS.findIndex
                    (fun c => Nat.eqb (StateManager.cb_id c)
                                      (StateManager.cb_id cb))
                    (StateManager.subscribers st)
                  = Some (List.length pre)).
  { rewrite Hsubs. apply findIndex_first.
    - intros c Hc. apply Nat.eqb_neq. now apply Hpre.
    - apply Nat.eqb_refl. }
  assert (Hst' : st' = StateManager.with_subscribers st (pre ++ post)).
  { subst st'. unfold StateManager.unsubscribe. rewrite Hfind, Hsubs.
    now rewrite remove_at_middle. }
  rewrite Hst'. cbn [StateManager.with_subscribers StateManager.subscribers
                     StateManager.state StateManager.invocations].
  split; [reflexivity|]. split; [reflexivity|]. split; [reflexivity|].
  intros Hpost. split.
  - unfold StateManager.unsubscribe.
    cbn [StateManager.with_subscribers StateManager.subscribers].
    assert (Hnone : JS.findIndex
                      (fun c => Nat.eqb (StateManager.cb_id c)
                                        (StateManager.cb_id cb))
                      (pre ++ post) = None).
    { apply findIndex_None. intros c Hc. apply Nat.eqb_neq.
      apply in_app_or in Hc. destruct Hc; auto. }
    now rewrite Hnone.
  - intros updates Hin.
    destruct (setState_spec updates
                (StateManager.with_subscribers st (pre ++ post)))
      as (_ & _ & Hinv & _).
    cbn [StateManager.with_subscribers StateManager.subscribers
         StateManager.state StateManager.invocations] in Hinv.
    rewrite Hinv, skipn_app, skipn_all, Nat.sub_diag in Hin.
    cbn [skipn app] in Hin. rewrite round_ids in Hin.
    apply in_map_iff in Hin. destruct Hin as (c & Hid & Hc).
    apply in_app_or in Hc. destruct Hc as [Hc|Hc].
    + now apply (Hpre c Hc).
    + now apply (Hpost c Hc).
Qed.

(** The theorem at a store with three subscribers, the second of which
    unsubscribes. *)
Lemma unsubscribe_removes_first_subscription_witness :
  map StateManager.cb_id
      (StateManager.subscribers
         (StateManager.unsubscribe Examples.faulty
            Examples.two_conversations))
  = [1; 3]%nat.
Proof.
  destruct (unsubscribe_removes_first_subscription Examples.faulty
              Examples.two_conversations [Examples.quiet] [Examples.late]
              eq_refl) as (Hsubs & _).
  - intros c [<-|[]]. cbn. discriminate.
  - rewrite Hsubs. reflexivity.
Defined.

Section UpsertInvariants.

Import StateManager.

Lemma filter_other_ids (id : string) (pre post : list Conversation.t)
  (x y : Conversation.t) :
  Conversation.id x = id -> Conversation.id y = id ->
  filter (fun c => negb (String.eqb (Conversation.id c) id)) (pre ++ x :: post)
  = filter (fun c => negb (String.eqb (Conversation.id c) id))
           (pre ++ y :: post).
Proof.
  intros Hx Hy. rewrite !filter_app. cbn [filter].
  now rewrite Hx, Hy, String.eqb_refl.
Qed.

Lemma filter_keeps_all {A : Type} (p : A -> bool) (xs : list A) :
  (forall x, In x xs -> p x = true) -> filter p xs = xs.
Proof.
  induction xs as [|x xs IH]; cbn; intros H; [reflexivity|].
  rewrite (H x (or_introl eq_refl)). f_equal. apply IH.
  intros y Hy. apply H. now right.
Qed.

End UpsertInvariants.

(** X2. [updateConversation] keeps the other conversations as they are
    and in their order, and the payload is in the list afterwards. When
    the id is new, the payload is appended at the end; when it is known,
    the list keeps its length and its sequence of ids. So a list whose ids
    are pairwise distinct stays one. *)
Theorem updateConversation_keeps_ids_distinct :
  forall (conversation : Conversation.t) (st : StateManager.t),
    let id := Conversation.id conversation in
    let before := StateManager.conversations (StateManager.state st) in
    let after :=
      StateManager.conversations
        (StateManager.state
           (StateManager.updateConversation conversation st)) in
    let other c := negb (String.eqb (Conversation.id c) id) in
    In conversation after /\
    filter other after = filter other before /\
    (Spec.entries_with_id id before = 0%nat ->
     after = before ++ [conversation]) /\
    (Spec.entries_with_id id before <> 0%nat ->
     map Conversation.id after = map Conversation.id before) /\
    (NoDup (map Conversation.id before) ->
     NoDup (map Conversation.id after)).
Proof.
  intros c st id before after other. subst after.
  rewrite updateConversation_list. fold before.
  destruct (JS.findIndex _ before) as [i|] eqn:Hfind.
  - apply findIndex_Some in Hfind.
    destruct Hfind as (pre & x & post & Hbefore & <- & Hx & Hpre).
    apply String.eqb_eq in Hx. rewrite Hbefore, set_index_middle.
    assert (Hids : map Conversation.id (pre ++ c :: post)
                   = map Conversation.id (pre ++ x :: post)).
    { rewrite !map_app. cbn [map]. now rewrite Hx. }
    split; [apply in_or_app; right; now left|].
    split; [now apply filter_other_ids|].
    split.
    + intros Hzero. exfalso. rewrite entries_app, entries_cons in Hzero.
      fold id in Hx. rewrite Hx, String.eqb_refl in Hzero. lia.
    + split; [intros _; exact Hids|]. intros Hnodup. now rewrite Hids.
  - pose proof (proj1 (findIndex_None _ before) Hfind) as Hnone.
    split; [apply in_or_app; right; now left|].
    split.
    + rewrite filter_app. cbn [filter]. unfold other at 2.
      rewrite String.eqb_refl. cbn [negb]. now rewrite app_nil_r.
    + split; [reflexivity|]. split.
      * intros Hnonzero. exfalso. apply Hnonzero.
        now apply entries_none.
      * intros Hnodup. rewrite map_app. cbn [map].
        apply NoDup_app; [assumption|repeat constructor; intros []|].
        intros y Hy [<-|[]]. apply in_map_iff in Hy.
        destruct Hy as (x & Hid & Hx).
        specialize (Hnone x Hx). apply String.eqb_neq in Hnone.
        contradiction.
Qed.

(** The theorem at a store of two conversations, updated with a third. *)
Lemma updateConversation_keeps_ids_distinct_witness :
  NoDup (map Conversation.id
             (StateManager.conversations
                (StateManager.state
                   (StateManager.updateConversation Examples.group
                      Examples.two_conversations)))).
Proof.
  destruct (updateConversation_keeps_ids_distinct Examples.group
              Examples.two_conversations) as (_ & _ & _ & _ & Hnodup).
  apply Hnodup. cbn.
  repeat constructor; cbn; intros H; repeat (destruct H as [H|H]);
    try discriminate H; exact H.
Defined.

Section AddMessageInvariants.

Import StateManager.

(** The conversations after [addMessage], by cases on the id. *)
Lemma addMessage_cases (conversationId : string) (message : Message.t)
  (st : t) :
  (Spec.entries_with_id conversationId (conversations (state st)) = 0%nat /\
   addMessage conversationId message st = st) \/
  (exists pre c post,
      conversations (state st) = pre ++ c :: post /\
      Conversation.id c = conversationId /\
      Spec.entries_with_id conversationId (conversations (state st))
      <> 0%nat /\
      conversations (state (addMessage conversationId message st))
      = pre ++ Conversation.with_messages c
                 (Conversation.messages c ++ [message]) :: post).
Proof.
  destruct (JS.findIndex
              (fun c => String.eqb (Conversation.id c) conversationId)
              (conversations (state st))) as [i|] eqn:Hfind.
  - right. apply findIndex_Some in Hfind.
    destruct Hfind as (pre & c & post & Hcs & _ & Hc & Hpre).
    apply String.eqb_eq in Hc. exists pre, c, post.
    split; [exact Hcs|]. split; [exact Hc|]. split.
    + rewrite Hcs, entries_app, entries_cons, Hc, String.eqb_refl. lia.
    + rewrite (addMessage_known conversationId message st pre post c Hcs);
        [|intros x Hx; apply String.eqb_neq; now apply Hpre|exact Hc].
      match goal with
      | |- context [setState ?u st] =>
          destruct (setState_spec u st) as (Hs & _); rewrite Hs
      end.
      reflexivity.
  - left. pose proof (proj1 (findIndex_None _ _) Hfind) as Hnone.
    split; [now apply entries_none|].
    apply addMessage_unknown. intros c Hc. apply String.eqb_neq.
    now apply Hnone.
Qed.

Lemma Forall2_same {A : Type} (R : A -> A -> Prop) (xs : list A) :
  (forall x, R x x) -> Forall2 R xs xs.
Proof. intros H. induction xs; constructor; auto. Qed.

End AddMessageInvariants.

(** X3. [addMessage] never drops, reorders or renames anything: the
    conversations keep their sequence of ids, each conversation keeps the
    messages it had, in order, with at most the new message after them,
    and the number of messages in the store grows by one when the id is
    known and by none when it is not. *)
Theorem addMessage_only_appends :
  forall (conversationId : string) (message : Message.t)
         (st : StateManager.t),
    let before := StateManager.conversations (StateManager.state st) in
    let after :=
      StateManager.conversations
        (StateManager.state
           (StateManager.addMessage conversationId message st)) in
    map Conversation.id after = map Conversation.id before /\
    Forall2 (fun b a =>
               Conversation.messages a = Conversation.messages b \/
               (Conversation.id b = conversationId /\
                Conversation.messages a
                = Conversation.messages b ++ [message]))
            before after /\
    List.length (flat_map Conversation.messages after)
    = (List.length (flat_map Conversation.messages before)
       + if (Spec.entries_with_id conversationId before =? 0)%nat
         then 0 else 1)%nat.
Proof.
  intros cid m st before after. subst after.
  destruct (addMessage_cases cid m st)
    as [[Hzero Hsame]|(pre & c & post & Hcs & Hc & Hknown & Hafter)].
  - rewrite Hsame. fold before in Hzero |- *. rewrite Hzero. cbn [Nat.eqb].
    split; [reflexivity|]. split; [|lia].
    apply Forall2_same. intros x. now left.
  - rewrite Hafter. fold before in Hknown, Hcs. rewrite Hcs.
    apply Nat.eqb_neq in Hknown. rewrite <- Hcs, Hknown, Hcs.
    split; [|split].
    + rewrite !map_app. reflexivity.
    + apply Forall2_app; [apply Forall2_same; intros x; now left|].
      constructor; [right; split; [exact Hc|reflexivity]|].
      apply Forall2_same. intros x. now left.
    + rewrite !flat_map_app. cbn [flat_map Conversation.messages
                                   Conversation.with_messages].
      rewrite !length_app. cbn [List.length]. lia.
Qed.

Section AddMessageState.

Import StateManager.

(** The list and the active id after [addMessage] on a known id. *)
Lemma addMessage_known_parts (conversationId : string)
  (message : Message.t) (st : t) (pre post : list Conversation.t)
  (c : Conversation.t) :
  conversations (state st) = pre ++ c :: post ->
  (forall x, In x pre -> Conversation.id x <> conversationId) ->
  Conversation.id c = conversationId ->
  conversations (state (addMessage conversationId message st))
  = pre ++ Conversation.with_messages c
             (Conversation.messages c ++ [message]) :: post /\
  activeConversationId (state (addMessage conversationId message st))
  = activeConversationId (state st).
Proof.
  intros Hcs Hpre Hc.
  rewrite (addMessage_known conversationId message st pre post c Hcs Hpre Hc).
  match goal with
  | |- context [setState ?u st] =>
      destruct (setState_spec u st) as (Hs & _); rewrite Hs
  end.
  split; reflexivity.
Qed.

End AddMessageState.

Section ActiveConversationFacts.

Import StateManager.

Lemma find_first {A : Type} (p : A -> bool) (pre post : list A) (x : A) :
  (forall y, In y pre -> p y = false) -> p x = true ->
  find p (pre ++ x :: post) = Some x.
Proof.
  intros Hpre Hx. induction pre as [|y pre IH]; cbn.
  - now rewrite Hx.
  - rewrite (Hpre y (or_introl eq_refl)). apply IH.
    intros z Hz. apply Hpre. now right.
Qed.

Lemma find_none {A : Type} (p : A -> bool) (xs : list A) :
  (forall y, In y xs -> p y = false) -> find p xs = None.
Proof.
  induction xs as [|y xs IH]; cbn; intros H; [reflexivity|].
  rewrite (H y (or_introl eq_refl)). apply IH.
  intros z Hz. apply H. now right.
Qed.

Lemma setActiveConversation_state (conversationId : string) (st : t) :
  state (setActiveConversation conversationId st)
  = {| conversations := conversations (state st);
       activeConversationId := Some conversationId;
       isManualMode := isManualMode (state st);
       isLoading := isLoading (state st);
       searchQuery := searchQuery (state st);
       selectedFilter := selectedFilter (state st) |}.
Proof.
  unfold setActiveConversation.
  match goal with
  | |- context [setState ?u st] =>
      destruct (setState_spec u st) as (Hs & _); rewrite Hs
  end.
  reflexivity.
Qed.

End ActiveConversationFacts.

(** X4. After [setActiveConversation(id)], [getActiveConversation]
    returns the first conversation of the store with that id, and [null]
    when no conversation has it (the id is stored all the same). A
    message added to that id afterwards is in what
    [getActiveConversation] returns next: a record with the same id and
    name whose messages are those of before followed by the message. *)
Theorem getActiveConversation_after_select :
  forall (conversationId : string) (st : StateManager.t),
    let st' := StateManager.setActiveConversation conversationId st in
    StateManager.activeConversationId (StateManager.state st')
    = Some conversationId /\
    ((forall c,
         In c (StateManager.conversations (StateManager.state st)) ->
         Conversation.id c <> conversationId) ->
     StateManager.getActiveConversation st' = None) /\
    (forall (pre post : list Conversation.t) (c : Conversation.t)
            (message : Message.t),
        StateManager.conversations (StateManager.state st)
        = pre ++ c :: post ->
        (forall x, In x pre -> Conversation.id x <> conversationId) ->
        Conversation.id c = conversationId ->
        StateManager.getActiveConversation st' = Some c /\
        exists c' : Conversation.t,
          StateManager.getActiveConversation
            (StateManager.addMessage conversationId message st')
          = Some c' /\
          Conversation.messages c' = Conversation.messages c ++ [message] /\
          In message (Conversation.messages c') /\
          Conversation.id c' = conversationId /\
          Conversation.name c' = Conversation.name c /\
          Conversation.number c' = Conversation.number c).
Proof.
  intros cid st st'.
  pose proof (setActiveConversation_state cid st) as Hstate. fold st' in Hstate.
  split; [now rewrite Hstate|]. split.
  - intros Hnone. unfold StateManager.getActiveConversation.
    rewrite Hstate. cbn [StateManager.activeConversationId
                         StateManager.conversations].
    apply find_none. intros c Hc. apply String.eqb_neq. now apply Hnone.
  - intros pre post c m Hcs Hpre Hc.
    assert (Hcs' : StateManager.conversations (StateManager.state st')
                   = pre ++ c :: post) by now rewrite Hstate.
    split.
    + unfold StateManager.getActiveConversation. rewrite Hstate.
      cbn [StateManager.activeConversationId StateManager.conversations].
      rewrite Hcs. apply find_first.
      * intros x Hx. apply String.eqb_neq. now apply Hpre.
      * now apply String.eqb_eq.
    + destruct (addMessage_known_parts cid m st' pre post c
                  Hcs' Hpre Hc) as (Hlist & Hactive).
      exists (Conversation.with_messages c (Conversation.messages c ++ [m])).
      split.
      * unfold StateManager.getActiveConversation.
        rewrite Hactive, Hlist, Hstate.
        cbn [StateManager.activeConversationId].
        apply find_first.
        -- intros x Hx. apply String.eqb_neq. now apply Hpre.
        -- cbn. now apply String.eqb_eq.
      * destruct (with_messages_fields c (Conversation.messages c ++ [m]))
          as (Hms & Hid & Hname & _ & Hnumber & _).
        split; [exact Hms|]. split.
        { rewrite Hms. apply in_or_app. right. now left. }
        split; [now rewrite Hid|]. split; [exact Hname | exact Hnumber].
Qed.

(** The theorem at a store of two conversations, the second selected,
    and a message added to it. *)
Lemma getActiveConversation_after_select_witness :
  (StateManager.getActiveConversation
     (StateManager.setActiveConversation "c2" Examples.two_conversations)
   = Some Examples.bob /\
   exists c' : Conversation.t,
     StateManager.getActiveConversation
       (StateManager.addMessage "c2" (Examples.msg 7 "seven")
          (StateManager.setActiveConversation "c2"
             Examples.two_conversations))
     = Some c' /\
     Conversation.messages c'
     = [Examples.msg 5 "five"; Examples.msg 1 "one"; Examples.msg 3 "three";
        Examples.msg 7 "seven"]) /\
  StateManager.getActiveConversation
    (StateManager.setActiveConversation "c9" Examples.two_conversations)
  = None.
Proof.
  split.
  - destruct (getActiveConversation_after_select "c2"
                Examples.two_conversations) as (_ & _ & Hknown).
    destruct (Hknown [Examples.ana] [] Examples.bob (Examples.msg 7 "seven"))
      as (Hselected & c' & Hnext & Hmessages & _).
    + reflexivity.
    + intros x [<-|[]]. vm_compute. discriminate.
    + reflexivity.
    + split; [exact Hselected|]. exists c'.
      split; [exact Hnext | exact Hmessages].
  - destruct (getActiveConversation_after_select "c9"
                Examples.two_conversations) as (_ & Hunknown & _).
    apply Hunknown. intros c [<-|[<-|[]]]; vm_compute; discriminate.
Defined.

Section FilteredFacts.

Import StateManager.

Lemma filter_throwing_is_filter {A : Type} (p : A -> Result bool)
  (xs result : list A) :
  filter_throwing p xs = Ok result ->
  result = filter (fun x => match p x with
                            | Ok b => b
                            | Throw _ => false
                            end) xs.
Proof.
  revert result. induction xs as [|x xs IH]; cbn; intros result H.
  - now inversion H.
  - destruct (p x) as [b|e]; [|discriminate].
    destruct (filter_throwing p xs) as [r|e]; [|discriminate].
    inversion H. rewrite (IH r eq_refl). now destruct b.
Qed.

Lemma filter_twice {A : Type} (p q : A -> bool) (xs : list A) :
  filter q (filter p xs) = filter (fun x => p x && q x) xs.
Proof.
  induction xs as [|x xs IH]; cbn; [reflexivity|].
  destruct (p x); cbn; [destruct (q x)|]; now rewrite IH.
Qed.

End FilteredFacts.

(** X5. Whatever the query and the filter, what
    [getFilteredConversations] returns is a selection of the stored
    conversations in their stored order: nothing is invented, duplicated
    or reordered, and the result is never longer than the list. With an
    empty query the call cannot throw. *)
Theorem getFilteredConversations_selects_in_order :
  forall st : StateManager.t,
    let cs := StateManager.conversations (StateManager.state st) in
    (forall result : list Conversation.t,
        StateManager.getFilteredConversations st = Ok result ->
        (exists keep : Conversation.t -> bool, result = filter keep cs) /\
        (List.length result <= List.length cs)%nat /\
        incl result cs) /\
    (StateManager.searchQuery (StateManager.state st) = "" ->
     exists result, StateManager.getFilteredConversations st = Ok result).
Proof.
  intros st cs. split.
  - intros result Hrun.
    assert (Hkeep : exists keep : Conversation.t -> bool,
               result = filter keep cs).
    { unfold StateManager.getFilteredConversations in Hrun. fold cs in Hrun.
      destruct (negb _).
      - destruct (StateManager.filter_throwing _ cs) as [searched|e] eqn:Hs;
          [|discriminate].
        apply filter_throwing_is_filter in Hs. rewrite Hs in Hrun.
        destruct (String.eqb _ "unread").
        + inversion Hrun. rewrite filter_twice. eauto.
        + destruct (String.eqb _ "attention"); inversion Hrun.
          * rewrite filter_twice. eauto.
          * eauto.
      - destruct (String.eqb _ "unread").
        + inversion Hrun. eauto.
        + destruct (String.eqb _ "attention"); inversion Hrun.
          * eauto.
          * exists (fun _ => true). symmetry. now apply filter_keeps_all. }
    split; [exact Hkeep|]. destruct Hkeep as [keep ->]. split.
    + apply filter_length_le.
    + apply incl_filter.
  - intros Hquery. unfold StateManager.getFilteredConversations.
    rewrite Hquery. cbn [String.eqb negb].
    destruct (String.eqb _ "unread"); [eauto|].
    destruct (String.eqb _ "attention"); eauto.
Qed.

(** The theorem at the store that searches a conversation without a name
    with an empty query, and at a store that filters the unread ones. *)
Lemma getFilteredConversations_selects_in_order_witness :
  (exists result,
      StateManager.getFilteredConversations
        (Examples.store_of [Examples.nameless] None "" "all") = Ok result) /\
  incl [Examples.bob]
       (StateManager.conversations
          (StateManager.state Examples.searching_unread)).
Proof.
  split.
  - destruct (getFilteredConversations_selects_in_order
                (Examples.store_of [Examples.nameless] None "" "all"))
      as [_ Hempty].
    apply Hempty. reflexivity.
  - destruct (getFilteredConversations_selects_in_order
                Examples.searching_unread) as [Hsel _].
    destruct (Hsel [Examples.bob] eq_refl) as (_ & _ & Hincl). exact Hincl.
Defined.

(** ** The backend client: ids, message order, the blob registry *)

Section FetchFacts.

Import ApiService.

Lemma decimal_inj (m n : nat) : decimal m = decimal n -> m = n.
Proof.
  unfold decimal. intros H. apply Unsigned.to_uint_inj.
  apply (f_equal NilEmpty.uint_of_string) in H.
  rewrite !NilEmpty.usu in H. now inversion H.
Qed.

Lemma mapConversationData_id (now : Z) (store : BlobStore)
  (number : RawConversation.t) (index : nat) :
  Conversation.id (fst (mapConversationData now store number index))
  = String.append "c" (decimal (index + 1)).
Proof.
  unfold mapConversationData. destruct (map_messages now store _). reflexivity.
Qed.

Lemma map_conversations_ids (now : Z) (numbers : list RawConversation.t) :
  forall (store : BlobStore) (index : nat),
    map Conversation.id (fst (map_conversations now store numbers index))
    = map (fun i => String.append "c" (decimal (i + 1)))
          (seq index (List.length numbers)).
Proof.
  induction numbers as [|number r IH]; intros store index; cbn;
    [reflexivity|].
  pose proof (mapConversationData_id now store number index) as Hid.
  destruct (mapConversationData now store number index) as [c store1].
  specialize (IH store1 (S index)).
  destruct (map_conversations now store1 r (S index)) as [cs store2].
  cbn in *. now rewrite Hid, IH.
Qed.

Lemma NoDup_map_injective {A B : Type} (f : A -> B) (xs : list A) :
  (forall x y, f x = f y -> x = y) -> NoDup xs -> NoDup (map f xs).
Proof.
  intros Hinj Hxs. induction Hxs as [|x xs Hx Hxs IH]; cbn; constructor.
  - intros Hin. apply in_map_iff in Hin. destruct Hin as (y & Hy & Hin).
    apply Hinj in Hy. now subst.
  - exact IH.
Qed.

End FetchFacts.

(** X6. On a success envelope [fetchConversations] returns one
    conversation for each entry, in order, with the ids "c1", "c2", ...
    by position: the ids of a fetched list are pairwise distinct. *)
Theorem fetchConversations_ids_are_distinct :
  forall (now : Z) (store : ApiService.BlobStore)
         (numbers : list RawConversation.t) (message : option string),
  exists (data : list Conversation.t) (store' : ApiService.BlobStore),
    ApiService.fetchConversations now store
      (ApiService.Envelope 200 (Some numbers) message)
    = (ApiService.Success data, store') /\
    List.length data = List.length numbers /\
    map Conversation.id data
    = map (fun i => String.append "c" (ApiService.decimal (i + 1)))
          (seq 0 (List.length numbers)) /\
    NoDup (map Conversation.id data).
Proof.
  intros now store numbers message.
  pose proof (map_conversations_ids now numbers store 0) as Hids.
  cbn [ApiService.fetchConversations]. rewrite Z.eqb_refl.
  destruct (ApiService.map_conversations now store numbers 0)
    as [data store'].
  cbn [fst] in Hids. exists data, store'.
  split; [reflexivity|]. split; [|split; [exact Hids|]].
  - apply (f_equal (@List.length string)) in Hids.
    now rewrite !length_map, length_seq in Hids.
  - rewrite Hids. apply NoDup_map_injective; [|apply seq_NoDup].
    intros i j Hij. inversion Hij as [Hd]. apply decimal_inj in Hd. lia.
Qed.

Section RegistryFacts.

Import ApiService.

(** The converter leaves the registry alone or appends one blob, whose
    URL is the position it gets. *)
Lemma convertBase64ToAudioUrl_shape (store : BlobStore)
  (base64Data : option string) :
  convertBase64ToAudioUrl store base64Data = (None, store) \/
  exists blob : Blob,
    convertBase64ToAudioUrl store base64Data
    = (Some (List.length store), store ++ [blob]).
Proof.
  unfold convertBase64ToAudioUrl.
  destruct base64Data as [payload|]; [|now left].
  destruct (String.eqb payload ""); [now left|].
  destruct (negb _); [now left|].
  destruct (JS.atob (strip_data_url payload)); [|now left].
  right. eexists. reflexivity.
Qed.

Lemma mapMessageData_shape (now : Z) (store : BlobStore)
  (msg : RawMessage.t) :
  let m := fst (mapMessageData now store msg) in
  let store' := snd (mapMessageData now store msg) in
  Message.id m = RawMessage.id msg /\
  Message.type m = RawMessage.typo msg /\
  Message.timestamp m = now /\
  ((store' = store /\
    (forall u, Message.audioUrl m <> Message.BlobUrl u) /\
    (RawMessage.isaudio msg <> Some true ->
     Message.text m = RawMessage.message msg /\
     Message.audioUrl m = Message.NotSet)) \/
   (exists blob : Blob,
       store' = store ++ [blob] /\
       Message.audioUrl m = Message.BlobUrl (List.length store) /\
       RawMessage.isaudio msg = Some true /\
       Registry.audio_records [msg] = 1%nat)).
Proof.
  cbn zeta. unfold mapMessageData, Registry.audio_records. cbn [filter].
  destruct (RawMessage.isaudio msg) as [[|]|] eqn:Haudio; cbn [andb].
  - destruct (RawMessage.message msg) as [payload|] eqn:Hmessage.
    + destruct (negb (String.eqb payload "")).
      * destruct (convertBase64ToAudioUrl_shape store (Some payload))
          as [Hnone|[blob Hsome]].
        -- rewrite Hnone. cbn. repeat split. left.
           repeat split; try discriminate; congruence.
        -- rewrite Hsome. cbn. repeat split. right. exists blob.
           repeat split.
      * cbn. repeat split. left. repeat split; try discriminate; congruence.
    + cbn. repeat split. left. repeat split; try discriminate; congruence.
  - cbn. repeat split. left. repeat split; discriminate.
  - cbn. repeat split. left. repeat split; discriminate.
Qed.

(** A URL that resolves keeps resolving to the same blob when blobs are
    registered after it. *)
Lemma resolve_stable (store added : BlobStore) (url : nat) (blob : Blob) :
  resolve store url = Some blob -> resolve (store ++ added) url = Some blob.
Proof.
  unfold resolve. intros H. rewrite nth_error_app1; [exact H|].
  apply nth_error_Some. congruence.
Qed.

End RegistryFacts.

Section HistoryFacts.

Import ApiService.

Lemma audio_records_cons (msg : RawMessage.t) (r : list RawMessage.t) :
  Registry.audio_records (msg :: r)
  = (Registry.audio_records [msg] + Registry.audio_records r)%nat.
Proof.
  unfold Registry.audio_records. cbn [filter].
  destruct (match RawMessage.isaudio msg, RawMessage.message msg with
            | Some true, Some payload => negb (String.eqb payload "")
            | _, _ => false
            end); reflexivity.
Qed.

Lemma map_messages_registry (now : Z) (history : list RawMessage.t) :
  forall store : BlobStore,
    let messages := fst (map_messages now store history) in
    let store' := snd (map_messages now store history) in
    map Message.id messages = map RawMessage.id history /\
    Forall2 (fun msg m =>
               Message.type m = RawMessage.typo msg /\
               (RawMessage.isaudio msg <> Some true ->
                Message.text m = RawMessage.message msg /\
                Message.audioUrl m = Message.NotSet))
            history messages /\
    (exists added : BlobStore,
        store' = store ++ added /\
        (List.length added <= Registry.audio_records history)%nat) /\
    Forall (Registry.handle_resolves store') messages.
Proof.
  induction history as [|msg r IH]; intros store; cbn zeta.
  - cbn. repeat split; try constructor. exists []. now rewrite app_nil_r.
  - cbn [map_messages]. rewrite audio_records_cons.
    pose proof (mapMessageData_shape now store msg) as Hshape.
    destruct (mapMessageData now store msg) as [m store1].
    cbn [fst snd] in Hshape.
    destruct Hshape as (Hid & Htype & _ & Hcases).
    specialize (IH store1).
    destruct (map_messages now store1 r) as [ms store2].
    cbn [fst snd] in IH |- *.
    destruct IH as (Hids & Hf2 & (added & Hstore2 & Hlen) & Hres).
    split; [cbn; now rewrite Hid, Hids|].
    assert (Htext : RawMessage.isaudio msg <> Some true ->
                    Message.text m = RawMessage.message msg /\
                    Message.audioUrl m = Message.NotSet).
    { intros Hna.
      destruct Hcases as [(_ & _ & Ht)|(blob & _ & _ & Ha & _)];
        [now apply Ht|contradiction]. }
    split; [constructor; [split; assumption|exact Hf2]|].
    destruct Hcases
      as [(Hsame & Hno & _)|(blob & Hgrow & Hurl & Haudio & Hone)].
    + subst store1. split.
      * exists added. split; [exact Hstore2|lia].
      * constructor; [|exact Hres]. unfold Registry.handle_resolves.
        destruct (Message.audioUrl m) as [| |u] eqn:Hu; auto.
        exfalso. exact (Hno u eq_refl).
    + subst store1. split.
      * exists (blob :: added). split.
        { rewrite Hstore2, <- app_assoc. reflexivity. }
        rewrite Hone. cbn [List.length]. lia.
      * constructor; [|exact Hres]. unfold Registry.handle_resolves.
        rewrite Hurl. exists blob. rewrite Hstore2.
        apply resolve_stable. apply resolve_new.
Qed.

End HistoryFacts.

Section ConversationRegistryFacts.

Import ApiService.

Lemma handle_resolves_stable (store added : BlobStore) (m : Message.t) :
  Registry.handle_resolves store m ->
  Registry.handle_resolves (store ++ added) m.
Proof.
  unfold Registry.handle_resolves.
  destruct (Message.audioUrl m); auto.
  intros [blob H]. exists blob. now apply resolve_stable.
Qed.

Lemma mapConversationData_registry (now : Z) (store : BlobStore)
  (number : RawConversation.t) (index : nat) :
  let c := fst (mapConversationData now store number index) in
  let store' := snd (mapConversationData now store number index) in
  let history := Registry.history_of number in
  map Message.id (Conversation.messages c) = map RawMessage.id history /\
  Forall2 (fun msg m =>
             Message.type m = RawMessage.typo msg /\
             (RawMessage.isaudio msg <> Some true ->
              Message.text m = RawMessage.message msg /\
              Message.audioUrl m = Message.NotSet))
          history (Conversation.messages c) /\
  (exists added : BlobStore,
      store' = store ++ added /\
      (List.length added <= Registry.audio_records history)%nat) /\
  Forall (Registry.handle_resolves store') (Conversation.messages c).
Proof.
  cbn zeta. unfold mapConversationData, Registry.history_of.
  pose proof (map_messages_registry now
                match RawConversation.history number with
                | Some h => h
                | None => []
                end store) as H.
  destruct (map_messages now store _) as [messages store']. exact H.
Qed.

End ConversationRegistryFacts.

(** X7. [mapConversationData] keeps the history as it is: one message for
    each record, in the order of the history, with the id and the wire
    code of its record; a record that is not flagged as audio keeps its
    text and gets no audio handle. *)
Theorem mapConversationData_keeps_the_history :
  forall (now : Z) (store : ApiService.BlobStore)
         (number : RawConversation.t) (index : nat),
    let c := fst (ApiService.mapConversationData now store number index) in
    let history := Registry.history_of number in
    List.length (Conversation.messages c) = List.length history /\
    map Message.id (Conversation.messages c) = map RawMessage.id history /\
    Forall2 (fun msg m =>
               Message.type m = RawMessage.typo msg /\
               (RawMessage.isaudio msg <> Some true ->
                Message.text m = RawMessage.message msg /\
                Message.audioUrl m = Message.NotSet))
            history (Conversation.messages c).
Proof.
  intros now store number index c history.
  destruct (mapConversationData_registry now store number index)
    as (Hids & Hf2 & _).
  fold c history in Hids, Hf2.
  split; [|split; assumption].
  apply (f_equal (@List.length Z)) in Hids. now rewrite !length_map in Hids.
Qed.

Section FetchRegistryFacts.

Import ApiService.

Lemma map_conversations_registry (now : Z)
  (numbers : list RawConversation.t) :
  forall (store : BlobStore) (index : nat),
    let data := fst (map_conversations now store numbers index) in
    let store' := snd (map_conversations now store numbers index) in
    (exists added : BlobStore,
        store' = store ++ added /\
        (List.length added
         <= Registry.audio_records (flat_map Registry.history_of numbers))%nat)
    /\
    Forall (fun c => Forall (Registry.handle_resolves store')
                            (Conversation.messages c)) data.
Proof.
  induction numbers as [|number r IH]; intros store index; cbn zeta.
  - cbn. split; [|constructor]. exists []. now rewrite app_nil_r.
  - cbn [map_conversations flat_map].
    pose proof (mapConversationData_registry now store number index) as Hc.
    destruct (mapConversationData now store number index) as [c store1].
    cbn [fst snd] in Hc. destruct Hc as (_ & _ & (a1 & Hs1 & Hl1) & Hres1).
    specialize (IH store1 (S index)).
    destruct (map_conversations now store1 r (S index)) as [cs store2].
    cbn [fst snd] in IH |- *.
    destruct IH as ((a2 & Hs2 & Hl2) & Hres2).
    split.
    + exists (a1 ++ a2). split.
      * rewrite Hs2, Hs1, app_assoc. reflexivity.
      * unfold Registry.audio_records in *.
        rewrite filter_app, !length_app. lia.
    + constructor; [|exact Hres2]. rewrite Hs2.
      revert Hres1. apply Forall_impl. intros m.
      apply handle_resolves_stable.
Qed.

End FetchRegistryFacts.

(** X8. Mapping never takes a blob out of the registry or changes one:
    after [fetchConversations], whatever the response, every URL that
    resolved before resolves to the same blob. On a success envelope at
    most one blob is added for each audio record of the histories, and
    every audio handle of every conversation returned resolves in the
    registry returned. *)
Theorem fetchConversations_keeps_handles_valid :
  forall (now : Z) (store : ApiService.BlobStore)
         (response : ApiService.Response),
    let result := fst (ApiService.fetchConversations now store response) in
    let store' := snd (ApiService.fetchConversations now store response) in
    (forall (url : nat) (blob : ApiService.Blob),
        ApiService.resolve store url = Some blob ->
        ApiService.resolve store' url = Some blob) /\
    (forall error, result = ApiService.Failure error -> store' = store) /\
    (forall data : list Conversation.t,
        result = ApiService.Success data ->
        Forall (fun c => Forall (Registry.handle_resolves store')
                                (Conversation.messages c)) data /\
        forall numbers (status : Z) (message : option string),
          response = ApiService.Envelope status (Some numbers) message ->
          (List.length store'
           <= List.length store
              + Registry.audio_records
                  (flat_map Registry.history_of numbers))%nat).
Proof.
  intros now store response result store'. subst result store'.
  destruct response as [m|status numbers message]; cbn.
  - split; [auto|]. split; [auto|]. intros data H. discriminate.
  - destruct (Z.eqb status 200).
    + destruct numbers as [numbers|]; cbn.
      * destruct (map_conversations_registry now numbers store 0)
          as ((added & Hstore & Hlen) & Hres).
        destruct (ApiService.map_conversations now store numbers 0)
          as [cs registry].
        cbn [fst snd] in *. subst registry. split; [|split].
        -- intros url blob. apply resolve_stable.
        -- intros error H. discriminate.
        -- intros data' H. inversion H; subst data'. split; [exact Hres|].
           intros numbers' status' message' Heq. inversion Heq; subst.
           rewrite length_app. lia.
      * split; [auto|]. split; [auto|]. intros data H. discriminate.
    + split; [auto|]. split; [auto|]. intros data H. discriminate.
Qed.

(** The theorem at a registry that holds one blob, with the envelope of
    the scenario. *)
Lemma fetchConversations_keeps_handles_valid_witness :
  ApiService.resolve
    (snd (ApiService.fetchConversations 0
            [ApiService.mkBlob "OggS" "audio/ogg"] Examples.scenario)) 0
  = Some (ApiService.mkBlob "OggS" "audio/ogg").
Proof.
  destruct (fetchConversations_keeps_handles_valid 0
              [ApiService.mkBlob "OggS" "audio/ogg"] Examples.scenario)
    as (Hkept & _).
  apply Hkept. reflexivity.
Defined.

Section BlobTypeFacts.

Import ApiService.

Lemma append_nil_r (s : string) : String.append s "" = s.
Proof. induction s as [|c s IH]; cbn; [reflexivity|]. now rewrite IH. Qed.

Lemma take_all (n : nat) :
  forall s : string, (String.length s <= n)%nat -> JS.take n s = s.
Proof.
  induction n as [|n IH]; intros s H; destruct s as [|c s]; cbn in *;
    try reflexivity; [lia|].
  rewrite IH; [reflexivity|lia].
Qed.

Lemma take_append (n : nat) :
  forall a b : string,
    (n <= String.length a)%nat -> JS.take n (String.append a b) = JS.take n a.
Proof.
  induction n as [|n IH]; intros a b H; [reflexivity|].
  destruct a as [|c a]; cbn in *; [lia|]. rewrite IH; [reflexivity|lia].
Qed.

Lemma take_length_exact (n : nat) :
  forall s : string,
    (n <= String.length s)%nat -> String.length (JS.take n s) = n.
Proof.
  induction n as [|n IH]; intros s H; [reflexivity|].
  destruct s as [|c s]; cbn in *; [lia|]. rewrite IH; [reflexivity|lia].
Qed.

Lemma take_all_b64 (n : nat) :
  forall s : string,
    Spec.all_b64 s = true -> Spec.all_b64 (JS.take n s) = true.
Proof.
  induction n as [|n IH]; intros s H; [reflexivity|].
  destruct s as [|c s]; cbn in *; [reflexivity|].
  apply andb_true_iff in H. destruct H as [Hc Hs]. now rewrite Hc, IH.
Qed.

Lemma take_list (n : nat) :
  forall s : string,
    list_ascii_of_string (JS.take n s) = firstn n (list_ascii_of_string s).
Proof.
  induction n as [|n IH]; intros s; [reflexivity|].
  destruct s as [|c s]; cbn; [reflexivity|]. now rewrite IH.
Qed.

Lemma take_of_list (n : nat) :
  forall l : list ascii,
    JS.take n (string_of_list_ascii l) = string_of_list_ascii (firstn n l).
Proof.
  induction n as [|n IH]; intros l; [reflexivity|].
  destruct l as [|c l]; cbn; [reflexivity|]. now rewrite IH.
Qed.

Lemma length_of_list (l : list ascii) :
  String.length (string_of_list_ascii l) = List.length l.
Proof. induction l as [|c l IH]; cbn; [reflexivity|]. now rewrite IH. Qed.

(** Whole groups of four sextets decode to the first bytes. *)
Lemma decode_prefix (k : nat) :
  forall xs : list N,
    (4 * k <= List.length xs)%nat ->
    JS.decode_sextets (firstn (4 * k) xs)
    = firstn (3 * k) (JS.decode_sextets xs).
Proof.
  induction k as [|k IH]; intros xs H; [reflexivity|].
  destruct xs as [|a [|b [|c [|d r]]]]; cbn [List.length] in H; try lia.
  replace (4 * S k)%nat with (S (S (S (S (4 * k))))) by lia.
  replace (3 * S k)%nat with (S (S (S (3 * k)))) by lia.
  cbn [firstn JS.decode_sextets]. rewrite IH by lia.
  destruct (firstn (4 * k) r); reflexivity.
Qed.

(** Three bytes at most for four sextets. *)
Lemma decode_length (n : nat) :
  forall xs : list N,
    (List.length xs <= n)%nat ->
    (4 * List.length (JS.decode_sextets xs) <= 3 * List.length xs)%nat.
Proof.
  induction n as [|n IH]; intros xs H.
  - destruct xs; cbn in *; lia.
  - destruct xs as [|a [|b [|c [|d r]]]];
      try (cbn [JS.decode_sextets List.length]; lia).
    cbn [List.length] in H.
    assert (Hr : (List.length r <= n)%nat) by lia.
    specialize (IH r Hr).
    change (JS.decode_sextets (a :: b :: c :: d :: r))
      with (JS.byte_of (a * 4 + b / 16)
            :: JS.byte_of ((b mod 16) * 16 + c / 4)
            :: JS.byte_of ((c mod 4) * 64 + d)
            :: JS.decode_sextets r).
    cbn [List.length]. lia.
Qed.

(** The value [atob] gives for characters of the alphabet with the
    padding their number calls for, or none. *)
Lemma atob_value (body pad : string) :
  Spec.all_b64 body = true ->
  ((pad = "" /\ (String.length body mod 4 <> 1)%nat) \/
   (pad = "=" /\ (String.length body mod 4 = 3)%nat) \/
   (pad = "==" /\ (String.length body mod 4 = 2)%nat)) ->
  JS.atob (String.append body pad)
  = Some (string_of_list_ascii
            (JS.decode_sextets
               (map JS.sextet (list_ascii_of_string body)))).
Proof.
  intros Hbody Hcases.
  assert (Hsome : JS.atob (String.append body pad) <> None).
  { apply atob_padded; [assumption| |assumption].
    destruct Hcases as [[H _]|[[H _]|[H _]]]; auto. }
  revert Hsome. unfold JS.atob. rewrite list_of_append.
  rewrite <- all_b64_list in Hbody.
  rewrite <- (list_of_length body) in Hcases.
  set (lb := list_ascii_of_string body) in *.
  rewrite filter_plain;
    [|assumption
     |destruct Hcases as [[-> _]|[[-> _]|[-> _]]]; cbn; auto].
  destruct Hcases as [[-> Hn]|[[-> Hn]|[-> Hn]]]; cbn [list_ascii_of_string].
  - rewrite app_nil_r.
    destruct (List.length lb mod 4 =? 0)%nat.
    + rewrite strip_padding_none by assumption.
      destruct (_ =? 1)%nat; [congruence|]. now rewrite Hbody.
    + destruct (_ =? 1)%nat; [congruence|]. now rewrite Hbody.
  - change [ "="%char ] with [JS.eq_sign].
    destruct (Nat.eqb_spec (List.length (lb ++ [JS.eq_sign]) mod 4) 0)
      as [H0|H0]; rewrite length_app in H0; cbn [List.length] in H0;
      [|lia].
    rewrite strip_padding_one by assumption.
    destruct (_ =? 1)%nat; [congruence|]. now rewrite Hbody.
  - change [ "="%char; "="%char ] with [JS.eq_sign; JS.eq_sign].
    destruct (Nat.eqb_spec
                (List.length (lb ++ [JS.eq_sign; JS.eq_sign]) mod 4) 0)
      as [H0|H0]; rewrite length_app in H0; cbn [List.length] in H0;
      [|lia].
    rewrite strip_padding_two.
    destruct (_ =? 1)%nat; [congruence|]. now rewrite Hbody.
Qed.

(** The start the code decodes for the magic-byte checks, the first 20
    characters, is the first 15 bytes of the data. *)
Lemma atob_start (s bytes : string) :
  base64_pattern s = true -> JS.atob s = Some bytes ->
  JS.atob (JS.take 20 s) = Some (JS.take 15 bytes).
Proof.
  intros Hpattern Hatob.
  assert (Hwf : Spec.well_formed_base64 s).
  { apply accepted_iff_well_formed. split; [assumption|]. congruence. }
  destruct Hwf as (body & pad & -> & Hbody & Hcases).
  rewrite (atob_value body pad Hbody Hcases) in Hatob.
  injection Hatob as <-.
  destruct (Nat.le_gt_cases 20 (String.length body)) as [Hlong|Hshort].
  - rewrite take_append by assumption.
    rewrite <- (append_nil_r (JS.take 20 body)).
    rewrite (atob_value (JS.take 20 body) "").
    + f_equal. rewrite take_of_list, take_list, <- firstn_map.
      f_equal. apply (decode_prefix 5).
      rewrite length_map, list_of_length. exact Hlong.
    + now apply take_all_b64.
    + left. split; [reflexivity|].
      rewrite take_length_exact by assumption. discriminate.
  - assert (Hlen : (String.length (String.append body pad) <= 20)%nat).
    { rewrite <- list_of_length, list_of_append, length_app,
        !list_of_length.
      destruct Hcases as [[-> Hn]|[[-> Hn]|[-> Hn]]]; cbn [String.length];
        lia. }
    rewrite (take_all 20 _ Hlen), (atob_value body pad Hbody Hcases).
    f_equal. symmetry. apply take_all. rewrite length_of_list.
    pose proof (decode_length _ (map JS.sextet (list_ascii_of_string body))
                  (Nat.le_refl _)) as Hdec.
    rewrite length_map, list_of_length in Hdec. lia.
Qed.

End BlobTypeFacts.

(** X9. The blob [convertBase64ToAudioUrl] registers is typed by the
    container its first 15 bytes show: MPEG-4 when they hold "ftyp"; else
    MP3 when they hold "ID3" or begin with FF FB; else Ogg when they hold
    "OggS"; else WAV when they hold "RIFF" and "WAVE". When they show
    none of these, the type is the one of the prefix of a plain data URL,
    as [new Blob] keeps it (in ASCII lower case, and empty if it holds a
    character outside U+0020 to U+007E), and MPEG-4 audio for every other
    payload. *)
Theorem convertBase64ToAudioUrl_blob_type :
  forall (store store' : ApiService.BlobStore) (payload : string)
         (url : nat),
    ApiService.convertBase64ToAudioUrl store (Some payload)
    = (Some url, store') ->
    exists (blob : ApiService.Blob) (start : string),
      ApiService.resolve store' url = Some blob /\
      start = JS.take 15 (ApiService.blob_bytes blob) /\
      (JS.includes start "ftyp" = true ->
       ApiService.blob_type blob = "audio/mp4") /\
      (JS.includes start "ftyp" = false ->
       JS.includes start "ID3" || JS.startsWith start ApiService.xFF_xFB
       = true ->
       ApiService.blob_type blob = "audio/mpeg") /\
      (JS.includes start "ftyp" = false ->
       JS.includes start "ID3" || JS.startsWith start ApiService.xFF_xFB
       = false ->
       JS.includes start "OggS" = true ->
       ApiService.blob_type blob = "audio/ogg") /\
      (JS.includes start "ftyp" = false ->
       JS.includes start "ID3" || JS.startsWith start ApiService.xFF_xFB
       = false ->
       JS.includes start "OggS" = false ->
       JS.includes start "RIFF" && JS.includes start "WAVE" = true ->
       ApiService.blob_type blob = "audio/wav") /\
      (JS.includes start "ftyp" = false ->
       JS.includes start "ID3" || JS.startsWith start ApiService.xFF_xFB
       = false ->
       JS.includes start "OggS" = false ->
       JS.includes start "RIFF" && JS.includes start "WAVE" = false ->
       (forall type data : string,
           Spec.plain_data_url payload type data ->
           ApiService.blob_type blob = JS.blob_type_of type) /\
       ((forall type data : string,
            ~ Spec.plain_data_url payload type data) ->
        ApiService.blob_type blob = "audio/mp4")).
Proof.
  intros store store' payload url. unfold ApiService.convertBase64ToAudioUrl.
  destruct (String.eqb payload ""); [discriminate|].
  destruct (ApiService.base64_pattern (ApiService.strip_data_url payload))
    eqn:Hpattern; cbn [negb]; [|discriminate].
  destruct (JS.atob (ApiService.strip_data_url payload)) as [bytes|] eqn:Hb;
    [|discriminate].
  rewrite (atob_start _ bytes Hpattern Hb).
  set (declared :=
         if JS.startsWith payload "data:"
         then match ApiService.match_data_url payload with
              | Some (mime, _) => mime
              | None => "audio/mp4"
              end
         else "audio/mp4").
  cbn [ApiService.createObjectURL]. intros H. injection H as <- <-.
  exists (ApiService.new_Blob bytes
            (ApiService.sniff declared (JS.take 15 bytes))),
    (JS.take 15 bytes).
  split; [apply resolve_new|]. split; [reflexivity|].
  cbn [ApiService.new_Blob ApiService.blob_type]. unfold ApiService.sniff.
  split; [intros ->; reflexivity|].
  split; [intros -> ->; reflexivity|].
  split; [intros -> -> ->; reflexivity|].
  split; [intros -> -> -> ->; reflexivity|].
  intros -> -> -> ->. subst declared. split.
  - intros type data Hplain. apply match_data_url_plain in Hplain.
    assert (Hdata : JS.startsWith payload "data:" = true).
    { unfold ApiService.match_data_url in Hplain.
      destruct (JS.startsWith payload "data:"); [reflexivity|discriminate]. }
    now rewrite Hdata, Hplain.
  - intros Hnone.
    destruct (ApiService.match_data_url payload) as [[type data]|] eqn:Hmatch.
    + apply match_data_url_plain in Hmatch. now apply Hnone in Hmatch.
    + now destruct (JS.startsWith payload "data:").
Qed.

(** The theorem at a payload without a prefix, the bytes "OggS". *)
Lemma convertBase64ToAudioUrl_blob_type_witness :
  exists blob : ApiService.Blob,
    ApiService.resolve
      (snd (ApiService.convertBase64ToAudioUrl [] (Some "T2dnUw=="))) 0
    = Some blob /\
    ApiService.blob_type blob = "audio/ogg".
Proof.
  destruct (convertBase64ToAudioUrl_blob_type []
              (snd (ApiService.convertBase64ToAudioUrl [] (Some "T2dnUw==")))
              "T2dnUw==" 0 eq_refl)
    as (blob & start & Hres & Hstart & _ & _ & Hogg & _).
  exists blob. split; [exact Hres|].
  vm_compute in Hres. injection Hres as <-.
  apply Hogg; rewrite Hstart; reflexivity.
Defined.

(** X10. A payload that starts with "data:" but is not of the form
    [data:<type>;base64,...] (a type with a parameter, as in
    [data:audio/webm;codecs=opus;base64,], or another encoding) is not
    stripped, fails the pattern at its colon and gives [null]: no blob is
    registered. *)
Theorem convertBase64ToAudioUrl_rejects_other_data_urls :
  forall (store : ApiService.BlobStore) (payload : string),
    JS.startsWith payload "data:" = true ->
    ApiService.match_data_url payload = None ->
    ApiService.convertBase64ToAudioUrl store (Some payload) = (None, store).
Proof.
  intros store payload Hdata Hmatch.
  destruct (startsWith_split payload "data:" Hdata) as [r ->].
  unfold ApiService.convertBase64ToAudioUrl, ApiService.strip_data_url.
  rewrite Hmatch. reflexivity.
Qed.

(** The theorem at the data URL a recorder gives for Opus in WebM. *)
Lemma convertBase64ToAudioUrl_rejects_other_data_urls_witness :
  ApiService.convertBase64ToAudioUrl []
    (Some "data:audio/webm;codecs=opus;base64,T2dnUw==")
  = (None, []).
Proof.
  apply convertBase64ToAudioUrl_rejects_other_data_urls; reflexivity.
Defined.

Section InitialsBounds.

Import ApiService.

(** The upper case of a code unit holds no small letter: checked on
    every code unit. *)
Lemma upper_units_no_small (c : ascii) :
  forallb (fun u => negb (Spec.small_letter u)) (JS.upper_units c) = true.
Proof.
  assert (Hall :
            forallb
              (fun x =>
                 forallb (fun u => negb (Spec.small_letter u))
                         (JS.upper_units x))
              (map ascii_of_nat (seq 0 256)) = true)
    by (vm_compute; reflexivity).
  exact (proj1 (forallb_forall _ _) Hall c (ascii_in_range c)).
Qed.

Lemma toUpperCase_no_small (s : string) :
  forallb (fun u => negb (Spec.small_letter u)) (JS.toUpperCase s) = true.
Proof.
  induction s as [|c s IH]; cbn [JS.toUpperCase]; [reflexivity|].
  now rewrite forallb_app, upper_units_no_small, IH.
Qed.

Lemma firstn_keeps_forallb {A : Type} (p : A -> bool) (n : nat) :
  forall xs : list A,
    forallb p xs = true -> forallb p (firstn n xs) = true.
Proof.
  induction n as [|n IH]; intros xs H; cbn; [reflexivity|].
  destruct xs as [|x xs]; cbn in *; [reflexivity|].
  apply andb_true_iff in H. destruct H as [Hx Hxs].
  now rewrite Hx, IH.
Qed.

End InitialsBounds.

(** X11. The initials of a name, whatever the name, are at most two code
    units and hold no small letter (a-z, the micro sign, sharp s, and the
    letters from a-grave to y-diaeresis): every letter that has a capital
    is replaced by it. The empty name and a name of spaces alone give the
    empty string. *)
Theorem getInitials_at_most_two_capitals :
  forall name : string,
  exists initials : list N,
    ApiService.getInitials (Some name) = Some initials /\
    (List.length initials <= 2)%nat /\
    forallb (fun u => negb (Spec.small_letter u)) initials = true /\
    (forallb (Ascii.eqb " "%char) (list_ascii_of_string name) = true ->
     initials = []).
Proof.
  intros name. eexists. split; [reflexivity|].
  split; [apply firstn_le_length|].
  split; [apply firstn_keeps_forallb, toUpperCase_no_small|].
  intros Hspaces.
  assert (Hjoin : JS.join_chars (map JS.char0 (JS.split " "%char name)) = "").
  { induction name as [|c r IH]; [reflexivity|].
    cbn [list_ascii_of_string forallb] in Hspaces.
    apply andb_true_iff in Hspaces.
    destruct Hspaces as [Hc Hr]. apply Ascii.eqb_eq in Hc. subst c.
    cbn. now apply IH. }
  now rewrite Hjoin.
Qed.

(** The theorem at a name of two spaces. *)
Lemma getInitials_at_most_two_capitals_witness :
  ApiService.getInitials (Some "  ") = Some [].
Proof.
  destruct (getInitials_at_most_two_capitals "  ")
    as (initials & Hrun & _ & _ & Hempty).
  rewrite Hrun. f_equal. apply Hempty. reflexivity.
Defined.

(** ** The push-channel client over whole runs *)

Section RunFacts.

Import SocketService.

Lemma scheduled_app (a b : list Effect) :
  scheduled (a ++ b) = (scheduled a + scheduled b)%nat.
Proof. unfold scheduled. now rewrite filter_app, length_app. Qed.

Lemma terminal_errors_app (a b : list Effect) :
  Reconnection.terminal_errors (a ++ b)
  = (Reconnection.terminal_errors a + Reconnection.terminal_errors b)%nat.
Proof.
  unfold Reconnection.terminal_errors. now rewrite filter_app, length_app.
Qed.

Lemma step_retryCount_bound (s : t) (e : Event) :
  (retryCount s <= maxRetries s)%nat ->
  (retryCount (fst (step s e)) <= maxRetries (fst (step s e)))%nat.
Proof.
  intros Hle. rewrite step_maxRetries.
  destruct e; cbn; try lia.
  - unfold handleReconnection.
    destruct (Nat.ltb_spec (retryCount s) (maxRetries s)); cbn; lia.
  - destruct (pending_timers s); cbn; [lia|]. destruct io_error; cbn; lia.
Qed.

Lemma run_retryCount_bound (events : list Event) :
  forall s : t,
    (retryCount s <= maxRetries s)%nat ->
    (retryCount (fst (run s events)) <= maxRetries s)%nat.
Proof.
  induction events as [|e r IH]; intros s Hle; [exact Hle|].
  rewrite run_cons. cbn [fst].
  pose proof (step_retryCount_bound s e Hle) as Hstep.
  specialize (IH _ Hstep). now rewrite step_maxRetries in IH.
Qed.

(** What one event schedules and reports, by the counter before it. *)
Lemma step_counts (s : t) (e : Event) :
  (retryCount s <= maxRetries s)%nat ->
  scheduled (snd (step s e))
  = (if is_disconnect e && (retryCount s <? maxRetries s)%nat then 1 else 0)%nat
  /\
  ((if is_disconnect e && negb (retryCount s <? maxRetries s)%nat
    then 1 else 0)
   <= Reconnection.terminal_errors (snd (step s e)))%nat.
Proof.
  intros Hle. destruct e; try (cbn; split; [reflexivity|lia]).
  - cbn [step is_disconnect andb]. unfold handleReconnection.
    destruct (retryCount s <? maxRetries s)%nat; cbn [andb negb snd].
    + split; [reflexivity|lia].
    + split; [reflexivity|]. unfold Reconnection.terminal_errors.
      cbn. lia.
  - cbn [step is_disconnect andb].
    destruct (pending_timers s); cbn; [split; [reflexivity|lia]|].
    destruct io_error; cbn; split; reflexivity || lia.
Qed.

End RunFacts.

(** X12. While the connection stays down (a stretch of events with no
    connect), the client sets exactly one timeout for each disconnect
    until the retry counter reaches the ceiling, and none after: from a
    counter of [k] at most [5 - k] reconnection attempts are made however
    many disconnects arrive. Every disconnect beyond that calls the error
    callback with the terminal error again. *)
Theorem reconnection_attempts_per_outage :
  forall (history stretch : list SocketService.Event),
    let s := fst (SocketService.run SocketService.create history) in
    let effects := snd (SocketService.run s stretch) in
    existsb SocketService.is_connect stretch = false ->
    SocketService.scheduled effects
    = Nat.min (Reconnection.disconnects stretch)
              (5 - SocketService.retryCount s) /\
    (SocketService.scheduled effects <= 5)%nat /\
    (Reconnection.disconnects stretch - SocketService.scheduled effects
     <= Reconnection.terminal_errors effects)%nat.
Proof.
  intros history stretch s effects Hno.
  assert (Hmax : SocketService.maxRetries s = 5%nat).
  { subst s. now rewrite run_maxRetries. }
  assert (Hle : (SocketService.retryCount s <= SocketService.maxRetries s)%nat).
  { subst s. pose proof (run_retryCount_bound history SocketService.create).
    cbn in H. rewrite run_maxRetries. apply H. lia. }
  clearbody s. subst effects. rewrite <- Hmax. clear Hmax.
  revert s Hle Hno.
  induction stretch as [|e r IH]; intros s Hle Hno.
  - cbn. repeat split; lia.
  - cbn [existsb] in Hno. apply orb_false_iff in Hno. destruct Hno as [He Hr].
    rewrite run_cons. cbn [snd].
    rewrite scheduled_app, terminal_errors_app.
    destruct (step_counts s e Hle) as [Hsched Herr].
    pose proof (step_retryCount s e He Hle) as Hcount.
    pose proof (step_retryCount_bound s e Hle) as Hbound.
    pose proof (step_maxRetries s e) as Hmax.
    destruct (IH (fst (SocketService.step s e)) Hbound Hr)
      as (IHs & IHle & IHerr).
    rewrite Hmax in *. rewrite Hsched, IHs, Hcount.
    unfold Reconnection.disconnects in *. cbn [filter].
    destruct (SocketService.is_disconnect e); cbn [andb List.length] in *.
    + destruct (Nat.ltb_spec (SocketService.retryCount s)
                             (SocketService.maxRetries s));
        cbn [negb] in *; repeat split; lia.
    + repeat split; lia.
Qed.

(** The theorem at a client that has lost the connection twice and then
    loses it seven times more. *)
Lemma reconnection_attempts_per_outage_witness :
  SocketService.scheduled
    (snd (SocketService.run
            (fst (SocketService.run SocketService.create
                    [SocketService.Disconnect; SocketService.Disconnect]))
            [SocketService.Disconnect; SocketService.Disconnect;
             SocketService.Disconnect; SocketService.TimerFires None;
             SocketService.Disconnect; SocketService.Disconnect;
             SocketService.Disconnect; SocketService.Disconnect]))
  = 3%nat.
Proof.
  destruct (reconnection_attempts_per_outage
              [SocketService.Disconnect; SocketService.Disconnect]
              [SocketService.Disconnect; SocketService.Disconnect;
               SocketService.Disconnect; SocketService.TimerFires None;
               SocketService.Disconnect; SocketService.Disconnect;
               SocketService.Disconnect; SocketService.Disconnect]
              eq_refl) as (Hcount & _).
  exact Hcount.
Defined.

Section RunAccounting.

Import SocketService.

Lemma step_accounting (s : t) (e : Event) :
  (retryCount s <= maxRetries s)%nat ->
  (scheduled (snd (step s e)) + retryCount s
   <= (if is_connect e then maxRetries s else 0)
      + retryCount (fst (step s e)))%nat /\
  (sockets_opened (fst (step s e)) + pending_timers (fst (step s e))
   <= sockets_opened s + pending_timers s + scheduled (snd (step s e)))%nat.
Proof.
  intros Hle. unfold scheduled. destruct e; try (cbn; lia).
  - cbn [step is_connect]. unfold handleReconnection.
    destruct (Nat.ltb_spec (retryCount s) (maxRetries s)); cbn; lia.
  - cbn [step is_connect].
    destruct (pending_timers s) eqn:Hp; cbn; [lia|].
    destruct io_error; cbn; lia.
Qed.

Lemma run_accounting (events : list Event) :
  forall s : t,
    (retryCount s <= maxRetries s)%nat ->
    (scheduled (snd (run s events)) + retryCount s
     <= maxRetries s * Reconnection.connects events
        + retryCount (fst (run s events)))%nat /\
    (sockets_opened (fst (run s events)) + pending_timers (fst (run s events))
     <= sockets_opened s + pending_timers s
        + scheduled (snd (run s events)))%nat.
Proof.
  induction events as [|e r IH]; intros s Hle.
  - cbn. lia.
  - rewrite run_cons. cbn [fst snd]. rewrite scheduled_app.
    destruct (step_accounting s e Hle) as [Hs Ho].
    pose proof (step_retryCount_bound s e Hle) as Hbound.
    destruct (IH _ Hbound) as [IHs IHo].
    rewrite step_maxRetries in IHs.
    unfold Reconnection.connects in *. cbn [filter].
    destruct (is_connect e); cbn [List.length] in *; nia.
Qed.

End RunAccounting.

(** X13. Over a whole run of the client, whatever the events: the retry
    counter never exceeds 5; the timeouts set are at most 5 for the first
    outage and 5 more for each connect seen; and a socket is opened only
    by a timeout that was set and has fired, so the sockets opened and the
    timeouts still pending are never more than one plus the timeouts
    set. *)
Theorem reconnection_is_bounded_over_a_run :
  forall events : list SocketService.Event,
    let s := fst (SocketService.run SocketService.create events) in
    let effects := snd (SocketService.run SocketService.create events) in
    (SocketService.retryCount s <= 5)%nat /\
    (SocketService.scheduled effects
     <= 5 * (1 + Reconnection.connects events))%nat /\
    (SocketService.sockets_opened s + SocketService.pending_timers s
     <= 1 + SocketService.scheduled effects)%nat.
Proof.
  intros events s effects. subst s effects.
  assert (Hle : (SocketService.retryCount SocketService.create
                 <= SocketService.maxRetries SocketService.create)%nat)
    by (cbn; lia).
  pose proof (run_retryCount_bound events SocketService.create Hle) as Hb.
  destruct (run_accounting events SocketService.create Hle) as [Hs Ho].
  cbn [SocketService.create SocketService.retryCount
       SocketService.maxRetries SocketService.sockets_opened
       SocketService.pending_timers] in *.
  repeat split; lia.
Qed.

(** ** The view: sending, escaping, windowing *)

Section TrimFacts.

Lemma trimEnd_cons (c : ascii) (r : string) :
  JS.trimEnd (String c r)
  = match JS.trimEnd r with
    | EmptyString =>
        if JS.is_space c then EmptyString else String c EmptyString
    | r' => String c r'
    end.
Proof. reflexivity. Qed.

Lemma trimEnd_idempotent (s : string) :
  JS.trimEnd (JS.trimEnd s) = JS.trimEnd s.
Proof.
  induction s as [|c r IH]; [reflexivity|].
  rewrite trimEnd_cons. destruct (JS.trimEnd r) as [|d r'] eqn:Hr.
  - destruct (JS.is_space c) eqn:Hc; [reflexivity|].
    rewrite trimEnd_cons. cbn [JS.trimEnd]. now rewrite Hc.
  - rewrite trimEnd_cons, IH. reflexivity.
Qed.

(** A text starts clean when it is empty or its first character is not
    white space. *)
Lemma trimStart_clean (s : string) :
  match JS.trimStart s with
  | EmptyString => True
  | String c _ => JS.is_space c = false
  end.
Proof.
  induction s as [|c r IH]; cbn; [exact I|].
  destruct (JS.is_space c) eqn:Hc; [exact IH|exact Hc].
Qed.

Lemma trimEnd_keeps_clean_start (s : string) :
  match s with
  | EmptyString => True
  | String c _ => JS.is_space c = false
  end ->
  JS.trimStart (JS.trimEnd s) = JS.trimEnd s.
Proof.
  destruct s as [|c r]; [reflexivity|]. intros Hc.
  rewrite trimEnd_cons.
  destruct (JS.trimEnd r); rewrite ?Hc; cbn [JS.trimStart]; now rewrite Hc.
Qed.

Lemma trim_idempotent (s : string) : JS.trim (JS.trim s) = JS.trim s.
Proof.
  unfold JS.trim.
  rewrite (trimEnd_keeps_clean_start _ (trimStart_clean s)).
  apply trimEnd_idempotent.
Qed.

End TrimFacts.

(** X14. In manual mode, with a text in the input, [handleSendMessage]
    dispatches exactly one [sendMessage] event, carrying the trimmed text
    (which has no white space left to trim), clears the input and removes
    the typing indicator; the store and the toast are untouched. The
    controller issues exactly one request when a conversation is active,
    to the number of that conversation, and none when no conversation is
    active: the event is dispatched and the input cleared all the same. *)
Theorem handleSendMessage_sends_in_manual_mode :
  forall ui : UIManager.t,
    StateManager.isManualMode (StateManager.state (UIManager.store ui))
    = true ->
    JS.trim (UIManager.messageInput ui) <> "" ->
    let message := JS.trim (UIManager.messageInput ui) in
    let ui' := UIManager.handleSendMessage ui in
    UIManager.dispatched ui'
    = UIManager.dispatched ui ++ [("sendMessage", message)] /\
    JS.trim message = message /\
    UIManager.messageInput ui' = "" /\
    UIManager.typingIndicator ui' = false /\
    UIManager.store ui' = UIManager.store ui /\
    UIManager.toast ui' = UIManager.toast ui /\
    UIManager.requests ui'
    = UIManager.requests ui
      ++ match StateManager.getActiveConversation (UIManager.store ui) with
         | Some conversation =>
             [UIManager.mkRequest
                (String.append CONFIG.API_BASE CONFIG.SEND_INTERVENTION)
                (Conversation.number conversation) message]
         | None => []
         end.
Proof.
  intros ui Hmode Hmessage message ui'. subst ui'.
  unfold UIManager.handleSendMessage, StateManager.getState.
  apply String.eqb_neq in Hmessage. fold message in Hmessage |- *.
  rewrite Hmessage, Hmode. cbn [negb].
  unfold UIManager.emit. cbn [String.eqb Ascii.eqb Bool.eqb].
  unfold UIManager.app_sendMessage.
  cbn [UIManager.store].
  split; [|split; [apply trim_idempotent|]];
    destruct (StateManager.getActiveConversation (UIManager.store ui));
    cbn; rewrite ?app_nil_r; repeat split.
Qed.

(** The theorem at a page in manual mode with the second conversation
    active. *)
Lemma handleSendMessage_sends_in_manual_mode_witness :
  UIManager.dispatched
    (UIManager.handleSendMessage
       (Examples.page_of
          (StateManager.setManualMode true
             (Examples.store_of [Examples.ana; Examples.bob] (Some "c2")
                                "" "all"))
          " hola "))
  = [("sendMessage", "hola")].
Proof.
  assert (Hmessage : JS.trim " hola " <> "") by (vm_compute; discriminate).
  destruct (handleSendMessage_sends_in_manual_mode
              (Examples.page_of
                 (StateManager.setManualMode true
                    (Examples.store_of [Examples.ana; Examples.bob]
                                       (Some "c2") "" "all"))
                 " hola ")
              eq_refl Hmessage) as (Hdispatched & _).
  exact Hdispatched.
Defined.

Section EscapeFacts.

Import UIManager.

Lemma count_append (c : ascii) (a b : string) :
  Text.count c (String.append a b) = (Text.count c a + Text.count c b)%nat.
Proof. induction a as [|d a IH]; cbn; [reflexivity|]. rewrite IH. lia. Qed.

Lemma escape_counts (s : string) :
  Text.count "<"%char (escape s) = Text.count Text.line_feed s /\
  Text.count Text.line_feed (escape s) = 0%nat.
Proof.
  induction s as [|c r [IHlt IHlf]]; [split; reflexivity|].
  cbn [escape]. destruct (Ascii.eqb_spec c "<"%char) as [->|Hlt].
  - rewrite !count_append, IHlt, IHlf. split; reflexivity.
  - destruct (Ascii.eqb_spec c (ascii_of_nat 10)) as [->|Hlf].
    + rewrite !count_append, IHlt, IHlf. split; reflexivity.
    + cbn [Text.count]. rewrite IHlt, IHlf.
      apply Ascii.eqb_neq in Hlt, Hlf. unfold Text.line_feed.
      rewrite Hlt, Hlf. split; reflexivity.
Qed.

Lemma escape_plain (s : string) :
  Text.count "<"%char s = 0%nat -> Text.count Text.line_feed s = 0%nat ->
  escape s = s.
Proof.
  induction s as [|c r IH]; [reflexivity|]. cbn [Text.count escape].
  unfold Text.line_feed.
  destruct (Ascii.eqb c "<"%char); [discriminate|].
  destruct (Ascii.eqb c (ascii_of_nat 10)); [discriminate|].
  cbn. intros H1 H2. now rewrite IH.
Qed.

End EscapeFacts.

(** X15. In the text of a message element no [<] of the message
    survives. For a message that takes the text path (it is not an audio
    message with a URL), the [<] characters of the element's text are
    exactly those of the line breaks it inserts, one for each line feed of
    the message, and no line feed is left; a text with neither character
    is shown as it is. *)
Theorem createMessageElement_escapes_markup :
  forall (message : Message.t) (text : string),
    UIManager.el_audio_player (UIManager.createMessageElement message)
    = false ->
    Message.text message = Some text ->
    Text.count "<"%char
      (UIManager.el_text (UIManager.createMessageElement message))
    = Text.count Text.line_feed text /\
    Text.count Text.line_feed
      (UIManager.el_text (UIManager.createMessageElement message))
    = 0%nat /\
    (Text.count "<"%char text = 0%nat ->
     Text.count Text.line_feed text = 0%nat ->
     UIManager.el_text (UIManager.createMessageElement message) = text).
Proof.
  intros message text _ Htext.
  cbn [UIManager.createMessageElement UIManager.el_text]. rewrite Htext.
  destruct (escape_counts text) as [Hlt Hlf].
  split; [exact Hlt|]. split; [exact Hlf|]. apply escape_plain.
Qed.

(** The theorem at a message whose text is a script tag. *)
Lemma createMessageElement_escapes_markup_witness :
  Text.count "<"%char
    (UIManager.el_text
       (UIManager.createMessageElement
          (Examples.msg 1 "<script>alert(1)</script>"))) = 0%nat.
Proof.
  destruct (createMessageElement_escapes_markup
              (Examples.msg 1 "<script>alert(1)</script>")
              "<script>alert(1)</script>")
    as (Hcount & _).
  - reflexivity.
  - reflexivity.
  - rewrite Hcount. reflexivity.
Defined.

Section WindowFacts.

Import UIManager.

Lemma window_elements_length (count : nat) :
  forall (index : nat) (l : list Message.t),
    (List.length (window_elements index count l) <= count)%nat.
Proof.
  induction count as [|count IH]; intros index l; cbn; [lia|].
  destruct l as [|m l]; cbn; [lia|]. specialize (IH (S index) l). lia.
Qed.

Lemma window_elements_nth (count : nat) :
  forall (index k : nat) (l : list Message.t) (el : MessageElement),
    nth_error (window_elements index count l) k = Some el ->
    exists m : Message.t,
      nth_error l k = Some m /\
      el_message_id el = Message.id m /\
      el_top el = Some (Z.of_nat (index + k) * itemHeight)%Z.
Proof.
  induction count as [|count IH]; intros index k l el H.
  - destruct k; discriminate.
  - destruct l as [|m l]; [destruct k; discriminate|].
    cbn [window_elements] in H. destruct k as [|k]; cbn [nth_error] in *.
    + inversion H; subst el. exists m. cbn. rewrite Nat.add_0_r.
      repeat split.
    + destruct (IH (S index) k l el H) as (m' & Hm & Hid & Htop).
      exists m'. repeat split; try assumption.
      rewrite Htop. do 2 f_equal. lia.
Qed.

Lemma nth_error_skipn {A : Type} (n k : nat) (l : list A) :
  nth_error (skipn n l) k = nth_error l (n + k).
Proof.
  revert l. induction n as [|n IH]; intros l; [reflexivity|].
  destruct l as [|x l]; [now destruct k|]. cbn. apply IH.
Qed.

End WindowFacts.

(** X16. Windowed rendering materialises a bounded number of elements:
    whatever the length of the thread and the scroll position, at most
    [ceil(clientHeight / 60) + 10] message elements are built. The element
    at position [k] of the window shows the message at index [first + k]
    of the thread it was given, where [first = max(0, floor(scrollTop /
    60) - 5)], and is placed at [60 * (first + k)] pixels: inside the
    container, whose height is 60 pixels for each message. *)
Theorem updateVirtualScrollView_is_bounded :
  forall (area : UIManager.ThreadArea) (messages : list Message.t),
    let window := UIManager.updateVirtualScrollView area messages in
    let first :=
      Z.to_nat (Z.max 0 (UIManager.scrollTop area / 60 - 5)) in
    (Z.of_nat (List.length window)
     <= Z.max 0 (UIManager.ceil_div (UIManager.clientHeight area) 60 + 10))%Z
    /\
    (forall (k : nat) (el : UIManager.MessageElement),
        nth_error window k = Some el ->
        exists m : Message.t,
          nth_error messages (first + k) = Some m /\
          UIManager.el_message_id el = Message.id m /\
          UIManager.el_top el = Some (60 * Z.of_nat (first + k))%Z /\
          (60 * Z.of_nat (first + k) + 60
           <= 60 * Z.of_nat (List.length messages))%Z).
Proof.
  intros area messages window first. subst window.
  unfold UIManager.updateVirtualScrollView, UIManager.itemHeight.
  fold first. split.
  - pose proof (window_elements_length
                  (Z.to_nat
                     (Z.min (UIManager.scrollTop area / 60
                             + UIManager.ceil_div
                                 (UIManager.clientHeight area) 60 + 5)
                            (Z.of_nat (List.length messages))
                      - Z.max 0 (UIManager.scrollTop area / 60 - 5)))
                  first (skipn first messages)) as Hlen.
    lia.
  - intros k el Hk.
    destruct (window_elements_nth _ _ _ _ _ Hk) as (m & Hm & Hid & Htop).
    rewrite nth_error_skipn in Hm. exists m.
    split; [exact Hm|]. split; [exact Hid|]. split.
    + rewrite Htop. unfold UIManager.itemHeight. f_equal. lia.
    + assert (Hlt : (first + k < List.length messages)%nat).
      { apply nth_error_Some. congruence. }
      lia.
Qed.

(** The theorem at the page that shows the long thread: the fifth
    element of the window. *)
Lemma updateVirtualScrollView_is_bounded_witness :
  exists m : Message.t,
    nth_error (UIManager.sort_by_id (Examples.countdown 150)) 4 = Some m /\
    Message.id m = 5%Z.
Proof.
  destruct (updateVirtualScrollView_is_bounded
              (UIManager.mkArea UIManager.Blank 0 600)
              (UIManager.sort_by_id (Examples.countdown 150)))
    as [_ Hnth].
  destruct (Hnth 4%nat
              (UIManager.mkElement 5 "msg in" 2 false "text" "Client"
                                   (Some 240%Z) None))
    as (m & Hm & Hid & _).
  - vm_compute. reflexivity.
  - exists m. split; [exact Hm|]. symmetry. exact Hid.
Defined.

(** ** The controller: loading and incoming messages *)

Section ControllerFacts.

Import StateManager WhatsAppAdminApp.

Lemma setState_state (updates : Updates) (st : StateManager.t) :
  state (setState updates st) = merge (state st) updates.
Proof. apply setState_spec. Qed.

Lemma map_messages_length (now : Z) (history : list RawMessage.t) :
  forall store : ApiService.BlobStore,
    List.length (fst (ApiService.map_messages now store history))
    = List.length history.
Proof.
  induction history as [|msg r IH]; intros store; cbn [ApiService.map_messages];
    [reflexivity|].
  destruct (ApiService.mapMessageData now store msg) as [m store1].
  specialize (IH store1).
  destruct (ApiService.map_messages now store1 r) as [ms store2].
  cbn in *. now rewrite IH.
Qed.

(** What [mapConversationData2] builds from a body that has a record. *)
Lemma mapConversationData2_fields (now : Z) (store : ApiService.BlobStore)
  (number : RawConversation.t) (index : nat) :
  exists (c : Conversation.t) (store' : ApiService.BlobStore),
    ConversationInfo.mapConversationData2 now store (Some number) index
    = Ok (c, store') /\
    Conversation.id c = String.append "c" (ApiService.decimal index) /\
    Conversation.name c = RawConversation.name number /\
    Conversation.number c = RawConversation.number number /\
    List.length (Conversation.messages c)
    = List.length (Registry.history_of number).
Proof.
  unfold ConversationInfo.mapConversationData2, Registry.history_of.
  pose proof (map_messages_length now
                match RawConversation.history number with
                | Some h => h
                | None => []
                end store) as Hlen.
  destruct (ApiService.map_messages now store _) as [messages store'].
  eexists; eexists. split; [reflexivity|]. cbn. repeat split. exact Hlen.
Qed.

(** The incoming message as the mapper builds it: it never takes the
    audio path. *)
Lemma mapMessageData_incoming (stamp now : Z) (data : MessageEvent)
  (store : ApiService.BlobStore) :
  exists m : Message.t,
    ApiService.mapMessageData now store
      (RawMessage.mk stamp (ev_typo data) (ev_message data) None)
    = (m, store) /\
    Message.id m = stamp /\
    Message.type m = ev_typo data /\
    Message.text m = ev_message data /\
    Message.isAudio m = false.
Proof.
  unfold ApiService.mapMessageData. cbn [RawMessage.isaudio andb].
  eexists. split; [reflexivity|]. cbn. repeat split.
Qed.

(** The store after [handleNewMessage] succeeded, when the id it
    generates is that of the last conversation or of none. *)
Lemma handleNewMessage_store (stamp now : Z) (data : MessageEvent)
  (number : RawConversation.t) (message : option string) (app : t)
  (pre rest : list Conversation.t) :
  let cs := conversations (state (stateManager app)) in
  let target := String.append "c" (ApiService.decimal (List.length cs)) in
  cs = pre ++ rest ->
  (forall y, In y pre -> Conversation.id y <> target) ->
  (rest = [] \/ exists old, rest = [old] /\ Conversation.id old = target) ->
  exists (app' : t) (c : Conversation.t) (history : list Message.t)
         (m : Message.t),
    handleNewMessage stamp now data
      (ConversationInfo.Body 200 (Some number) message) app = Ok app' /\
    conversations (state (stateManager app')) = pre ++ [c] /\
    activeConversationId (state (stateManager app'))
    = activeConversationId (state (stateManager app)) /\
    Conversation.id c = target /\
    Conversation.name c = RawConversation.name number /\
    Conversation.number c = RawConversation.number number /\
    Conversation.messages c = history ++ [m] /\
    List.length history = List.length (Registry.history_of number) /\
    Message.id m = stamp /\
    Message.type m = ev_typo data /\
    Message.text m = ev_message data /\
    calls app'
    = calls app
      ++ ShowToastNewMessage (RawConversation.name number)
         :: (if is_active target
                  (activeConversationId (state (stateManager app)))
             then [AddMessageWithAnimation m] else []).
Proof.
  intros cs target Hcs Hpre Hrest. subst cs.
  unfold handleNewMessage.
  cbn [ConversationInfo.fetchConversationInfo]. rewrite Z.eqb_refl.
  unfold getState.
  destruct (mapConversationData2_fields now (blobs app) number
              (List.length (conversations (state (stateManager app)))))
    as (c & store1 & Hmap & Hid & Hname & Hnumber & Hlen).
  rewrite Hmap.
  destruct (mapMessageData_incoming stamp now data store1)
    as (m & Hm & Hmid & Hmtype & Hmtext & _).
  rewrite Hm. fold target in Hid.
  assert (Hupd : conversations (state (updateConversation c (stateManager app)))
                 = pre ++ c :: []).
  { rewrite updateConversation_list. cbn zeta. rewrite Hcs, Hid.
    destruct Hrest as [->|(old & -> & Hold)].
    - rewrite app_nil_r.
      rewrite (proj2 (findIndex_None _ pre)); [reflexivity|].
      intros y Hy. apply String.eqb_neq. now apply Hpre.
    - rewrite (findIndex_first _ pre [] old).
      + apply set_index_middle.
      + intros y Hy. apply String.eqb_neq. now apply Hpre.
      + now apply String.eqb_eq. }
  destruct (addMessage_known_parts (Conversation.id c) m
              (updateConversation c (stateManager app)) pre [] c Hupd)
    as (Hlist & Hactive); [now rewrite Hid|reflexivity|].
  assert (Hactive' :
            activeConversationId
              (state (addMessage (Conversation.id c) m
                        (updateConversation c (stateManager app))))
            = activeConversationId (state (stateManager app))).
  { rewrite Hactive, updateConversation_state. reflexivity. }
  eexists. exists (Conversation.with_messages c (Conversation.messages c ++ [m])).
  exists (Conversation.messages c), m.
  split; [reflexivity|].
  cbn [stateManager calls blobs].
  split; [exact Hlist|]. split; [exact Hactive'|].
  split; [exact Hid|]. split; [exact Hname|]. split; [exact Hnumber|].
  split; [reflexivity|]. split; [exact Hlen|].
  split; [exact Hmid|]. split; [exact Hmtype|]. split; [exact Hmtext|].
  rewrite Hactive', Hid, Hname.
  destruct (is_active target _); reflexivity.
Qed.

Lemma numbered_fresh (first count : nat) (y : string) :
  In y (numbered first count) ->
  y <> String.append "c" (ApiService.decimal (first + count)).
Proof.
  unfold numbered. intros Hin Heq. apply in_map_iff in Hin.
  destruct Hin as (i & Hi & Hin). apply in_seq in Hin.
  rewrite Heq in Hi. inversion Hi as [Hd]. apply decimal_inj in Hd. lia.
Qed.

Lemma numbered_snoc (first count : nat) :
  numbered first (S count)
  = numbered first count
    ++ [String.append "c" (ApiService.decimal (first + count))].
Proof. unfold numbered. now rewrite seq_S, map_app. Qed.

End ControllerFacts.

(** X17. A successful load into a store with nothing selected selects
    the first conversation: after [loadConversations] on a success
    envelope with at least one entry, the store holds one conversation
    for each entry, [getActiveConversation] returns the first of them,
    the one built from the first entry under the id "c1", the loading flag
    is cleared and the view got no toast. *)
Theorem loadConversations_selects_first :
  forall (now : Z) (app : WhatsAppAdminApp.t) (first : RawConversation.t)
         (numbers : list RawConversation.t) (message : option string),
    WhatsAppAdminApp.nothing_selected
      (StateManager.activeConversationId
         (StateManager.state (WhatsAppAdminApp.stateManager app))) = true ->
    exists (c : Conversation.t) (cs : list Conversation.t),
      StateManager.conversations
        (StateManager.state
           (WhatsAppAdminApp.stateManager
              (WhatsAppAdminApp.loadConversations now
                 (ApiService.Envelope 200 (Some (first :: numbers)) message)
                 app)))
      = c :: cs /\
      List.length cs = List.length numbers /\
      StateManager.getActiveConversation
        (WhatsAppAdminApp.stateManager
           (WhatsAppAdminApp.loadConversations now
              (ApiService.Envelope 200 (Some (first :: numbers)) message)
              app))
      = Some c /\
      Conversation.id c = "c1" /\
      Conversation.name c = RawConversation.name first /\
      Conversation.number c = RawConversation.number first /\
      StateManager.isLoading
        (StateManager.state
           (WhatsAppAdminApp.stateManager
              (WhatsAppAdminApp.loadConversations now
                 (ApiService.Envelope 200 (Some (first :: numbers)) message)
                 app)))
      = false /\
      WhatsAppAdminApp.calls
        (WhatsAppAdminApp.loadConversations now
           (ApiService.Envelope 200 (Some (first :: numbers)) message) app)
      = WhatsAppAdminApp.calls app.
Proof.
  intros now app first numbers message Hnone.
  unfold WhatsAppAdminApp.loadConversations,
    WhatsAppAdminApp.loadConversations_resume,
    WhatsAppAdminApp.loadConversations_start.
  cbn [WhatsAppAdminApp.blobs WhatsAppAdminApp.stateManager
       WhatsAppAdminApp.calls ApiService.fetchConversations].
  rewrite Z.eqb_refl. cbn [ApiService.map_conversations].
  unfold ApiService.mapConversationData.
  destruct (ApiService.map_messages now (WhatsAppAdminApp.blobs app) _)
    as [messages store1].
  pose proof (map_conversations_ids now numbers store1 1) as Hids.
  destruct (ApiService.map_conversations now store1 numbers 1)
    as [cs store2].
  cbn [fst] in Hids.
  cbn [WhatsAppAdminApp.blobs WhatsAppAdminApp.stateManager
       WhatsAppAdminApp.calls].
  unfold StateManager.getState, StateManager.setConversations,
    StateManager.setLoading.
  rewrite !setState_state.
  cbn [StateManager.merge StateManager.override
       StateManager.u_conversations StateManager.u_activeConversationId
       StateManager.u_isManualMode StateManager.u_isLoading
       StateManager.u_searchQuery StateManager.u_selectedFilter
       StateManager.activeConversationId].
  rewrite Hnone.
  unfold StateManager.getActiveConversation,
    StateManager.setActiveConversation.
  rewrite !setState_state.
  cbn [StateManager.merge StateManager.override
       StateManager.u_conversations StateManager.u_activeConversationId
       StateManager.u_isManualMode StateManager.u_isLoading
       StateManager.u_searchQuery StateManager.u_selectedFilter
       StateManager.activeConversationId StateManager.conversations
       StateManager.isLoading Conversation.id find].
  rewrite String.eqb_refl.
  eexists; eexists. split; [reflexivity|].
  split.
  - apply (f_equal (@List.length string)) in Hids.
    now rewrite !length_map, length_seq in Hids.
  - repeat split.
Qed.

(** The theorem at a fresh store and a list of two entries. *)
Lemma loadConversations_selects_first_witness :
  exists c : Conversation.t,
    StateManager.getActiveConversation
      (WhatsAppAdminApp.stateManager
         (WhatsAppAdminApp.loadConversations 0
            (ApiService.Envelope 200
               (Some [Examples.ana_raw; Examples.tabbed_raw]) None)
            (WhatsAppAdminApp.mk StateManager.create [] [])))
    = Some c /\
    Conversation.id c = "c1".
Proof.
  destruct (loadConversations_selects_first 0
              (WhatsAppAdminApp.mk StateManager.create [] [])
              Examples.ana_raw [Examples.tabbed_raw] None)
    as (c & cs & _ & _ & Hactive & Hid & _).
  - reflexivity.
  - exists c. split; [exact Hactive | exact Hid].
Defined.

(** X18. A load that fails leaves the store as it was: when
    [fetchConversations] gives a failure (the request was rejected, the
    status is not 200, or the envelope has no list), the conversations and
    the selection are those of before, the error is handed to the view as
    a toast, and the loading flag is cleared all the same. *)
Theorem loadConversations_failure_keeps_store :
  forall (now : Z) (app : WhatsAppAdminApp.t)
         (response : ApiService.Response) (error : string)
         (store : ApiService.BlobStore),
    ApiService.fetchConversations now (WhatsAppAdminApp.blobs app) response
    = (ApiService.Failure error, store) ->
    StateManager.conversations
      (StateManager.state
         (WhatsAppAdminApp.stateManager
            (WhatsAppAdminApp.loadConversations now response app)))
    = StateManager.conversations
        (StateManager.state (WhatsAppAdminApp.stateManager app)) /\
    StateManager.activeConversationId
      (StateManager.state
         (WhatsAppAdminApp.stateManager
            (WhatsAppAdminApp.loadConversations now response app)))
    = StateManager.activeConversationId
        (StateManager.state (WhatsAppAdminApp.stateManager app)) /\
    StateManager.isLoading
      (StateManager.state
         (WhatsAppAdminApp.stateManager
            (WhatsAppAdminApp.loadConversations now response app)))
    = false /\
    WhatsAppAdminApp.calls
      (WhatsAppAdminApp.loadConversations now response app)
    = WhatsAppAdminApp.calls app ++ [WhatsAppAdminApp.ShowToast error] /\
    WhatsAppAdminApp.blobs
      (WhatsAppAdminApp.loadConversations now response app)
    = WhatsAppAdminApp.blobs app.
Proof.
  intros now app response error store Hfail.
  assert (Hstore : store = WhatsAppAdminApp.blobs app).
  { destruct response as [m|status [numbers|] m];
      cbn [ApiService.fetchConversations] in Hfail.
    - now inversion Hfail.
    - destruct (Z.eqb status 200); [|now inversion Hfail].
      destruct (ApiService.map_conversations now _ numbers 0); discriminate.
    - destruct (Z.eqb status 200); now inversion Hfail. }
  unfold WhatsAppAdminApp.loadConversations,
    WhatsAppAdminApp.loadConversations_resume,
    WhatsAppAdminApp.loadConversations_start.
  cbn [WhatsAppAdminApp.blobs WhatsAppAdminApp.stateManager
       WhatsAppAdminApp.calls].
  rewrite Hfail.
  cbn [WhatsAppAdminApp.blobs WhatsAppAdminApp.stateManager
       WhatsAppAdminApp.calls].
  unfold StateManager.setLoading. rewrite !setState_state.
  subst store. repeat split.
Qed.

(** The theorem at a request that was rejected. *)
Lemma loadConversations_failure_keeps_store_witness :
  WhatsAppAdminApp.calls
    (WhatsAppAdminApp.loadConversations 0
       (ApiService.Rejected "Failed to fetch")
       (WhatsAppAdminApp.mk Examples.two_conversations [] []))
  = [WhatsAppAdminApp.ShowToast "Failed to fetch"].
Proof.
  destruct (loadConversations_failure_keeps_store 0
              (WhatsAppAdminApp.mk Examples.two_conversations [] [])
              (ApiService.Rejected "Failed to fetch") "Failed to fetch" [])
    as (_ & _ & _ & Hcalls & _).
  - reflexivity.
  - exact Hcalls.
Defined.

(** X19. In a store that holds a fetched list ("c1" .. "cn", n at least
    one) an incoming message never adds a conversation: the controller
    numbers the sender's conversation "cn", the id of the last one of the
    list, so [handleNewMessage] puts the sender's record, with its history
    and the new message at the end, in the place of the last conversation,
    whoever the sender is. The conversations before it and the selection
    are kept; the view is asked for the new-message toast, with the name
    the lookup reported, and to animate the message exactly when the
    replaced conversation was the selected one. *)
Theorem handleNewMessage_replaces_last_loaded :
  forall (stamp now : Z) (data : WhatsAppAdminApp.MessageEvent)
         (number : RawConversation.t) (message : option string)
         (app : WhatsAppAdminApp.t) (before : list Conversation.t)
         (last : Conversation.t),
    StateManager.conversations
      (StateManager.state (WhatsAppAdminApp.stateManager app))
    = before ++ [last] ->
    map Conversation.id (before ++ [last])
    = map (fun i => String.append "c" (ApiService.decimal (i + 1)))
          (seq 0 (List.length (before ++ [last]))) ->
    exists (app' : WhatsAppAdminApp.t) (c : Conversation.t)
           (history : list Message.t) (m : Message.t),
      WhatsAppAdminApp.handleNewMessage stamp now data
        (ConversationInfo.Body 200 (Some number) message) app = Ok app' /\
      StateManager.conversations
        (StateManager.state (WhatsAppAdminApp.stateManager app'))
      = before ++ [c] /\
      Conversation.id c = Conversation.id last /\
      Conversation.name c = RawConversation.name number /\
      Conversation.number c = RawConversation.number number /\
      Conversation.messages c = history ++ [m] /\
      List.length history = List.length (Registry.history_of number) /\
      Message.id m = stamp /\
      Message.text m = WhatsAppAdminApp.ev_message data /\
      StateManager.activeConversationId
        (StateManager.state (WhatsAppAdminApp.stateManager app'))
      = StateManager.activeConversationId
          (StateManager.state (WhatsAppAdminApp.stateManager app)) /\
      WhatsAppAdminApp.calls app'
      = WhatsAppAdminApp.calls app
        ++ WhatsAppAdminApp.ShowToastNewMessage (RawConversation.name number)
           :: (if WhatsAppAdminApp.is_active (Conversation.id last)
                    (StateManager.activeConversationId
                       (StateManager.state
                          (WhatsAppAdminApp.stateManager app)))
               then [WhatsAppAdminApp.AddMessageWithAnimation m] else []).
Proof.
  intros stamp now data number message app before last Hcs Hids.
  rewrite length_app, map_app in Hids. cbn [List.length map] in Hids.
  rewrite Nat.add_1_r, seq_S, map_app in Hids. cbn [map Nat.add] in Hids.
  apply app_inj_tail in Hids. destruct Hids as [Hbefore Hlast].
  assert (Hlen : List.length
                   (StateManager.conversations
                      (StateManager.state (WhatsAppAdminApp.stateManager app)))
                 = (List.length before + 1)%nat).
  { rewrite Hcs, length_app. reflexivity. }
  destruct (handleNewMessage_store stamp now data number message app
              before [last] Hcs)
    as (app' & c & history & m & Hrun & Hlist & Hactive & Hid & Hname
        & Hnumber & Hmessages & Hhistory & Hmid & _ & Hmtext & Hcalls).
  - rewrite Hlen. intros y Hy Heq.
    assert (Hin : In (Conversation.id y) (map Conversation.id before))
      by now apply in_map.
    rewrite Hbefore, Heq in Hin. apply in_map_iff in Hin.
    destruct Hin as (i & Hi & Hin). apply in_seq in Hin.
    inversion Hi as [Hd]. apply decimal_inj in Hd. lia.
  - right. exists last. split; [reflexivity|]. now rewrite Hlen.
  - rewrite Hlen, <- Hlast in Hid, Hcalls.
    exists app', c, history, m.
    split; [exact Hrun|]. split; [exact Hlist|]. split; [exact Hid|].
    split; [exact Hname|]. split; [exact Hnumber|].
    split; [exact Hmessages|]. split; [exact Hhistory|].
    split; [exact Hmid|]. split; [exact Hmtext|].
    split; [exact Hactive | exact Hcalls].
Qed.

(** The theorem at the list of two and a message of a third contact: the
    second conversation gives way. *)
Lemma handleNewMessage_replaces_last_loaded_witness :
  exists (app' : WhatsAppAdminApp.t) (c : Conversation.t),
    WhatsAppAdminApp.handleNewMessage 1700000000000 0 Arrival.hola
      Arrival.info Arrival.loaded = Ok app' /\
    StateManager.conversations
      (StateManager.state (WhatsAppAdminApp.stateManager app'))
    = [Examples.ana; c] /\
    Conversation.id c = "c2" /\
    Conversation.number c = Some "+5215550009".
Proof.
  destruct (handleNewMessage_replaces_last_loaded 1700000000000 0
              Arrival.hola Arrival.carla None Arrival.loaded
              [Examples.ana] Examples.bob)
    as (app' & c & _ & _ & Hrun & Hlist & Hid & _ & Hnumber & _).
  - reflexivity.
  - reflexivity.
  - exists app', c. split; [exact Hrun|]. split; [exact Hlist|].
    split; [exact Hid | exact Hnumber].
Defined.

Section ArrivalFacts.

Import StateManager WhatsAppAdminApp.

Lemma numbered_cons (first count : nat) :
  numbered first (S count)
  = String.append "c" (ApiService.decimal first) :: numbered (S first) count.
Proof. reflexivity. Qed.

Lemma is_success_body (response : ConversationInfo.Response) :
  is_success response = true ->
  exists number message,
    response = ConversationInfo.Body 200 (Some number) message.
Proof.
  destruct response as [m|status [number|] m]; cbn; try discriminate.
  intros H. apply Z.eqb_eq in H. subst status. now exists number, m.
Qed.

End ArrivalFacts.

(** X20. In a store whose conversations are numbered from "c0" (the empty
    store of a page whose list never loaded is one), no incoming message
    ever joins an earlier conversation: a sequence of messages whose
    lookups succeed adds one conversation for each message, in order of
    arrival, numbered on from the ones before and holding the number the
    lookup reported, also when several of the messages are from the same
    number. The conversations that were there are kept as they are. *)
Theorem handle_all_adds_one_conversation_each :
  forall (arrivals :
            list (Z * WhatsAppAdminApp.MessageEvent
                  * ConversationInfo.Response))
         (now : Z) (app : WhatsAppAdminApp.t),
    map Conversation.id
        (StateManager.conversations
           (StateManager.state (WhatsAppAdminApp.stateManager app)))
    = WhatsAppAdminApp.numbered 0
        (List.length
           (StateManager.conversations
              (StateManager.state (WhatsAppAdminApp.stateManager app)))) ->
    forallb (fun arrival => WhatsAppAdminApp.is_success (snd arrival))
            arrivals = true ->
    exists (app' : WhatsAppAdminApp.t) (added : list Conversation.t),
      WhatsAppAdminApp.handle_all arrivals now app = Ok app' /\
      StateManager.conversations
        (StateManager.state (WhatsAppAdminApp.stateManager app'))
      = StateManager.conversations
          (StateManager.state (WhatsAppAdminApp.stateManager app))
        ++ added /\
      map Conversation.id added
      = WhatsAppAdminApp.numbered
          (List.length
             (StateManager.conversations
                (StateManager.state (WhatsAppAdminApp.stateManager app))))
          (List.length arrivals) /\
      map Conversation.number added
      = map (fun arrival => WhatsAppAdminApp.sender (snd arrival)) arrivals /\
      Forall (fun c => Conversation.messages c <> []) added.
Proof.
  induction arrivals as [|[[stamp data] response] r IH];
    intros now app Hids Hok.
  - exists app, []. cbn. rewrite app_nil_r. repeat split. constructor.
  - cbn [forallb snd] in Hok. apply andb_prop in Hok.
    destruct Hok as [Hresponse Hr].
    destruct (is_success_body response Hresponse) as (number & message & ->).
    destruct (handleNewMessage_store stamp now data number message app
                (StateManager.conversations
                   (StateManager.state (WhatsAppAdminApp.stateManager app)))
                [])
      as (app1 & c & history & m & Hrun & Hlist & _ & Hid & _ & Hnumber
          & Hmessages & _).
    + now rewrite app_nil_r.
    + intros y Hy.
      apply (numbered_fresh 0
               (List.length
                  (StateManager.conversations
                     (StateManager.state
                        (WhatsAppAdminApp.stateManager app))))).
      rewrite <- Hids. now apply in_map.
    + now left.
    + destruct (IH now app1) as (app' & added & Hrest & Hlist' & Hids' & Hnumbers
                                 & Hnonempty).
      * rewrite Hlist, map_app, length_app, Hids. cbn [map List.length].
        rewrite Hid, Nat.add_1_r. symmetry. apply numbered_snoc.
      * exact Hr.
      * exists app', (c :: added). cbn [WhatsAppAdminApp.handle_all].
        rewrite Hrun. split; [exact Hrest|].
        split; [now rewrite Hlist', Hlist, <- app_assoc|].
        split; [|split].
        -- cbn [map List.length]. rewrite numbered_cons, Hid. f_equal.
           rewrite Hids', Hlist, length_app. cbn [List.length].
           now rewrite Nat.add_1_r.
        -- cbn [map snd WhatsAppAdminApp.sender]. now rewrite Hnumber, Hnumbers.
        -- constructor; [|exact Hnonempty]. rewrite Hmessages.
           now destruct history.
Qed.

(** The theorem at a fresh store and two messages of the same number:
    two conversations. *)
Lemma handle_all_adds_one_conversation_each_witness :
  exists (app' : WhatsAppAdminApp.t),
    WhatsAppAdminApp.handle_all
      [(1700000000000%Z, Arrival.hola, Arrival.info);
       (1700000000500%Z, Arrival.hola, Arrival.info)] 0 Arrival.fresh
    = Ok app' /\
    map Conversation.id
        (StateManager.conversations
           (StateManager.state (WhatsAppAdminApp.stateManager app')))
    = ["c0"; "c1"] /\
    map Conversation.number
        (StateManager.conversations
           (StateManager.state (WhatsAppAdminApp.stateManager app')))
    = [Some "+5215550009"; Some "+5215550009"].
Proof.
  destruct (handle_all_adds_one_conversation_each
              [(1700000000000%Z, Arrival.hola, Arrival.info);
               (1700000000500%Z, Arrival.hola, Arrival.info)]
              0 Arrival.fresh)
    as (app' & added & Hrun & Hlist & Hids & Hnumbers & _).
  - reflexivity.
  - reflexivity.
  - exists app'. split; [exact Hrun|]. rewrite Hlist. cbn [app map].
    split; [exact Hids | exact Hnumbers].
Defined.

(** ** The thread: a message that is stored and then animated *)

Section AnimationFacts.

Import UIManager.

(** After a rendering of a conversation that has messages the thread
    area shows a thread. *)
Lemma renderConversationThread_shows_thread (ui : t) (area : ThreadArea)
  (c : Conversation.t) :
  threadArea ui = Some area ->
  StateManager.getActiveConversation (store ui) = Some c ->
  Conversation.messages c <> [] ->
  exists (area' : ThreadArea) (height : option Z)
         (elements : list MessageElement),
    threadArea (renderConversationThread ui) = Some area' /\
    content area' = Thread height elements.
Proof.
  intros Harea Hactive Hmessages. unfold renderConversationThread.
  rewrite Harea, Hactive.
  destruct (Conversation.messages c) as [|m ms]; [congruence|].
  destruct (100 <? _)%nat; eexists; eexists; eexists; split; reflexivity.
Qed.

End AnimationFacts.

(** X21. A message that is in the store when the thread is rendered and is
    then handed to [addMessageWithAnimation] is shown twice. The element
    of the call goes to the end of what the rendering shows, whatever the
    size of the thread; in a thread of at most 100 messages the rendering
    already shows the message. This is the order of the controller: it
    calls [addMessage], whose notification runs the rendering of the
    subscriber, and then [addMessageWithAnimation] with the same
    message. *)
Theorem addMessageWithAnimation_repeats_stored_message :
  forall (ui : UIManager.t) (area : UIManager.ThreadArea)
         (conversation : Conversation.t) (message : Message.t),
    UIManager.threadArea ui = Some area ->
    StateManager.getActiveConversation (UIManager.store ui)
    = Some conversation ->
    In message (Conversation.messages conversation) ->
    UIManager.displayed_ids
      (Animation.addMessageWithAnimation message
         (UIManager.renderConversationThread ui))
    = UIManager.displayed_ids (UIManager.renderConversationThread ui)
      ++ [Message.id message] /\
    ((List.length (Conversation.messages conversation) <= 100)%nat ->
     In (Message.id message)
        (UIManager.displayed_ids (UIManager.renderConversationThread ui))).
Proof.
  intros ui area c m Harea Hactive Hin.
  assert (Hmessages : Conversation.messages c <> []).
  { intros Hnil. rewrite Hnil in Hin. destruct Hin. }
  split.
  - destruct (renderConversationThread_shows_thread ui area c Harea Hactive
                Hmessages) as (area' & height & elements & Harea' & Hcontent).
    unfold Animation.addMessageWithAnimation, UIManager.displayed_ids.
    rewrite Harea', Hcontent.
    cbn [UIManager.threadArea UIManager.set_threadArea UIManager.content
         UIManager.set_content].
    rewrite map_app. reflexivity.
  - intros Hle.
    destruct (rendered_ids ui area c Harea Hactive Hmessages)
      as (_ & Hsmall & _).
    rewrite (Hsmall Hle). apply in_map.
    apply (Permutation_in m (sort_by_id_perm (Conversation.messages c))).
    exact Hin.
Qed.

(** The theorem at the page that shows the conversation with the messages
    5, 1, 3, and the message 3. *)
Lemma addMessageWithAnimation_repeats_stored_message_witness :
  UIManager.displayed_ids
    (Animation.addMessageWithAnimation (Examples.msg 3 "three")
       (UIManager.renderConversationThread Examples.viewing_bob))
  = [1; 3; 5; 3]%Z.
Proof.
  destruct (addMessageWithAnimation_repeats_stored_message
              Examples.viewing_bob
              (UIManager.mkArea UIManager.Blank 0 600)
              Examples.bob (Examples.msg 3 "three"))
    as [Hshown _].
  - reflexivity.
  - reflexivity.
  - cbn. auto.
  - rewrite Hshown. reflexivity.
Defined.
